(** * Narrative structures: Harmon's Story Circle and Vogler's Hero's Journey

    A shallow embedding of [narr_mod/harmon_story_circle.py] and
    [narr_mod/vogler_hero_journey.py], and what holds of them.

    Conventions of the embedding.
    - A Python [int] is a [Z]; [len] returns a [Z].
    - A Python [str] is a [string].  In the Vogler module, where the text is
      measured, sliced and lower-cased, a character stands for one code point
      below 256.  In the Harmon module strings are only compared,
      concatenated and searched for ASCII markers, and the Cyrillic literals
      are kept as the bytes of the source file.
    - A [dict] is an association list in insertion order.  The dictionaries
      that Harmon's methods build from literal keys are records; the
      dictionaries of Vogler's [analyze], whose values are of several types
      and are read back with [get], are values of [Vogler.pyval].
    - A method is a computation in a monad of state and exceptions: the state
      holds the attributes of the class, the only data that outlive a call.
    - The floats whose value decides an outcome (scores, strengths, the
      balance) are ratios of integers and are kept as exact rationals, in
      lowest terms; a division raises [ZeroDivisionError] exactly when its
      divisor is zero.
    - The trigonometry of the layouts goes through the interface [Float],
      and the text printed for a float through [Repr].  The doubles of
      [Binary64] implement the interface: a mantissa and an exponent, each
      result rounded to 53 bits, with the cosine and the sine of the C
      library as parameters. *)

From Stdlib Require Import ZArith QArith Qround List String Ascii Bool Lia.
From Stdlib Require Import DecimalString.
From Stdlib Require Import Qabs Qpower Lqa.
Import ListNotations.
Local Open Scope string_scope.
Local Open Scope Z_scope.

(** ** Python strings *)

Module Str.

Definition nl : string := String "010"%char EmptyString.

(** [len(s)] *)
Definition len (s : string) : Z := Z.of_nat (String.length s).

(** [str(n)] for an [int]. *)
Definition of_int (n : Z) : string := NilZero.string_of_int (Z.to_int n).

(** [sep.join(parts)] *)
Fixpoint join (sep : string) (parts : list string) : string :=
  match parts with
  | [] => ""
  | [p] => p
  | p :: ps => p ++ sep ++ join sep ps
  end.

(** One character of [s.lower()]: the upper-case letters below code point
    256 are A-Z, and 192-222 but for the multiplication sign 215; each has its
    lower-case form 32 places further. *)
Definition lower_char (c : ascii) : ascii :=
  let n := nat_of_ascii c in
  if ((65 <=? n) && (n <=? 90))%nat then ascii_of_nat (n + 32)
  else if ((192 <=? n) && (n <=? 222) && negb (n =? 215))%nat
       then ascii_of_nat (n + 32)
  else c.

(** [s.lower()] *)
Fixpoint lower (s : string) : string :=
  match s with
  | EmptyString => EmptyString
  | String c s' => String (lower_char c) (lower s')
  end.

(** [s.replace(old, new)] for one-character [old] and [new]. *)
Fixpoint replace (old new : ascii) (s : string) : string :=
  match s with
  | EmptyString => EmptyString
  | String c s' =>
      String (if Ascii.eqb c old then new else c) (replace old new s')
  end.

(** [kw in s]: [kw] is a substring of [s]. *)
Fixpoint contains (kw s : string) : bool :=
  prefix kw s ||
  match s with
  | EmptyString => false
  | String _ s' => contains kw s'
  end.

(** One index of a slice, as Python normalises it: a negative index counts
    from the end, and the result is clamped to [0, n]. *)
Definition clamp (n i : Z) : Z :=
  let i := if i <? 0 then i + n else i in
  Z.max 0 (Z.min n i).

(** [s[start:stop]] *)
Definition slice (s : string) (start stop : Z) : string :=
  let n := len s in
  let a := clamp n start in
  let b := clamp n stop in
  string_of_list_ascii
    (firstn (Z.to_nat (b - a)) (skipn (Z.to_nat a) (list_ascii_of_string s))).

(** The number of places of [s] at which [m] occurs; for an [m] that cannot
    overlap itself, [s.count(m)]. *)
Fixpoint count (m s : string) : nat :=
  ((if prefix m s then 1 else 0) +
   match s with
   | EmptyString => 0
   | String _ s' => count m s'
   end)%nat.

End Str.

(** ** Python dictionaries

    A [dict] keeps its keys in insertion order; assigning to a key that is
    present overwrites the value where it stands. *)

Module Dict.

Definition t (V : Type) : Type := list (string * V).

Fixpoint get {V} (d : t V) (k : string) : option V :=
  match d with
  | [] => None
  | (k', v) :: d' => if String.eqb k k' then Some v else get d' k
  end.

(** [d.get(k, default)] *)
Definition get_default {V} (d : t V) (k : string) (default : V) : V :=
  match get d k with Some v => v | None => default end.

(** [d[k] = v] *)
Fixpoint set {V} (d : t V) (k : string) (v : V) : t V :=
  match d with
  | [] => [(k, v)]
  | (k', v') :: d' =>
      if String.eqb k k' then (k', v) :: d' else (k', v') :: set d' k v
  end.

Definition keys {V} (d : t V) : list string := map fst d.
Definition values {V} (d : t V) : list V := map snd d.

End Dict.

(** ** Exceptions and state *)

Inductive exn : Type :=
| ZeroDivisionError
| AttributeError
| KeyError
| TypeError
| OverflowError.

Inductive result (A : Type) : Type :=
| Ok (a : A)
| Raise (e : exn).
Arguments Ok {A} a.
Arguments Raise {A} e.

(** A method of a class whose attributes are an [S]. *)
Definition M (S A : Type) : Type := S -> result A * S.

Definition ret {S A} (a : A) : M S A := fun s => (Ok a, s).

Definition raise {S A} (e : exn) : M S A := fun s => (Raise e, s).

Definition bind {S A B} (m : M S A) (k : A -> M S B) : M S B :=
  fun s =>
    match m s with
    | (Ok a, s') => k a s'
    | (Raise e, s') => (Raise e, s')
    end.

(** [self.attr] *)
Definition attr {S A} (f : S -> A) : M S A := fun s => (Ok (f s), s).

Declare Scope py_scope.
Delimit Scope py_scope with py.
Notation "x <- m ;; k" := (bind m (fun x => k))
  (at level 61, m at next level, right associativity) : py_scope.
Notation "' p <- m ;; k" := (bind m (fun x => let p := x in k))
  (at level 61, p pattern, m at next level, right associativity) : py_scope.

(** [for x in xs: acc = body x acc] *)
Fixpoint for_each {S A B} (xs : list A) (body : A -> B -> M S B) (acc : B)
  : M S B :=
  match xs with
  | [] => ret acc
  | x :: xs' => bind (body x acc) (fun acc' => for_each xs' body acc')
  end.

(** [[f(x) for x in xs]] *)
Definition comprehension {S A B} (xs : list A) (f : A -> M S B)
  : M S (list B) :=
  for_each xs (fun x acc => bind (f x) (fun y => ret (acc ++ [y])%list)) [].

Definition value {S A} (r : result A * S) : result A := fst r.
Definition state {S A} (r : result A * S) : S := snd r.

(** [a / b] on numbers, the result in lowest terms. *)
Definition truediv {S} (a b : Q) : M S Q :=
  if Qeq_bool b 0 then raise ZeroDivisionError else ret (Qred (a / b)).

(** ** The collaborators from [narr_mod] *)

Inductive StructureType : Type :=
| HARMON_CIRCLE
| VOGLER_HERO_JOURNEY.

Record AnalysisMetadata : Type := {
  model_name : string;
  model_version : string;
  confidence : Q;
  processing_time : Q;
  meta_structure_type : StructureType;
  meta_display_name : string
}.

Record AnalysisResult (St : Type) : Type := {
  structure : St;
  summary : string;
  visualization : string;
  metadata : AnalysisMetadata
}.
Arguments structure {St} _.
Arguments summary {St} _.
Arguments visualization {St} _.
Arguments metadata {St} _.

(** ** Floating point: the operations of the layout

    [math.radians], [math.cos], [math.sin] and the product of an [int] and a
    [float]; and, apart, the text an f-string prints for a [float]. *)

Class Float : Type := {
  float : Type;
  of_int : Z -> float;
  fmul : float -> float -> float;
  radians : float -> float;
  fcos : float -> float;
  fsin : float -> float
}.

Class Repr (F : Float) : Type := {
  repr : float -> string
}.

(** The conversion of an [int] to a [float], which [math.radians] and the
    product of an [int] and a [float] begin with.  A [float] of CPython is a
    double, and the conversion raises [OverflowError] when the [int] rounds
    to no finite double: from [2 ^ 1024 - 2 ^ 970] on, the midpoint of the
    largest double and [2 ^ 1024]. *)
Definition convertible (n : Z) : bool := Z.abs n <? 2 ^ 1024 - 2 ^ 970.

Definition float_of_int {F : Float} {S : Type} (n : Z) : M S float :=
  if convertible n then ret (of_int n) else raise OverflowError.

(** ** [narr_mod/harmon_story_circle.py] *)

Module Harmon.

Record StoryStep : Type := {
  number : Z;
  name : string;
  description : string;
  color : string;
  act : string;
  analysis_criteria : list string
}.

(** The attributes of the class [HarmonStoryCircle]. *)
Record Class : Type := {
  ACT_BEGINNING : string;
  ACT_MIDDLE : string;
  ACT_END : string;
  STORY_STEPS : list StoryStep;
  CSS_TEMPLATE : string
}.

(** The class as the module leaves it when it is loaded. *)
Definition module_load : Class :=
  let ACT_BEGINNING := "Beginning" in
  let ACT_MIDDLE := "Middle" in
  let ACT_END := "End" in
  {| ACT_BEGINNING := ACT_BEGINNING;
     ACT_MIDDLE := ACT_MIDDLE;
     ACT_END := ACT_END;
     STORY_STEPS := [
       Build_StoryStep
         1 "Зона комфорта"
         "Comfort Zone"
         "#e74c3c"
         ACT_BEGINNING
         ["character establishment"; "initial world state"; "status quo"];
       Build_StoryStep
         2 "Потребность или желание"
         "Need or Desire"
         "#3498db"
         ACT_BEGINNING
         ["motivation clarity"; "stakes establishment"; "goal definition"];
       Build_StoryStep
         3 "Незнакомая ситуация"
         "Unfamiliar Situation"
         "#2ecc71"
         ACT_MIDDLE
         ["comfort zone departure"; "new challenges"; "initial adaptation"];
       Build_StoryStep
         4 "Поиск и адаптация"
         "Search and Adaptation"
         "#f39c12"
         ACT_MIDDLE
         ["challenge handling"; "skill development"; "world exploration"];
       Build_StoryStep
         5 "Получение желаемого"
         "Getting What They Wanted"
         "#9b59b6"
         ACT_MIDDLE
         ["goal achievement"; "price recognition";
          "consequence understanding"];
       Build_StoryStep
         6 "Плата за него"
         "Paying the Price"
         "#e67e22"
         ACT_MIDDLE
         ["sacrifice measurement"; "cost evaluation"; "change catalyst"];
       Build_StoryStep
         7 "Возвращение к привычному"
         "Return to Familiar"
         "#1abc9c"
         ACT_END
         ["integration of change"; "world comparison"; "growth recognition"];
       Build_StoryStep
         8 "Способность меняться"
         "Changed State"
         "#34495e"
         ACT_END
         ["character evolution"; "lesson application"; "new normal"]
     ];
     CSS_TEMPLATE := "
        .harmon-circle {
            width: 400px;
            height: 400px;
            border-radius: 50%;
            border: 2px solid #333;
            position: relative;
            margin: 50px auto;
        }
        .step {
            position: absolute;
            width: 100px;
            text-align: center;
            transform-origin: center;
            transition: all 0.3s ease;
        }
        .step:hover {
            transform-origin: center;
            transform: scale(1.1);
        }
        .step-number {
            font-weight: bold;
            font-size: 18px;
            margin-bottom: 5px;
        }
        .step-name {
            font-size: 12px;
        }
        .circle-center {
            position: absolute;
            width: 100px;
            height: 100px;
            border-radius: 50%;
            top: 150px;
            left: 150px;
            display: flex;
            align-items: center;
            justify-content: center;
            background: rgba(255,255,255,0.9);
            border: 1px solid #333;
        }
    "
  |}.

(** The dictionary [_analyze_step] returns, its four keys as fields. *)
Record StepAnalysis : Type := {
  presence : bool;
  strength : string;
  suggestions : list string;
  criteria_met : list string
}.

(** The dictionary [_evaluate_overall_structure] returns. *)
Record OverallEvaluation : Type := {
  circle_completion : bool;
  balance : string;
  overall_suggestions : list string
}.

(** The dictionary [structure] of [analyze]. *)
Record Structure : Type := {
  steps : Dict.t StepAnalysis;
  overall_evaluation : OverallEvaluation
}.

Section Methods.

Context {F : Float} {P : Repr F}.

(** [self.display_name], inherited from [NarrativeStructure]. *)
Variable display_name : string.

Local Open Scope py_scope.

Definition structure_type : M Class StructureType :=
  ret HARMON_CIRCLE.

Definition _analyze_step (step : StoryStep) (text : string)
  : M Class StepAnalysis :=
  ret {| presence := true;
         strength := "medium";
         suggestions := [];
         criteria_met := analysis_criteria step |}.

Definition _evaluate_overall_structure (text : string)
  : M Class OverallEvaluation :=
  ret {| circle_completion := true;
         balance := "well_balanced";
         overall_suggestions := [] |}.

(** The default of the argument [radius]. *)
Definition default_radius : Z := 150.

Definition _calculate_step_position (step_number radius : Z)
  : M Class (float * float) :=
  let angle := radians (of_int ((step_number - 1) * 45 - 90)) in
  let x := fmul (of_int radius) (fcos angle) in
  let y := fmul (of_int radius) (fsin angle) in
  ret (x, y).

(** The same method with the conversions of its two [int]s written out.
    [visualize] calls the method on the numbers of the catalog and the
    default radius, which convert. *)
Definition _calculate_step_position_converting (step_number radius : Z)
  : M Class (float * float) :=
  degrees <- float_of_int ((step_number - 1) * 45 - 90) ;;
  let angle := radians degrees in
  r <- float_of_int radius ;;
  let x := fmul r (fcos angle) in
  r <- float_of_int radius ;;
  let y := fmul r (fsin angle) in
  ret (x, y).

Definition visualize (analysis_result : Structure) : M Class string :=
  let html_parts := [
    "<h1>Сюжетный круг (Дэн Хармон)</h1>";
    "<div class='harmon-circle'>"
  ] in
  story_steps <- attr STORY_STEPS ;;
  html_parts <-
    for_each story_steps (fun step html_parts =>
      ' (x, y) <- _calculate_step_position (number step) default_radius ;;
      let angle := (number step - 1) * 45 - 90 in
      ret (List.app html_parts [
        "<div class='step step-" ++ Str.of_int (number step) ++ "' style='";
        "transform: rotate(" ++ Str.of_int angle ++ "deg) translate("
          ++ repr x ++ "px, " ++ repr y ++ "px) rotate(-"
          ++ Str.of_int angle ++ "deg);";
        "color: " ++ color step ++ ";'>";
        "<div class='step-number'>" ++ Str.of_int (number step) ++ "</div>";
        "<div class='step-name'>" ++ name step ++ "</div>";
        "</div>"
      ])) html_parts ;;
  css <- attr CSS_TEMPLATE ;;
  let html_parts := List.app html_parts [
    "<div class='circle-center'>";
    "Story<br>Circle";
    "</div>";
    "</div>";
    "<style>" ++ css ++ "</style>"
  ] in
  ret (Str.join Str.nl html_parts).

Definition analyze (text : string) : M Class (AnalysisResult Structure) :=
  story_steps <- attr STORY_STEPS ;;
  steps <-
    for_each story_steps (fun step d =>
      a <- _analyze_step step text ;;
      ret (Dict.set d (name step) a)) [] ;;
  overall <- _evaluate_overall_structure text ;;
  let structure := {| steps := steps; overall_evaluation := overall |} in
  st <- structure_type ;;
  let metadata := {|
    model_name := "gpt-4";
    model_version := "1.0";
    confidence := 17 # 20;
    processing_time := 1;
    meta_structure_type := st;
    meta_display_name := display_name
  |} in
  let summary :=
    "Analysis of narrative structure using Harmon's Story Circle" in
  visualization <- visualize structure ;;
  ret {| structure := structure;
         summary := summary;
         visualization := visualization;
         metadata := metadata |}.

Definition get_prompt : M Class string :=
  let prompt_parts := [
    "Analyze the following narrative structure based on Dan Harmon's Story Circle:"
      ++ Str.nl
  ] in
  story_steps <- attr STORY_STEPS ;;
  ' (prompt_parts, _) <-
    for_each story_steps (fun step '(prompt_parts, current_act) =>
      let '(prompt_parts, current_act) :=
        if negb (match current_act with
                 | Some a => String.eqb (act step) a
                 | None => false
                 end)
        then (List.app prompt_parts [Str.nl ++ "Act - " ++ act step ++ ":"],
              Some (act step))
        else (prompt_parts, current_act) in
      ret (List.app prompt_parts [
              Str.of_int (number step) ++ ". " ++ name step
                ++ " (" ++ description step ++ ")";
              "   Criteria: " ++ Str.join ", " (analysis_criteria step)
            ], current_act))
      (prompt_parts, @None string) ;;
  ret (Str.join Str.nl prompt_parts).

End Methods.

End Harmon.

(** ** [narr_mod/vogler_hero_journey.py] *)

Module Vogler.

Inductive WorldType : Type :=
| ORDINARY
| SPECIAL.

(** The value of a member of the enumeration. *)
Definition world_value (w : WorldType) : string :=
  match w with
  | ORDINARY => "Ordinary World"
  | SPECIAL => "Special World"
  end.

(** The name of a member of the enumeration. *)
Definition world_name (w : WorldType) : string :=
  match w with
  | ORDINARY => "ORDINARY"
  | SPECIAL => "SPECIAL"
  end.

Definition world_eqb (a b : WorldType) : bool :=
  match a, b with
  | ORDINARY, ORDINARY => true
  | SPECIAL, SPECIAL => true
  | _, _ => false
  end.

Inductive ActType : Type :=
| BEGINNING
| MIDDLE
| END.

Definition act_value (a : ActType) : string :=
  match a with
  | BEGINNING => "Beginning"
  | MIDDLE => "Middle"
  | END => "End"
  end.

Definition act_eqb (a b : ActType) : bool :=
  match a, b with
  | BEGINNING, BEGINNING => true
  | MIDDLE, MIDDLE => true
  | END, END => true
  | _, _ => false
  end.

Record StageElement : Type := {
  element_name : string;
  element_description : string;
  keywords : list string;
  importance : Z;
  world_type : WorldType
}.

Record Stage : Type := {
  number : Z;
  name : string;
  description : string;
  act : ActType;
  world : WorldType;
  elements : list StageElement;
  angle : Z;
  color : string
}.

Record StageAnalysis : Type := {
  elements_present : Dict.t bool;
  strengths : list string;
  weaknesses : list string;
  score : Q
}.

(** The values [analyze] builds and hands to [visualize]: numbers,
    dictionaries with string keys, and instances of [StageAnalysis]. *)
#[warnings="-register-all"]
Inductive pyval : Type :=
| VInt (z : Z)
| VFloat (q : Q)
| VDict (d : list (string * pyval))
| VStageAnalysis (sa : StageAnalysis).

(** The attributes of the class [VoglerHeroJourney]. *)
Record Class : Type := {
  TOTAL_STAGES : Z;
  CIRCLE_DEGREES : Z;
  STAGES : list Stage;
  CSS_TEMPLATE : string
}.

(** The class as the module leaves it when it is loaded. *)
Definition module_load : Class :=
  {| TOTAL_STAGES := 12;
     CIRCLE_DEGREES := 360;
     STAGES := [
       Build_Stage
         1
         "Ordinary World"
         "Hero's starting point"
         BEGINNING
         ORDINARY
         [
           Build_StageElement
             "Initial State"
             "Hero's life before the adventure"
             ["normal"; "routine"; "ordinary"; "everyday"]
             9
             ORDINARY;
           Build_StageElement
             "Character Establishment"
             "Introduction of hero's character"
             ["personality"; "traits"; "background"; "life"]
             8
             ORDINARY
         ]
         0
         "#e6f3ff"
     ];
     CSS_TEMPLATE := "
        .vogler-journey {
            width: 800px;
            height: 800px;
            position: relative;
            margin: 50px auto;
        }
        .journey-circle {
            width: 100%;
            height: 100%;
            border-radius: 50%;
            border: 3px solid #333;
            position: absolute;
            background: radial-gradient(circle, #fff, #f5f5f5);
        }
        .stage {
            position: absolute;
            width: 120px;
            text-align: center;
            left: 50%;
            top: 50%;
            font-size: 14px;
            line-height: 1.3;
            transform-origin: 0 0;
            transition: all 0.3s ease;
        }
        .stage-content {
            background: rgba(255, 255, 255, 0.9);
            padding: 10px;
            border-radius: 8px;
            box-shadow: 0 2px 5px rgba(0,0,0,0.1);
            transition: all 0.3s ease;
        }
        .stage-content:hover {
            transform: scale(1.1);
            box-shadow: 0 5px 15px rgba(0,0,0,0.2);
        }
        .stage-number {
            font-weight: bold;
            color: #666;
        }
        .stage-name {
            font-weight: bold;
            margin: 5px 0;
        }
        .stage-description {
            font-size: 12px;
            color: #666;
        }
        .world-indicator {
            width: 10px;
            height: 10px;
            border-radius: 50%;
            display: inline-block;
            margin-right: 5px;
        }
        .ordinary-world {
            background-color: #4CAF50;
        }
        .special-world {
            background-color: #2196F3;
        }
        .connection-line {
            position: absolute;
            height: 2px;
            background: #ddd;
            transform-origin: 0 0;
        }
    "
  |}.

Section Methods.

Context {F : Float} {P : Repr F}.

(** [self.display_name], inherited from [NarrativeStructure]. *)
Variable display_name : string.

Local Open Scope py_scope.

Definition structure_type : M Class StructureType :=
  ret VOGLER_HERO_JOURNEY.

(** [a // b] on [int]s. *)
Definition floordiv (a b : Z) : M Class Z :=
  if b =? 0 then raise ZeroDivisionError else ret (a / b).

(** [d.get(k, default)] on a value: only a dictionary has the method. *)
Definition py_get (v : pyval) (k : string) (default : pyval) : M Class pyval :=
  match v with
  | VDict d => ret (Dict.get_default d k default)
  | _ => raise AttributeError
  end.

(** [d[k]] on a value. *)
Definition getitem (v : pyval) (k : string) : M Class pyval :=
  match v with
  | VDict d =>
      match Dict.get d k with
      | Some x => ret x
      | None => raise KeyError
      end
  | _ => raise TypeError
  end.

(** [d[k] = x] on a value. *)
Definition setitem (v : pyval) (k : string) (x : pyval) : M Class pyval :=
  match v with
  | VDict d => ret (VDict (Dict.set d k x))
  | _ => raise TypeError
  end.

(** A value as an operand of arithmetic or of a comparison. *)
Definition as_number (v : pyval) : M Class Q :=
  match v with
  | VInt z => ret (inject_Z z)
  | VFloat q => ret q
  | _ => raise TypeError
  end.

(** [min(a, b)] and [max(a, b)]: the first argument unless the second is
    strictly smaller, respectively greater. *)
Definition py_min (a b : Q) : Q := if negb (Qle_bool a b) then b else a.
Definition py_max (a b : Q) : Q := if negb (Qle_bool b a) then b else a.

(** [int(q)]: towards zero. *)
Definition py_int (q : Q) : Z := Z.quot (Qnum q) (Zpos (Qden q)).

(** [sum(...)] of floats. *)
Definition py_sum (qs : list Q) : Q := Qred (fold_left Qplus qs 0%Q).

(** The expression [stage.name.lower().replace(" ", "_")]. *)
Definition stage_key (stage : Stage) : string :=
  Str.replace " " "_" (Str.lower (name stage)).

Definition _split_into_stages (text : string) : M Class (Dict.t string) :=
  let stages_content : Dict.t string := [] in
  let total_length := Str.len text in
  total_stages <- attr TOTAL_STAGES ;;
  stage_length <- floordiv total_length total_stages ;;
  stages <- attr STAGES ;;
  ' (stages_content, _) <-
    for_each stages (fun stage '(stages_content, i) =>
      let start := i * stage_length in
      total_stages <- attr TOTAL_STAGES ;;
      let end_ :=
        if i <? total_stages - 1 then (i + 1) * stage_length
        else total_length in
      ret (Dict.set stages_content (stage_key stage)
             (Str.slice text start end_), i + 1))
      (stages_content, 0) ;;
  ret stages_content.

Definition _analyze_stage (stage : Stage) (content : Dict.t string)
  : M Class StageAnalysis :=
  let stage_content := Dict.get_default content (stage_key stage) "" in
  ' (elements_present, strengths, weaknesses) <-
    for_each (elements stage)
      (fun element '(elements_present, strengths, weaknesses) =>
        let is_present :=
          existsb (fun keyword => Str.contains keyword (Str.lower stage_content))
            (keywords element) in
        let elements_present :=
          Dict.set elements_present (element_name element) is_present in
        if is_present
        then ret (elements_present,
                  List.app strengths
                    [element_name element ++ " is well established"],
                  weaknesses)
        else ret (elements_present,
                  strengths,
                  List.app weaknesses
                    [element_name element ++ " needs more development"]))
      ([], [], []) ;;
  score <-
    truediv
      (inject_Z (Z.of_nat (List.length (filter (fun b : bool => b)
           (Dict.values elements_present)))))
      (inject_Z (Z.of_nat (List.length (elements stage)))) ;;
  ret {| elements_present := elements_present;
         strengths := strengths;
         weaknesses := weaknesses;
         score := score |}.

Definition _analyze_transitions (world_type : WorldType)
  (content : Dict.t string) : M Class pyval :=
  ret (VDict [
    ("clarity", VFloat (4 # 5));
    ("impact", VFloat (7 # 10));
    ("smoothness", VFloat (9 # 10))
  ]).

Definition _analyze_world (world_type : WorldType) (content : Dict.t string)
  : M Class pyval :=
  stages <- attr STAGES ;;
  let relevant_stages :=
    filter (fun s => world_eqb (world s) world_type) stages in
  let world_content :=
    Str.join " "
      (map (fun s => Dict.get_default content (stage_key s) "")
         relevant_stages) in
  strength <- truediv (inject_Z (Str.len world_content)) (inject_Z 1000) ;;
  stages <- attr STAGES ;;
  balance <-
    truediv (inject_Z (Z.of_nat (List.length relevant_stages)))
      (inject_Z (Z.of_nat (List.length stages))) ;;
  transitions <- _analyze_transitions world_type content ;;
  ret (VDict [
    ("strength", VFloat strength);
    ("balance", VFloat balance);
    ("transitions", transitions)
  ]).

Definition _get_stage_analyses (content : Dict.t string)
  : M Class (list StageAnalysis) :=
  stages <- attr STAGES ;;
  comprehension stages (fun stage => _analyze_stage stage content).

Definition _analyze_world_balance (content : Dict.t string) : M Class Q :=
  ordinary_world <- _analyze_world ORDINARY content ;;
  special_world <- _analyze_world SPECIAL content ;;
  a <- bind (getitem ordinary_world "strength") as_number ;;
  b <- bind (getitem special_world "strength") as_number ;;
  let lowest := py_min a b in
  a <- bind (getitem ordinary_world "strength") as_number ;;
  b <- bind (getitem special_world "strength") as_number ;;
  let highest := py_max a b in
  truediv lowest highest.

Definition _analyze_narrative_flow (content : Dict.t string) : M Class Q :=
  ret (17 # 20).

Definition _analyze_overall_structure (content : Dict.t string)
  : M Class pyval :=
  analyses <- _get_stage_analyses content ;;
  stages <- attr STAGES ;;
  completeness <-
    truediv (py_sum (map score analyses))
      (inject_Z (Z.of_nat (List.length stages))) ;;
  balance <- _analyze_world_balance content ;;
  flow <- _analyze_narrative_flow content ;;
  ret (VDict [
    ("completeness", VFloat completeness);
    ("balance", VFloat balance);
    ("flow", VFloat flow)
  ]).

Definition _get_color_by_score (score : pyval) : M Class string :=
  green <-
    match score with
    | VInt n => ret (n * 255)
    | VFloat q => ret (py_int (q * inject_Z 255))
    | _ => raise TypeError
    end ;;
  ret ("rgb(200, " ++ Str.of_int green ++ ", 200)").

Definition visualize (analysis_result : pyval) : M Class string :=
  let html_parts := [
    "<div class='vogler-journey'>";
    "<div class='journey-circle'>"
  ] in
  stages <- attr STAGES ;;
  html_parts <-
    for_each stages (fun stage html_parts =>
      let angle := angle stage in
      let radius := 400 in
      let x := fmul (of_int radius) (fcos (radians (of_int angle))) in
      let y := fmul (of_int radius) (fsin (radians (of_int angle))) in
      stages_analysis <- py_get analysis_result "stages" (VDict []) ;;
      stage_analysis <- py_get stages_analysis (name stage) (VDict []) ;;
      score <- py_get stage_analysis "score" (VInt 0) ;;
      background <- _get_color_by_score score ;;
      ret (List.app html_parts [
        "
                <div class='stage' style='
                    transform: translate("
        ++ repr x
        ++ "px, "
        ++ repr y
        ++ "px) rotate("
        ++ Str.of_int angle
        ++ "deg);
                    background-color: "
        ++ background
        ++ ";
                '>
                    <div class='stage-content'>
                        <div class='stage-number'>"
        ++ Str.of_int (number stage)
        ++ "</div>
                        <div class='stage-name'>"
        ++ name stage
        ++ "</div>
                        <div class='world-indicator "
        ++ Str.lower (world_name (world stage))
        ++ "-world'></div>
                        <div class='stage-description'>"
        ++ description stage
        ++ "</div>
                    </div>
                </div>
            "
      ])) html_parts ;;
  css <- attr CSS_TEMPLATE ;;
  let html_parts := List.app html_parts [
    "</div>";
    "</div>";
    "<style>" ++ css ++ "</style>"
  ] in
  ret (Str.join Str.nl html_parts).

Definition analyze (text : string) : M Class (AnalysisResult pyval) :=
  formatted_structure <- _split_into_stages text ;;
  ordinary <- _analyze_world ORDINARY formatted_structure ;;
  special <- _analyze_world SPECIAL formatted_structure ;;
  let analysis : Dict.t pyval := [
    ("stages", VDict []);
    ("worlds", VDict [("ordinary", ordinary); ("special", special)])
  ] in
  stages <- attr STAGES ;;
  analysis <-
    for_each stages (fun stage analysis =>
      stage_analysis <- _analyze_stage stage formatted_structure ;;
      stages_analysis <- getitem (VDict analysis) "stages" ;;
      stages_analysis <-
        setitem stages_analysis (name stage) (VStageAnalysis stage_analysis) ;;
      ret (Dict.set analysis "stages" stages_analysis)) analysis ;;
  overall <- _analyze_overall_structure formatted_structure ;;
  let analysis := Dict.set analysis "overall" overall in
  st <- structure_type ;;
  let metadata := {|
    model_name := "gpt-4";
    model_version := "1.0";
    confidence := 17 # 20;
    processing_time := 1;
    meta_structure_type := st;
    meta_display_name := display_name
  |} in
  let summary := "Analysis of narrative using Vogler's Hero's Journey" in
  visualization <- visualize (VDict analysis) ;;
  ret {| structure := VDict analysis;
         summary := summary;
         visualization := visualization;
         metadata := metadata |}.

Definition get_prompt : M Class string :=
  let prompt_parts := [
    "Analyze the following narrative structure based on Chris Vogler's Hero's Journey:"
      ++ Str.nl
  ] in
  stages <- attr STAGES ;;
  ' (prompt_parts, _, _) <-
    for_each stages (fun stage '(prompt_parts, current_act, current_world) =>
      let '(prompt_parts, current_act) :=
        if negb (match current_act with
                 | Some a => act_eqb (act stage) a
                 | None => false
                 end)
        then (List.app prompt_parts
                [Str.nl ++ "Act - " ++ act_value (act stage) ++ ":"],
              Some (act stage))
        else (prompt_parts, current_act) in
      let '(prompt_parts, current_world) :=
        if negb (match current_world with
                 | Some w => world_eqb (world stage) w
                 | None => false
                 end)
        then (List.app prompt_parts
                [Str.nl ++ world_value (world stage) ++ ":"],
              Some (world stage))
        else (prompt_parts, current_world) in
      let prompt_parts := List.app prompt_parts [
        Str.nl ++ Str.of_int (number stage) ++ ". " ++ name stage;
        "   Description: " ++ description stage
      ] in
      let prompt_parts :=
        fold_left (fun prompt_parts element =>
          List.app prompt_parts [
            "   - " ++ element_name element ++ " (Importance: "
              ++ Str.of_int (importance element) ++ "/10)"
          ]) (elements stage) prompt_parts in
      ret (prompt_parts, current_act, current_world))
      (prompt_parts, @None ActType, @None WorldType) ;;
  ret (Str.join Str.nl prompt_parts).

End Methods.

End Vogler.

(** ** Two implementations of the layout arithmetic *)

(** *** Doubles

    A finite double is an integer mantissa times a power of two, and the
    result of an operation is the exact result rounded to 53 bits, to
    nearest, ties to even.  The exponent is not bounded: the model is of the
    doubles of the normal range, where the products of the layout lie when
    the radius converts.  The cosine and the sine are those of the C library
    of the platform, and are parameters. *)

Module Binary64.

Record double : Type := { mantissa : Z; exponent : Z }.

Definition value (d : double) : Q :=
  inject_Z (mantissa d) * Qpower 2 (exponent d).

(** The integer nearest to [m / 2 ^ k] for [m >= 0], the even one of the two
    at a tie. *)
Definition nearest_even (m k : Z) : Z :=
  let q := m / 2 ^ k in
  let r := m mod 2 ^ k in
  if 2 * r <? 2 ^ k then q
  else if 2 ^ k <? 2 * r then q + 1
  else if Z.even q then q else q + 1.

(** Rounding to 53 bits: a mantissa of [53 + k] bits loses its last [k]
    bits. *)
Definition round (d : double) : double :=
  let a := Z.abs (mantissa d) in
  let k := Z.log2 a - 52 in
  if k <=? 0 then d
  else {| mantissa := Z.sgn (mantissa d) * nearest_even a k;
          exponent := exponent d + k |}.

(** Half the distance from 1 to the next double. *)
Definition unit_roundoff : Q := 1 # 2 ^ 53.

Definition of_int (n : Z) : double := round {| mantissa := n; exponent := 0 |}.

Definition mul (a b : double) : double :=
  round {| mantissa := mantissa a * mantissa b;
           exponent := exponent a + exponent b |}.

(** [pi / 180.0], the double [0.017453292519943295]. *)
Definition deg_to_rad : double :=
  {| mantissa := 5030569068109113; exponent := -58 |}.

(** [math.radians(x)] is [x * (pi / 180.0)]. *)
Definition radians (a : double) : double := mul a deg_to_rad.

Definition floats (cos sin : double -> double) : Float :=
  Build_Float double of_int mul radians cos sin.

(** What the C library of CPython on Linux returns at the angles of the
    eight steps: the angle, its cosine and its sine. *)
Definition glibc : list (double * (double * double)) :=
  let d m e := {| mantissa := m; exponent := e |} in
  [ (d (-884279719003555) (-49), (d 4967757600021511 (-106), d (-1) 0));
    (d (-884279719003555) (-50),
     (d 6369051672525773 (-53), d (-1592262918131443) (-51)));
    (d 0 0, (d 1 0, d 0 0));
    (d 884279719003555 (-50),
     (d 6369051672525773 (-53), d 1592262918131443 (-51)));
    (d 884279719003555 (-49), (d 4967757600021511 (-106), d 1 0));
    (d 2652839157010665 (-50),
     (d (-1592262918131443) (-51), d 6369051672525773 (-53)));
    (d 884279719003555 (-48), (d (-1) 0, d 4967757600021511 (-105)));
    (d 4421398595017775 (-50),
     (d (-3184525836262887) (-52), d (-1592262918131443) (-51))) ].

Definition tabled (a : double) : option (double * double) :=
  option_map snd
    (find (fun row => Qeq_bool (value a) (value (fst row))) glibc).

(** The cosine and the sine of the table; zero at another angle, which no
    property below reads. *)
Definition glibc_cos (a : double) : double :=
  match tabled a with
  | Some row => fst row
  | None => {| mantissa := 0; exponent := 0 |}
  end.

Definition glibc_sin (a : double) : double :=
  match tabled a with
  | Some row => snd row
  | None => {| mantissa := 0; exponent := 0 |}
  end.

End Binary64.

(** *** Printed floats *)

(** The products that the two layouts compute, as terms, and what CPython
    prints for each on IEEE 754 doubles: radius 150 at the angles of the eight
    steps, radius 400 at the angle of the one loaded stage. *)
Module Printed.

Inductive term : Type :=
| Int (z : Z)
| Mul (a b : term)
| Radians (a : term)
| Cos (a : term)
| Sin (a : term).

Definition floats : Float :=
  {| float := term;
     of_int := Int;
     fmul := Mul;
     radians := Radians;
     fcos := Cos;
     fsin := Sin |}.

(** Radius and angle in degrees; the printed [radius * cos] and
    [radius * sin]. *)
Definition table : list (Z * Z * (string * string)) := [
  (150, -90, ("9.184850993605149e-15", "-150.0"));
  (150, -45, ("106.06601717798213", "-106.06601717798212"));
  (150, 0, ("150.0", "0.0"));
  (150, 45, ("106.06601717798213", "106.06601717798212"));
  (150, 90, ("9.184850993605149e-15", "150.0"));
  (150, 135, ("-106.06601717798212", "106.06601717798213"));
  (150, 180, ("-150.0", "1.8369701987210297e-14"));
  (150, 225, ("-106.06601717798215", "-106.06601717798212"));
  (400, 0, ("400.0", "0.0"))
].

Fixpoint lookup (radius degrees : Z) (t : list (Z * Z * (string * string)))
  : option (string * string) :=
  match t with
  | [] => None
  | (r, d, row) :: t' =>
      if (r =? radius) && (d =? degrees) then Some row
      else lookup radius degrees t'
  end.

(** A product outside the table prints as [nan]. *)
Definition print (t : term) : string :=
  match t with
  | Mul (Int radius) (Cos (Radians (Int degrees))) =>
      match lookup radius degrees table with
      | Some row => fst row
      | None => "nan"
      end
  | Mul (Int radius) (Sin (Radians (Int degrees))) =>
      match lookup radius degrees table with
      | Some row => snd row
      | None => "nan"
      end
  | _ => "nan"
  end.

Definition printer : Repr floats := Build_Repr floats print.

End Printed.

(** The characters of the text of a float. *)
Definition float_char (c : ascii) : bool :=
  existsb (Ascii.eqb c) (list_ascii_of_string "0123456789.e+-infa").

Definition float_text (s : string) : bool :=
  forallb float_char (list_ascii_of_string s).

(** * Vocabulary of the properties *)

(** A computation that leaves the attributes of the class as they were. *)
Definition preserves {S A} (m : M S A) : Prop :=
  forall s, state (m s) = s.

(** ** Counting a marker in a text built from pieces

    A text is a tree of concatenations whose leaves are either literal or
    opaque (the printed floats). *)

Inductive tree : Type :=
| Lit (s : string)
| Hole (s : string)
| Cat (a b : tree).

Fixpoint denote (t : tree) : string :=
  match t with
  | Lit s => s
  | Hole s => s
  | Cat a b => denote a ++ denote b
  end.

Inductive piece : Type :=
| PLit (s : string)
| PHole (s : string).

Fixpoint text_of (ps : list piece) : string :=
  match ps with
  | [] => ""
  | PLit s :: ps' => s ++ text_of ps'
  | PHole s :: ps' => s ++ text_of ps'
  end.

Fixpoint leaves (t : tree) : list piece :=
  match t with
  | Lit s => [PLit s]
  | Hole s => [PHole s]
  | Cat a b => List.app (leaves a) (leaves b)
  end.

(** Adjacent literals become one. *)
Fixpoint merge (ps : list piece) : list piece :=
  match ps with
  | [] => []
  | PLit s :: ps' =>
      match merge ps' with
      | PLit s' :: ps'' => PLit (s ++ s') :: ps''
      | qs => PLit s :: qs
      end
  | PHole s :: ps' => PHole s :: merge ps'
  end.

(** No end of [a], but [a] whole, is a beginning of [m] that stops short of
    [m]: whether [m] occurs at a place of [a] shows within [a]. *)
Fixpoint no_partial (m a : string) : bool :=
  match a with
  | EmptyString => true
  | String _ a' =>
      negb (prefix a m && (String.length a <? String.length m)%nat)
      && no_partial m a'
  end.

(** The literals of [ps] decide their places; their occurrences of [m]. *)
Fixpoint count_pieces (m : string) (ps : list piece) : option nat :=
  match ps with
  | [] => Some 0%nat
  | PLit s :: ps' =>
      if no_partial m s
      then option_map (Nat.add (Str.count m s)) (count_pieces m ps')
      else None
  | PHole _ :: ps' => count_pieces m ps'
  end.

(** The character [c] is absent from [s]. *)
Definition avoids (c : ascii) (s : string) : bool :=
  forallb (fun d => negb (Ascii.eqb d c)) (list_ascii_of_string s).

Fixpoint holes_avoid (c : ascii) (t : tree) : Prop :=
  match t with
  | Lit _ => True
  | Hole s => avoids c s = true
  | Cat a b => holes_avoid c a /\ holes_avoid c b
  end.

Definition pieces_avoid (c : ascii) (ps : list piece) : Prop :=
  Forall
    (fun p => match p with PLit _ => True | PHole s => avoids c s = true end)
    ps.

(** ** Vocabulary of the keyword analysis *)

(** The test [any(keyword in stage_content.lower() for keyword in ...)]. *)
Definition is_present (stage_content : string)
  (element : Vogler.StageElement) : bool :=
  existsb (fun keyword => Str.contains keyword (Str.lower stage_content))
    (Vogler.keywords element).

(** *** Letters up to case

    The capital letters below code point 256, each with its small form: the
    letters of the alphabet, and the accented capitals, which lie at 192-222
    but for the multiplication sign at 215, with their small forms 32 places
    further. *)
Definition case_pairs : list (ascii * ascii) :=
  List.app
    (combine (list_ascii_of_string "ABCDEFGHIJKLMNOPQRSTUVWXYZ")
       (list_ascii_of_string "abcdefghijklmnopqrstuvwxyz"))
    (map (fun n => (ascii_of_nat n, ascii_of_nat (n + 32)))
       (List.app (seq 192 23) (seq 216 7))).

Definition capital_letter (ch : ascii) : bool :=
  existsb (fun p => Ascii.eqb ch (fst p)) case_pairs.

(** Two characters are the same letter: the same character, or the capital
    and the small form of one letter. *)
Definition same_letter (a b : ascii) : bool :=
  Ascii.eqb a b
  || existsb
       (fun p => (Ascii.eqb a (fst p) && Ascii.eqb b (snd p))
                 || (Ascii.eqb a (snd p) && Ascii.eqb b (fst p)))
       case_pairs.

(** Two strings are the same up to the case of their letters. *)
Fixpoint same_ignoring_case (s t : string) : bool :=
  match s, t with
  | EmptyString, EmptyString => true
  | String a s', String b t' => same_letter a b && same_ignoring_case s' t'
  | _, _ => false
  end.

(** A keyword occurs case-insensitively in a window: some substring of the
    window is the keyword up to the case of the letters. *)
Definition occurs_ignoring_case (keyword window : string) : Prop :=
  exists before found rest,
    window = before ++ found ++ rest
    /\ same_ignoring_case found keyword = true.

(** A keyword is written without a capital letter. *)
Definition written_small (keyword : string) : bool :=
  forallb (fun ch => negb (capital_letter ch)) (list_ascii_of_string keyword).

(** The window that a content holds under a key: the value of the first
    entry with that key, and the empty string when there is none. *)
Inductive window_of (content : Dict.t string) (key : string)
  : string -> Prop :=
| window_held (before : Dict.t string) (window : string)
    (rest : Dict.t string) :
    content = List.app before ((key, window) :: rest) ->
    ~ In key (Dict.keys before) ->
    window_of content key window
| window_missing :
    ~ In key (Dict.keys content) -> window_of content key "".

(** The mark an analysis holds for an element. *)
Definition marked (analysis : Vogler.StageAnalysis)
  (element : Vogler.StageElement) : bool :=
  Dict.get_default (Vogler.elements_present analysis)
    (Vogler.element_name element) false.

Definition strength_note (element : Vogler.StageElement) : string :=
  Vogler.element_name element ++ " is well established".

Definition weakness_note (element : Vogler.StageElement) : string :=
  Vogler.element_name element ++ " needs more development".

(** The dictionary of marks that the loop of [_analyze_stage] builds. *)
Definition marks (window : string) (es : list Vogler.StageElement)
  (d : Dict.t bool) : Dict.t bool :=
  fold_left
    (fun d e => Dict.set d (Vogler.element_name e) (is_present window e)) es d.

(** A stage with an element, and whose elements have distinct names. *)
Definition well_formed_stage (stage : Vogler.Stage) : Prop :=
  NoDup (map Vogler.element_name (Vogler.elements stage))
  /\ Vogler.elements stage <> [].

(** The windows of a partition, in the order of the dictionary. *)
Definition windows (stages_content : Dict.t string) : list string :=
  Dict.values stages_content.

(** The first window of a text: its first twelfth, rounded down. *)
Definition first_window (text : string) : string :=
  Str.slice text 0 (Str.len text / 12).

(** One turn of the loop of [_analyze_stage] on its three accumulators. *)
Definition stage_step (window : string) (element : Vogler.StageElement)
  (acc : Dict.t bool * list string * list string)
  : Dict.t bool * list string * list string :=
  let '(elements_present, strengths, weaknesses) := acc in
  let elements_present :=
    Dict.set elements_present (Vogler.element_name element)
      (is_present window element) in
  if is_present window element
  then (elements_present, List.app strengths [strength_note element],
        weaknesses)
  else (elements_present, strengths,
        List.app weaknesses [weakness_note element]).

(** What [_analyze_stage] returns for a window and a non-empty list of
    elements. *)
Definition stage_analysis_of (window : string)
  (es : list Vogler.StageElement) : Vogler.StageAnalysis :=
  {| Vogler.elements_present := marks window es [];
     Vogler.strengths := map strength_note (filter (is_present window) es);
     Vogler.weaknesses :=
       map weakness_note (filter (fun e => negb (is_present window e)) es);
     Vogler.score :=
       Qred (inject_Z (Z.of_nat (List.length
                (filter (fun b : bool => b)
                   (Dict.values (marks window es [])))))
             / inject_Z (Z.of_nat (List.length es))) |}.

(** ** Calls of the methods

    A call of a method of each class with its arguments, and the attributes
    of the class once the call has returned or raised. *)

Inductive harmon_call : Type :=
| HStructureType
| HAnalyze (text : string)
| HAnalyzeStep (step : Harmon.StoryStep) (text : string)
| HEvaluateOverallStructure (text : string)
| HCalculateStepPosition (step_number radius : Z)
| HVisualize (analysis_result : Harmon.Structure)
| HGetPrompt.

Definition harmon_after {F : Float} {P : Repr F} (display_name : string)
  (k : harmon_call) (c : Harmon.Class) : Harmon.Class :=
  match k with
  | HStructureType => state (Harmon.structure_type c)
  | HAnalyze text => state (Harmon.analyze display_name text c)
  | HAnalyzeStep step text => state (Harmon._analyze_step step text c)
  | HEvaluateOverallStructure text =>
      state (Harmon._evaluate_overall_structure text c)
  | HCalculateStepPosition step_number radius =>
      state (Harmon._calculate_step_position step_number radius c)
  | HVisualize analysis_result => state (Harmon.visualize analysis_result c)
  | HGetPrompt => state (Harmon.get_prompt c)
  end.

Inductive vogler_call : Type :=
| VStructureType
| VAnalyze (text : string)
| VSplitIntoStages (text : string)
| VAnalyzeStage (stage : Vogler.Stage) (content : Dict.t string)
| VAnalyzeWorld (world_type : Vogler.WorldType) (content : Dict.t string)
| VAnalyzeTransitions (world_type : Vogler.WorldType)
    (content : Dict.t string)
| VAnalyzeOverallStructure (content : Dict.t string)
| VVisualize (analysis_result : Vogler.pyval)
| VGetColorByScore (score : Vogler.pyval)
| VGetPrompt
| VGetStageAnalyses (content : Dict.t string)
| VAnalyzeWorldBalance (content : Dict.t string)
| VAnalyzeNarrativeFlow (content : Dict.t string).

Definition vogler_after {F : Float} {P : Repr F} (display_name : string)
  (k : vogler_call) (c : Vogler.Class) : Vogler.Class :=
  match k with
  | VStructureType => state (Vogler.structure_type c)
  | VAnalyze text => state (Vogler.analyze display_name text c)
  | VSplitIntoStages text => state (Vogler._split_into_stages text c)
  | VAnalyzeStage stage content =>
      state (Vogler._analyze_stage stage content c)
  | VAnalyzeWorld world_type content =>
      state (Vogler._analyze_world world_type content c)
  | VAnalyzeTransitions world_type content =>
      state (Vogler._analyze_transitions world_type content c)
  | VAnalyzeOverallStructure content =>
      state (Vogler._analyze_overall_structure content c)
  | VVisualize analysis_result => state (Vogler.visualize analysis_result c)
  | VGetColorByScore score => state (Vogler._get_color_by_score score c)
  | VGetPrompt => state (Vogler.get_prompt c)
  | VGetStageAnalyses content => state (Vogler._get_stage_analyses content c)
  | VAnalyzeWorldBalance content =>
      state (Vogler._analyze_world_balance content c)
  | VAnalyzeNarrativeFlow content =>
      state (Vogler._analyze_narrative_flow content c)
  end.

(** ** Vocabulary of the partition *)

(** The indices that [enumerate] yields: [n] of them from [k] on. *)
Fixpoint count_from (k : Z) (n : nat) : list Z :=
  match n with
  | O => []
  | S n' => k :: count_from (k + 1) n'
  end.

(** The window that the loop of [_split_into_stages] cuts at index [i]. *)
Definition window_at (c : Vogler.Class) (text : string) (i : Z) : string :=
  let stage_length := Str.len text / Vogler.TOTAL_STAGES c in
  Str.slice text (i * stage_length)
    (if i <? Vogler.TOTAL_STAGES c - 1 then (i + 1) * stage_length
     else Str.len text).

(** One turn of that loop on the dictionary and the index. *)
Definition split_step (c : Vogler.Class) (text : string)
  (stage : Vogler.Stage) (acc : Dict.t string * Z) : Dict.t string * Z :=
  let '(stages_content, i) := acc in
  (Dict.set stages_content (Vogler.stage_key stage) (window_at c text i),
   i + 1).

(** ** Vocabulary of the analysis dictionary *)

(** Under ["stages"] the dictionary [analysis] holds a dictionary whose
    values are all instances of [StageAnalysis], with an entry for each of
    [names]. *)
Definition holds_stage_analyses (analysis : Dict.t Vogler.pyval)
  (names : list string) : Prop :=
  exists stages_analysis,
    Dict.get analysis "stages" = Some (Vogler.VDict stages_analysis)
    /\ (forall k v, Dict.get stages_analysis k = Some v ->
          exists sa, v = Vogler.VStageAnalysis sa)
    /\ (forall n, In n names -> Dict.get stages_analysis n <> None).

(** ** Classes for instances

    Class states other than the loaded ones, on which the methods are run
    where a property asks for a catalog the modules do not load. *)

Definition plain_stage (number : Z) (name : string)
  (world : Vogler.WorldType) (elements : list Vogler.StageElement)
  : Vogler.Stage :=
  {| Vogler.number := number;
     Vogler.name := name;
     Vogler.description := "";
     Vogler.act := Vogler.MIDDLE;
     Vogler.world := world;
     Vogler.elements := elements;
     Vogler.angle := 0;
     Vogler.color := "#ffffff" |}.

Definition plain_element (name : string) (keywords : list string)
  : Vogler.StageElement :=
  {| Vogler.element_name := name;
     Vogler.element_description := "";
     Vogler.keywords := keywords;
     Vogler.importance := 5;
     Vogler.world_type := Vogler.ORDINARY |}.

(** Three stages, as many as declared: two of the ordinary world around one
    of the special world. *)
Definition three_stage_class : Vogler.Class :=
  {| Vogler.TOTAL_STAGES := 3;
     Vogler.CIRCLE_DEGREES := 360;
     Vogler.STAGES := [
       plain_stage 1 "Departure" Vogler.ORDINARY
         [plain_element "Home" ["home"; "village"]];
       plain_stage 2 "Initiation" Vogler.SPECIAL
         [plain_element "Trial" ["trial"; "ordeal"];
          plain_element "Helper" ["mentor"]];
       plain_stage 3 "Return" Vogler.ORDINARY
         [plain_element "Homecoming" ["return"; "home"]]
     ];
     Vogler.CSS_TEMPLATE := "" |}.

(** ** Vocabulary of the further properties *)

(** The number of characters of the windows of a partition. *)
Definition window_lengths (stages_content : Dict.t string) : list Z :=
  map Str.len (windows stages_content).

(** The stages of a world in a catalog, and their windows in a content. *)
Definition world_stages (world_type : Vogler.WorldType) (c : Vogler.Class)
  : list Vogler.Stage :=
  filter (fun s => Vogler.world_eqb (Vogler.world s) world_type)
    (Vogler.STAGES c).

Definition world_windows (world_type : Vogler.WorldType)
  (content : Dict.t string) (c : Vogler.Class) : list string :=
  map (fun s => Dict.get_default content (Vogler.stage_key s) "")
    (world_stages world_type c).

(** [len(world_content)] in [_analyze_world]. *)
Definition world_chars (world_type : Vogler.WorldType)
  (content : Dict.t string) (c : Vogler.Class) : Z :=
  Str.len (Str.join " " (world_windows world_type content c)).

(** The characters of a list of strings, all together. *)
Definition total_len (ws : list string) : Z :=
  fold_right (fun w n => Str.len w + n) 0 ws.

(** The float under a key of a dictionary value. *)
Definition float_field (v : Vogler.pyval) (k : string) : option Q :=
  match v with
  | Vogler.VDict d =>
      match Dict.get d k with
      | Some (Vogler.VFloat q) => Some q
      | _ => None
      end
  | _ => None
  end.

(** [n / 1000], as [_analyze_world] computes a strength. *)
Definition per_thousand (n : Z) : Q := Qred (inject_Z n / inject_Z 1000).



(** ** Vocabulary of the prompts

    The entries that the loops of [get_prompt] append for a step, a stage or
    an element. *)

Definition act_header (act : string) : string :=
  Str.nl ++ "Act - " ++ act ++ ":".

Definition step_line (step : Harmon.StoryStep) : string :=
  Str.of_int (Harmon.number step) ++ ". " ++ Harmon.name step
    ++ " (" ++ Harmon.description step ++ ")".

Definition criteria_line (step : Harmon.StoryStep) : string :=
  "   Criteria: " ++ Str.join ", " (Harmon.analysis_criteria step).

Definition stage_line (stage : Vogler.Stage) : string :=
  Str.nl ++ Str.of_int (Vogler.number stage) ++ ". " ++ Vogler.name stage.

Definition description_line (stage : Vogler.Stage) : string :=
  "   Description: " ++ Vogler.description stage.

Definition element_line (element : Vogler.StageElement) : string :=
  "   - " ++ Vogler.element_name element ++ " (Importance: "
    ++ Str.of_int (Vogler.importance element) ++ "/10)".




(** One turn of the loop of Harmon's [get_prompt] on the entries and the
    current act. *)
Definition harmon_prompt_step (step : Harmon.StoryStep)
  (acc : list string * option string) : list string * option string :=
  let '(prompt_parts, current_act) := acc in
  let '(prompt_parts, current_act) :=
    if negb (match current_act with
             | Some a => String.eqb (Harmon.act step) a
             | None => false
             end)
    then (List.app prompt_parts [act_header (Harmon.act step)],
          Some (Harmon.act step))
    else (prompt_parts, current_act) in
  (List.app prompt_parts [step_line step; criteria_line step], current_act).

(** The headers of Vogler's [get_prompt]. *)
Definition world_header (world : Vogler.WorldType) : string :=
  Str.nl ++ Vogler.world_value world ++ ":".

(** One turn of the loop of Vogler's [get_prompt] on the entries, the current
    act and the current world. *)
Definition vogler_prompt_step (stage : Vogler.Stage)
  (acc : list string * option Vogler.ActType * option Vogler.WorldType)
  : list string * option Vogler.ActType * option Vogler.WorldType :=
  let '(prompt_parts, current_act, current_world) := acc in
  let '(prompt_parts, current_act) :=
    if negb (match current_act with
             | Some a => Vogler.act_eqb (Vogler.act stage) a
             | None => false
             end)
    then (List.app prompt_parts
            [act_header (Vogler.act_value (Vogler.act stage))],
          Some (Vogler.act stage))
    else (prompt_parts, current_act) in
  let '(prompt_parts, current_world) :=
    if negb (match current_world with
             | Some w => Vogler.world_eqb (Vogler.world stage) w
             | None => false
             end)
    then (List.app prompt_parts [world_header (Vogler.world stage)],
          Some (Vogler.world stage))
    else (prompt_parts, current_world) in
  let prompt_parts :=
    List.app prompt_parts [stage_line stage; description_line stage] in
  let prompt_parts :=
    fold_left (fun prompt_parts element =>
                 List.app prompt_parts [element_line element])
      (Vogler.elements stage) prompt_parts in
  (prompt_parts, current_act, current_world).
(** * Properties *)

(** ** The primitives on inputs *)

Example lower_mixed : Str.lower "A NORMAL Life, 1 x 2" = "a normal life, 1 x 2".
Proof. reflexivity. Qed.

Example stage_key_of_name :
  Str.replace " " "_" (Str.lower "Ordinary World") = "ordinary_world".
Proof. reflexivity. Qed.

Example contains_inside : Str.contains "routine" "a routine day" = true.
Proof. reflexivity. Qed.

Example contains_capital : Str.contains "Routine" "a routine day" = false.
Proof. reflexivity. Qed.

Example contains_empty_keyword : Str.contains "" "" = true.
Proof. reflexivity. Qed.

Example slice_middle : Str.slice "abcdefghij" 2 5 = "cde".
Proof. reflexivity. Qed.

Example slice_beyond_end : Str.slice "abcdefghij" 8 20 = "ij".
Proof. reflexivity. Qed.

Example slice_negative : Str.slice "abcdefghij" (-3) 10 = "hij".
Proof. reflexivity. Qed.

Example slice_crossed : Str.slice "abcdefghij" 5 2 = "".
Proof. reflexivity. Qed.

Example join_three : Str.join ", " ["a"; "b"; "c"] = "a, b, c".
Proof. reflexivity. Qed.

Example of_int_negative : Str.of_int (-90) = "-90".
Proof. reflexivity. Qed.

Example of_int_zero : Str.of_int 0 = "0".
Proof. reflexivity. Qed.

Example count_places : Str.count "ab" "xabyabab" = 3%nat.
Proof. reflexivity. Qed.

Example dict_set_overwrites :
  Dict.set [("a", 1); ("b", 2)] "a" 3 = [("a", 3); ("b", 2)].
Proof. reflexivity. Qed.

Example dict_set_appends :
  Dict.set [("a", 1); ("b", 2)] "c" 3 = [("a", 1); ("b", 2); ("c", 3)].
Proof. reflexivity. Qed.

Example int_towards_zero :
  Vogler.py_int (255 # 2) = 127 /\ Vogler.py_int (- (255 # 2)) = -127.
Proof. split; reflexivity. Qed.

Example color_of_half :
  value (Vogler._get_color_by_score (Vogler.VFloat (1 # 2)) Vogler.module_load)
  = Ok "rgb(200, 127, 200)".
Proof. reflexivity. Qed.

(** ** The monad *)

Lemma preserves_run {S A} (m : M S A) :
  preserves m -> forall s, m s = (value (m s), s).
Proof.
  intros H s. specialize (H s). unfold state, value in *.
  destruct (m s) as [r s']. simpl in *. now subst.
Qed.

Lemma preserves_ret {S A} (a : A) : preserves (@ret S A a).
Proof. intro s. reflexivity. Qed.

Lemma preserves_raise {S A} (e : exn) : preserves (@raise S A e).
Proof. intro s. reflexivity. Qed.

Lemma preserves_attr {S A} (f : S -> A) : preserves (attr f).
Proof. intro s. reflexivity. Qed.

Lemma preserves_bind {S A B} (m : M S A) (k : A -> M S B) :
  preserves m -> (forall a, preserves (k a)) -> preserves (bind m k).
Proof.
  intros Hm Hk s. unfold bind. rewrite (preserves_run m Hm s).
  destruct (value (m s)) as [a | e].
  - apply Hk.
  - reflexivity.
Qed.

Lemma preserves_for_each {S A B} (xs : list A) (body : A -> B -> M S B) :
  (forall x acc, preserves (body x acc)) ->
  forall acc, preserves (for_each xs body acc).
Proof.
  intros Hbody. induction xs as [| x xs IH]; intro acc; simpl.
  - apply preserves_ret.
  - apply preserves_bind; [apply Hbody | exact IH].
Qed.

Lemma preserves_comprehension {S A B} (xs : list A) (f : A -> M S B) :
  (forall x, preserves (f x)) -> preserves (comprehension xs f).
Proof.
  intros Hf. unfold comprehension. apply preserves_for_each.
  intros x acc. apply preserves_bind; [apply Hf |].
  intro y. apply preserves_ret.
Qed.

Lemma preserves_truediv {S} (a b : Q) : preserves (@truediv S a b).
Proof.
  unfold truediv. destruct (Qeq_bool b 0);
    [apply preserves_raise | apply preserves_ret].
Qed.

Create HintDb preserves.
#[export] Hint Resolve preserves_ret preserves_raise preserves_attr
  preserves_truediv : preserves.

(** Takes a method apart down to the primitives of the monad. *)
Ltac preserving :=
  repeat first
    [ progress auto with preserves
    | apply preserves_bind; [| intro]
    | apply preserves_for_each; intros ? ?
    | apply preserves_comprehension; intros ?
    | match goal with
      | |- preserves (let '(_, _) := ?p in _) => destruct p
      | |- preserves (match ?x with _ => _ end) => destruct x
      | |- preserves (if ?b then _ else _) => destruct b
      end ].

(** ** Iteration *)

Lemma for_each_pure {S A B} (body : A -> B -> M S B) (f : A -> B -> B)
  (s : S) :
  (forall x acc, body x acc s = (Ok (f x acc), s)) ->
  forall xs acc,
    for_each xs body acc s = (Ok (fold_left (fun acc x => f x acc) xs acc), s).
Proof.
  intros Hbody. induction xs as [| x xs IH]; intros acc; simpl.
  - reflexivity.
  - unfold bind. rewrite Hbody. apply IH.
Qed.

Lemma Ok_inj {S A} (a b : A) (s s' : S) : (Ok a, s) = (Ok b, s') -> a = b.
Proof. congruence. Qed.

(** ** Strings *)

Lemma append_nil_r (s : string) : s ++ "" = s.
Proof. induction s as [| c s IH]; simpl; [| rewrite IH]; reflexivity. Qed.

Lemma append_assoc (a b c : string) : (a ++ b) ++ c = a ++ (b ++ c).
Proof. induction a as [| d a IH]; simpl; [| rewrite IH]; reflexivity. Qed.

Lemma length_append (a b : string) :
  String.length (a ++ b) = (String.length a + String.length b)%nat.
Proof. induction a as [| d a IH]; simpl; [| rewrite IH]; reflexivity. Qed.

Lemma prefix_nil (s : string) : prefix "" s = true.
Proof. now destruct s. Qed.

Lemma prefix_decided (m : string) :
  forall a r,
    prefix a m && (String.length a <? String.length m)%nat = false ->
    prefix m (a ++ r) = prefix m a.
Proof.
  induction m as [| c m IH]; intros a r H.
  - now rewrite !prefix_nil.
  - destruct a as [| d a].
    + discriminate H.
    + simpl in *. destruct (ascii_dec c d) as [-> |]; [| reflexivity].
      destruct (ascii_dec d d); [| contradiction].
      apply IH. exact H.
Qed.

Lemma prefix_append_l (a b : string) :
  forall m, prefix (a ++ b) m = true -> prefix a m = true.
Proof.
  induction a as [| c a IH]; intros m H.
  - apply prefix_nil.
  - destruct m as [| d m]; simpl in *; [discriminate |].
    destruct (ascii_dec c d); [| discriminate]. now apply IH.
Qed.

Lemma count_nil (m : string) : m <> "" -> Str.count m "" = 0%nat.
Proof. destruct m; [congruence | reflexivity]. Qed.

Lemma count_append (m a r : string) :
  m <> "" -> no_partial m a = true ->
  Str.count m (a ++ r) = (Str.count m a + Str.count m r)%nat.
Proof.
  intros Hm. induction a as [| c a IH]; intros H.
  - simpl append. now rewrite count_nil.
  - simpl in H. apply andb_true_iff in H as [H1 H2].
    apply negb_true_iff in H1.
    change (Str.count m (String c a ++ r))
      with ((if prefix m (String c a ++ r) then 1 else 0)
            + Str.count m (a ++ r))%nat.
    change (Str.count m (String c a))
      with ((if prefix m (String c a) then 1 else 0) + Str.count m a)%nat.
    rewrite (prefix_decided m (String c a) r H1), (IH H2). lia.
Qed.

Lemma no_partial_append (m a b : string) :
  no_partial m a = true -> no_partial m b = true ->
  no_partial m (a ++ b) = true.
Proof.
  intros Ha Hb. induction a as [| c a IH]; [exact Hb |].
  simpl in Ha. apply andb_true_iff in Ha as [H1 H2].
  change (String c a ++ b) with (String c (a ++ b)).
  change (no_partial m (String c (a ++ b)))
    with (negb (prefix (String c a ++ b) m
                && (String.length (String c a ++ b) <? String.length m)%nat)
          && no_partial m (a ++ b)).
  rewrite (IH H2), andb_true_r.
  apply negb_true_iff in H1. apply negb_true_iff.
  destruct (prefix (String c a ++ b) m) eqn:Hp; [| reflexivity].
  rewrite (prefix_append_l _ _ _ Hp) in H1. simpl andb in *.
  apply Nat.ltb_ge in H1. apply Nat.ltb_ge.
  rewrite length_append. lia.
Qed.

Lemma avoids_no_partial (c : ascii) (m x : string) :
  avoids c x = true -> no_partial (String c m) x = true.
Proof.
  unfold avoids. induction x as [| d x IH]; intros H; [reflexivity |].
  simpl in H. apply andb_true_iff in H as [H1 H2].
  apply negb_true_iff, Ascii.eqb_neq in H1.
  simpl. destruct (ascii_dec d c); [contradiction |]. simpl. now apply IH.
Qed.

Lemma avoids_count (c : ascii) (m x : string) :
  avoids c x = true -> Str.count (String c m) x = 0%nat.
Proof.
  unfold avoids. induction x as [| d x IH]; intros H; [reflexivity |].
  simpl in H. apply andb_true_iff in H as [H1 H2].
  apply negb_true_iff, Ascii.eqb_neq in H1.
  simpl. destruct (ascii_dec c d); [congruence |]. simpl. now apply IH.
Qed.

Lemma text_of_app (ps qs : list piece) :
  text_of (List.app ps qs) = text_of ps ++ text_of qs.
Proof.
  induction ps as [| [s | s] ps IH]; simpl; [reflexivity | |];
    now rewrite IH, append_assoc.
Qed.

Lemma text_of_leaves (t : tree) : text_of (leaves t) = denote t.
Proof.
  induction t as [s | s | a IHa b IHb]; simpl.
  - apply append_nil_r.
  - apply append_nil_r.
  - now rewrite text_of_app, IHa, IHb.
Qed.

Lemma text_of_merge (ps : list piece) : text_of (merge ps) = text_of ps.
Proof.
  induction ps as [| [s | s] ps IH]; simpl; [reflexivity | |].
  - destruct (merge ps) as [| [s' | s'] qs]; simpl in *;
      rewrite <- IH; [reflexivity | | reflexivity].
    apply append_assoc.
  - now rewrite IH.
Qed.

Lemma leaves_avoid (c : ascii) (t : tree) :
  holes_avoid c t -> pieces_avoid c (leaves t).
Proof.
  unfold pieces_avoid.
  induction t as [s | s | a IHa b IHb]; simpl; intros H.
  - now constructor.
  - now constructor.
  - destruct H. apply Forall_app. auto.
Qed.

Lemma merge_avoid (c : ascii) (ps : list piece) :
  pieces_avoid c ps -> pieces_avoid c (merge ps).
Proof.
  unfold pieces_avoid. induction 1 as [| [s | s] ps Hp Hps IH]; simpl.
  - constructor.
  - destruct (merge ps) as [| [s' | s'] qs].
    + now constructor.
    + inversion IH; subst. now constructor.
    + now constructor.
  - now constructor.
Qed.

Lemma count_pieces_sound (c : ascii) (m' : string) (ps : list piece) :
  pieces_avoid c ps ->
  forall n, count_pieces (String c m') ps = Some n ->
  Str.count (String c m') (text_of ps) = n.
Proof.
  induction 1 as [| [s | s] ps Hp Hps IH]; intros n Hn.
  - simpl in *. now inversion Hn.
  - simpl in Hn. destruct (no_partial (String c m') s) eqn:Hs; [| discriminate].
    destruct (count_pieces (String c m') ps) as [k |]; [| discriminate].
    simpl in Hn. inversion Hn; subst.
    simpl text_of. rewrite count_append by (congruence || assumption).
    now rewrite (IH k).
  - simpl in Hn. simpl text_of.
    rewrite count_append by (congruence || now apply avoids_no_partial).
    rewrite avoids_count by assumption. now apply IH.
Qed.

(** The count of a marker in a text given as a tree: computed on the merged
    literals, whatever the holes hold, as long as they avoid the first
    character of the marker. *)
Lemma count_tree (c : ascii) (m' : string) (t : tree) (n : nat) :
  holes_avoid c t ->
  count_pieces (String c m') (merge (leaves t)) = Some n ->
  Str.count (String c m') (denote t) = n.
Proof.
  intros Hh Hn.
  rewrite <- text_of_leaves, <- text_of_merge.
  apply (count_pieces_sound c m'); [| exact Hn].
  now apply merge_avoid, leaves_avoid.
Qed.

Lemma float_text_avoids (c : ascii) (s : string) :
  float_char c = false -> float_text s = true -> avoids c s = true.
Proof.
  unfold float_text, avoids. intros Hc.
  induction (list_ascii_of_string s) as [| d l IH]; intros H; [reflexivity |].
  simpl in *. apply andb_true_iff in H as [H1 H2].
  rewrite (IH H2), andb_true_r. apply negb_true_iff, Ascii.eqb_neq.
  intros ->. congruence.
Qed.

Lemma prefix_split (kw : string) :
  forall s, prefix kw s = true -> exists rest, s = kw ++ rest.
Proof.
  induction kw as [| c kw IH]; intros s H.
  - now exists s.
  - destruct s as [| d s]; simpl in H; [discriminate |].
    destruct (ascii_dec c d) as [-> |]; [| discriminate].
    destruct (IH s H) as [rest ->]. now exists rest.
Qed.

Lemma prefix_append_self (kw rest : string) : prefix kw (kw ++ rest) = true.
Proof.
  induction kw as [| c kw IH]; [apply prefix_nil |].
  simpl. now destruct (ascii_dec c c).
Qed.

Lemma contains_nil (kw : string) :
  Str.contains kw "" = prefix kw "" || false.
Proof. reflexivity. Qed.

Lemma contains_cons (kw : string) (c : ascii) (s : string) :
  Str.contains kw (String c s)
  = prefix kw (String c s) || Str.contains kw s.
Proof. reflexivity. Qed.

Lemma contains_iff (kw s : string) :
  Str.contains kw s = true <-> exists before rest, s = before ++ kw ++ rest.
Proof.
  split.
  - induction s as [| c s IH]; intros H.
    + rewrite contains_nil, orb_false_r in H.
      destruct (prefix_split _ _ H) as [rest ->]. now exists "", rest.
    + rewrite contains_cons in H. apply orb_true_iff in H as [H | H].
      * destruct (prefix_split _ _ H) as [rest ->]. now exists "", rest.
      * destruct (IH H) as (before & rest & ->).
        now exists (String c before), rest.
  - intros (before & rest & ->).
    induction before as [| c before IH].
    + simpl append. destruct (kw ++ rest) eqn:E.
      * now rewrite contains_nil, <- E, prefix_append_self.
      * now rewrite contains_cons, <- E, prefix_append_self.
    + change (String c before ++ kw ++ rest)
        with (String c (before ++ kw ++ rest)).
      rewrite contains_cons, IH. apply orb_true_r.
Qed.

Lemma lower_append (a b : string) :
  Str.lower (a ++ b) = Str.lower a ++ Str.lower b.
Proof. induction a as [| c a IH]; simpl; [| rewrite IH]; reflexivity. Qed.

Lemma lower_split (a b : string) :
  forall s, Str.lower s = a ++ b ->
  exists a' b', s = a' ++ b' /\ Str.lower a' = a /\ Str.lower b' = b.
Proof.
  induction a as [| c a IH]; intros s H.
  - now exists "", s.
  - destruct s as [| d s]; simpl in H; [discriminate |].
    injection H as Hc Hs. destruct (IH s Hs) as (a' & b' & -> & Ha & Hb).
    exists (String d a'), b'. simpl. now rewrite Ha, Hc.
Qed.

Lemma lower_char_idem (ch : ascii) :
  Str.lower_char (Str.lower_char ch) = Str.lower_char ch.
Proof. destruct ch as [[] [] [] [] [] [] [] []]; reflexivity. Qed.

Lemma lower_idem (s : string) : Str.lower (Str.lower s) = Str.lower s.
Proof.
  induction s as [| ch s IH]; simpl; [reflexivity |].
  now rewrite lower_char_idem, IH.
Qed.

Lemma length_lower (s : string) :
  String.length (Str.lower s) = String.length s.
Proof. induction s as [| ch s IH]; simpl; [| rewrite IH]; reflexivity. Qed.

Lemma append_inj_length (a a' b b' : string) :
  String.length a = String.length a' -> a ++ b = a' ++ b' ->
  a = a' /\ b = b'.
Proof.
  revert a'. induction a as [| ch a IH]; intros [| ch' a'] Hlen H;
    simpl in *; try discriminate; [now split |].
  injection H as -> H. injection Hlen as Hlen.
  destruct (IH a' Hlen H) as [-> ->]. now split.
Qed.

(** The window is lower-cased and the keyword is not: a keyword that its
    lower-case form differs from is in no lower-cased window. *)
Lemma capital_keyword_not_contained (kw w : string) :
  Str.lower kw <> kw -> Str.contains kw (Str.lower w) = false.
Proof.
  intros Hkw. destruct (Str.contains kw (Str.lower w)) eqn:E; [| reflexivity].
  exfalso. apply Hkw.
  apply contains_iff in E as (before & rest & E).
  pose proof (f_equal Str.lower E) as E'.
  rewrite lower_idem, E, !lower_append in E'.
  apply append_inj_length in E' as [_ E']; [| now rewrite length_lower].
  apply append_inj_length in E' as [E' _]; [| now rewrite length_lower].
  now symmetry.
Qed.

(** *** The lower-case form and the letters up to case *)

Lemma ascii_listed (ch : ascii) : In ch (map ascii_of_nat (seq 0 256)).
Proof.
  rewrite <- (ascii_nat_embedding ch). apply in_map, in_seq.
  pose proof (nat_ascii_bounded ch). lia.
Qed.

(** Two characters have one lower-case form exactly when they are the same
    letter. *)
Lemma lower_char_same_letter (a b : ascii) :
  Ascii.eqb (Str.lower_char a) (Str.lower_char b) = same_letter a b.
Proof.
  assert (H : forallb
                (fun a =>
                   forallb
                     (fun b =>
                        Bool.eqb
                          (Ascii.eqb (Str.lower_char a) (Str.lower_char b))
                          (same_letter a b))
                     (map ascii_of_nat (seq 0 256)))
                (map ascii_of_nat (seq 0 256)) = true)
    by (vm_compute; reflexivity).
  rewrite forallb_forall in H. specialize (H a (ascii_listed a)).
  rewrite forallb_forall in H. specialize (H b (ascii_listed b)).
  now apply Bool.eqb_prop in H.
Qed.

(** A character is its own lower-case form exactly when it is no capital
    letter. *)
Lemma lower_char_fixed (a : ascii) :
  Ascii.eqb (Str.lower_char a) a = negb (capital_letter a).
Proof.
  assert (H : forallb
                (fun a =>
                   Bool.eqb (Ascii.eqb (Str.lower_char a) a)
                     (negb (capital_letter a)))
                (map ascii_of_nat (seq 0 256)) = true)
    by (vm_compute; reflexivity).
  rewrite forallb_forall in H. specialize (H a (ascii_listed a)).
  now apply Bool.eqb_prop in H.
Qed.

Lemma lower_same (s t : string) :
  Str.lower s = Str.lower t <-> same_ignoring_case s t = true.
Proof.
  revert t. induction s as [| a s IH]; intros [| b t]; simpl;
    try (split; [discriminate | discriminate]); [now split |].
  rewrite andb_true_iff, <- lower_char_same_letter, <- IH, Ascii.eqb_eq.
  split; [intros H; now injection H | intros [-> ->]; reflexivity].
Qed.

Lemma lower_fixed (kw : string) :
  Str.lower kw = kw <-> written_small kw = true.
Proof.
  unfold written_small. induction kw as [| a kw IH]; simpl; [now split |].
  rewrite andb_true_iff, <- lower_char_fixed, <- IH, Ascii.eqb_eq.
  split; [intros H; now injection H | intros [-> ->]; reflexivity].
Qed.

(** A keyword is found in the lower-cased window exactly when it is written
    without capital letters and occurs in the window up to case. *)
Lemma contains_lower_iff (kw w : string) :
  Str.contains kw (Str.lower w) = true
  <-> written_small kw = true /\ occurs_ignoring_case kw w.
Proof.
  unfold occurs_ignoring_case. split.
  - intros H.
    destruct (string_dec (Str.lower kw) kw) as [Hkw | Hkw];
      [| now rewrite (capital_keyword_not_contained kw w Hkw) in H].
    split; [now apply lower_fixed |].
    apply contains_iff in H as (before & rest & H).
    destruct (lower_split _ _ _ H) as (before' & tail & -> & _ & Htail).
    destruct (lower_split _ _ _ Htail) as (found & rest' & -> & Hfound & _).
    exists before', found, rest'. split; [reflexivity |].
    apply lower_same. now rewrite Hkw.
  - intros (Hsmall & before & found & rest & -> & Hfound).
    apply lower_fixed in Hsmall. apply lower_same in Hfound.
    apply contains_iff.
    exists (Str.lower before), (Str.lower rest).
    now rewrite !lower_append, Hfound, Hsmall.
Qed.

(** ** Dictionaries *)

Lemma dict_set_absent {V} (d : Dict.t V) (k : string) (v : V) :
  Dict.get d k = None -> Dict.set d k v = List.app d [(k, v)].
Proof.
  induction d as [| [k' v'] d IH]; simpl; intros H; [reflexivity |].
  destruct (String.eqb k k'); [discriminate |]. now rewrite IH.
Qed.

Lemma dict_get_app_absent {V} (d : Dict.t V) (k k' : string) (v : V) :
  Dict.get d k' = None -> k' <> k ->
  Dict.get (List.app d [(k, v)]) k' = None.
Proof.
  intros H Hk. induction d as [| [k0 v0] d IH]; simpl in *.
  - apply String.eqb_neq in Hk. now rewrite Hk.
  - destruct (String.eqb k' k0); [discriminate | now apply IH].
Qed.

Lemma dict_get_map {A V} (key : A -> string) (f : A -> V) (xs : list A) :
  NoDup (map key xs) ->
  forall x, In x xs ->
  Dict.get (map (fun x => (key x, f x)) xs) (key x) = Some (f x).
Proof.
  induction xs as [| y xs IH]; intros Hnd x Hin; [contradiction |].
  inversion Hnd as [| ? ? Hy Hxs]; subst. simpl.
  destruct Hin as [-> | Hin].
  - now rewrite String.eqb_refl.
  - destruct (String.eqb (key x) (key y)) eqn:E; [| now apply IH].
    apply String.eqb_eq in E. exfalso. apply Hy. rewrite <- E.
    now apply in_map.
Qed.

Lemma count_true_map {A} (f : A -> bool) (xs : list A) :
  List.length (filter (fun b : bool => b) (map f xs))
  = List.length (filter f xs).
Proof.
  induction xs as [| x xs IH]; simpl; [reflexivity |].
  destruct (f x); simpl; now rewrite IH.
Qed.

(** ** Slices *)

Lemma length_string_of_list (l : list ascii) :
  String.length (string_of_list_ascii l) = List.length l.
Proof. induction l as [| c l IH]; simpl; [| rewrite IH]; reflexivity. Qed.

Lemma length_list_of_string (s : string) :
  List.length (list_ascii_of_string s) = String.length s.
Proof. induction s as [| c s IH]; simpl; [| rewrite IH]; reflexivity. Qed.

Lemma clamp_inside (n i : Z) : 0 <= i <= n -> Str.clamp n i = i.
Proof.
  intros H. unfold Str.clamp.
  destruct (Z.ltb_spec i 0); lia.
Qed.

(** A slice between two places of the text, in order. *)
Lemma slice_inside (s : string) (a b : Z) :
  0 <= a <= b -> b <= Str.len s ->
  Str.slice s a b
  = string_of_list_ascii
      (firstn (Z.to_nat (b - a))
         (skipn (Z.to_nat a) (list_ascii_of_string s))).
Proof.
  intros Ha Hb. unfold Str.slice.
  rewrite !clamp_inside by lia. reflexivity.
Qed.

Lemma len_slice_inside (s : string) (a b : Z) :
  0 <= a <= b -> b <= Str.len s -> Str.len (Str.slice s a b) = b - a.
Proof.
  intros Ha Hb. rewrite slice_inside by assumption. unfold Str.len in *.
  rewrite length_string_of_list, length_firstn, length_skipn,
    length_list_of_string.
  lia.
Qed.

Lemma len_nonneg (s : string) : 0 <= Str.len s.
Proof. unfold Str.len. lia. Qed.

Lemma len_first_window (text : string) :
  Str.len (first_window text) = Str.len text / 12.
Proof.
  pose proof (len_nonneg text) as Hn. unfold first_window.
  rewrite len_slice_inside.
  - lia.
  - split; [lia |]. apply Z.div_pos; lia.
  - apply Z.div_le_upper_bound; lia.
Qed.

Lemma string_of_list_app (a b : list ascii) :
  string_of_list_ascii (List.app a b)
  = string_of_list_ascii a ++ string_of_list_ascii b.
Proof. induction a as [| c a IH]; simpl; [| rewrite IH]; reflexivity. Qed.

(** [text[a:]], as the last window is cut. *)
Lemma slice_to_end (s : string) (a : Z) :
  0 <= a <= Str.len s ->
  Str.slice s a (Str.len s)
  = string_of_list_ascii (skipn (Z.to_nat a) (list_ascii_of_string s)).
Proof.
  intros Ha. rewrite slice_inside by lia. f_equal.
  apply firstn_all2. rewrite length_skipn, length_list_of_string.
  unfold Str.len in *. lia.
Qed.

(** A window and the rest of the text after it. *)
Lemma slice_then_rest (s : string) (a b : Z) :
  0 <= a <= b -> b <= Str.len s ->
  Str.slice s a b
    ++ string_of_list_ascii (skipn (Z.to_nat b) (list_ascii_of_string s))
  = string_of_list_ascii (skipn (Z.to_nat a) (list_ascii_of_string s)).
Proof.
  intros Ha Hb. rewrite slice_inside by assumption.
  rewrite <- string_of_list_app. f_equal.
  replace (Z.to_nat b) with (Z.to_nat (b - a) + Z.to_nat a)%nat by lia.
  rewrite <- skipn_skipn. apply firstn_skipn.
Qed.

Lemma join_empty_cons (w : string) (ws : list string) :
  Str.join "" (w :: ws) = w ++ Str.join "" ws.
Proof. destruct ws; simpl; [now rewrite append_nil_r | reflexivity]. Qed.

Lemma dict_get_set_same {V} (d : Dict.t V) (k : string) (v : V) :
  Dict.get (Dict.set d k v) k = Some v.
Proof.
  induction d as [| [k' v'] d IH]; simpl.
  - now rewrite String.eqb_refl.
  - destruct (String.eqb k k') eqn:E; simpl; rewrite E; [reflexivity | exact IH].
Qed.

Lemma dict_get_set_other {V} (d : Dict.t V) (k k' : string) (v : V) :
  k' <> k -> Dict.get (Dict.set d k v) k' = Dict.get d k'.
Proof.
  intros Hk. induction d as [| [k0 v0] d IH]; simpl.
  - apply String.eqb_neq in Hk. now rewrite Hk.
  - destruct (String.eqb k k0) eqn:E; simpl.
    + apply String.eqb_eq in E. subst k0.
      apply String.eqb_neq in Hk. now rewrite Hk.
    + destruct (String.eqb k' k0); [reflexivity | exact IH].
Qed.

(** ** Harmon's Story Circle *)

Section HarmonProperties.

Context {F : Float} {P : Repr F}.
Variable display_name : string.

Lemma harmon_analyze_step_preserves step text :
  preserves (Harmon._analyze_step step text).
Proof. unfold Harmon._analyze_step. preserving. Qed.

Lemma harmon_evaluate_preserves text :
  preserves (Harmon._evaluate_overall_structure text).
Proof. unfold Harmon._evaluate_overall_structure. preserving. Qed.

Lemma harmon_position_preserves step_number radius :
  preserves (Harmon._calculate_step_position step_number radius).
Proof. unfold Harmon._calculate_step_position. preserving. Qed.

Lemma harmon_visualize_preserves analysis_result :
  preserves (Harmon.visualize analysis_result).
Proof.
  unfold Harmon.visualize, Harmon._calculate_step_position. preserving.
Qed.

Lemma harmon_analyze_preserves text :
  preserves (Harmon.analyze display_name text).
Proof.
  unfold Harmon.analyze, Harmon.structure_type,
    Harmon._evaluate_overall_structure, Harmon._analyze_step.
  pose proof harmon_visualize_preserves. preserving.
Qed.

Lemma harmon_get_prompt_preserves : preserves Harmon.get_prompt.
Proof. unfold Harmon.get_prompt. preserving. Qed.

(** C6: the fixed judgment.  Whatever the text, a step is reported present,
    of medium strength, without suggestions and with all its criteria met,
    and the structure is reported complete and well balanced. *)
Theorem harmon_fixed_judgment :
  (forall step text c,
     Harmon._analyze_step step text c
       = (Ok {| Harmon.presence := true;
                Harmon.strength := "medium";
                Harmon.suggestions := [];
                Harmon.criteria_met := Harmon.analysis_criteria step |}, c))
  /\ (forall text c,
        Harmon._evaluate_overall_structure text c
          = (Ok {| Harmon.circle_completion := true;
                   Harmon.balance := "well_balanced";
                   Harmon.overall_suggestions := [] |}, c))
  /\ (forall text text' c,
        Harmon.analyze display_name text c
          = Harmon.analyze display_name text' c).
Proof. repeat split. Qed.

(** [visualize] never reads its argument. *)
Lemma harmon_visualize_ignores (a a' : Harmon.Structure) :
  Harmon.visualize a = Harmon.visualize a'.
Proof. reflexivity. Qed.

(** [visualize] returns a string, whatever the catalog holds. *)
Lemma harmon_visualize_total (a : Harmon.Structure) (c : Harmon.Class) :
  exists html, Harmon.visualize a c = (Ok html, c).
Proof.
  unfold Harmon.visualize, bind, attr.
  erewrite for_each_pure by (intros; reflexivity).
  eexists. reflexivity.
Qed.

(** The dictionary of the steps that [analyze] builds. *)
Lemma harmon_analyze_run (text : string) (c : Harmon.Class) :
  exists r,
    Harmon.analyze display_name text c = (Ok r, c)
    /\ Harmon.visualize (structure r) c = (Ok (visualization r), c)
    /\ Harmon.steps (structure r)
       = fold_left
           (fun d step =>
              Dict.set d (Harmon.name step)
                {| Harmon.presence := true;
                   Harmon.strength := "medium";
                   Harmon.suggestions := [];
                   Harmon.criteria_met := Harmon.analysis_criteria step |})
           (Harmon.STORY_STEPS c) []
    /\ Harmon.overall_evaluation (structure r)
       = {| Harmon.circle_completion := true;
            Harmon.balance := "well_balanced";
            Harmon.overall_suggestions := [] |}.
Proof.
  unfold Harmon.analyze, bind, attr.
  erewrite for_each_pure by (intros; reflexivity).
  unfold Harmon._evaluate_overall_structure, Harmon.structure_type, ret.
  match goal with
  | |- context [Harmon.visualize ?a c] =>
      destruct (harmon_visualize_total a c) as [html Hhtml]; rewrite Hhtml
  end.
  eexists. split; [reflexivity |]. simpl. repeat split. exact Hhtml.
Qed.

(** Reads a text as a tree: concatenations, printed floats, literals. *)
Ltac reify_text t :=
  lazymatch t with
  | String.append ?a ?b =>
      let ra := reify_text a in
      let rb := reify_text b in
      constr:(Cat ra rb)
  | repr _ => constr:(Hole t)
  | _ => constr:(Lit t)
  end.

(** Counts a marker in a text whose holes are texts of floats. *)
Ltac count_marker Hfloat :=
  match goal with
  | |- Str.count ?m ?big = ?n =>
      let t := reify_text big in
      change (Str.count m (denote t) = n)
  end;
  apply count_tree;
  [ simpl holes_avoid; repeat split;
    (apply float_text_avoids; [reflexivity | apply Hfloat])
  | vm_compute; reflexivity ].

(** C7, as the code has it: the steps of the result are keyed by the eight
    names of the catalog, in its order; the visualization holds the element
    [<div class='step-number'>] eight times, once per step, and the style
    sheet once.  The bare token [step-number] is there nine times, the ninth
    in the rule [.step-number] of the style sheet. *)
Theorem harmon_analyze_steps_and_markers (text : string) :
  (forall f : float, float_text (repr f) = true) ->
  exists r,
    Harmon.analyze display_name text Harmon.module_load
      = (Ok r, Harmon.module_load)
    /\ Dict.keys (Harmon.steps (structure r))
       = map Harmon.name (Harmon.STORY_STEPS Harmon.module_load)
    /\ List.length (Dict.keys (Harmon.steps (structure r))) = 8%nat
    /\ Str.count "<div class='step-number'>" (visualization r) = 8%nat
    /\ Str.count "step-number" (visualization r) = 9%nat
    /\ Str.count (Harmon.CSS_TEMPLATE Harmon.module_load) (visualization r)
       = 1%nat.
Proof.
  intros Hfloat.
  destruct (harmon_analyze_run text Harmon.module_load)
    as (r & Hr & Hv & Hs & _).
  exists r. split; [exact Hr |]. rewrite Hs.
  split; [vm_compute; reflexivity |].
  split; [vm_compute; reflexivity |].
  cbv [Harmon.visualize bind attr ret for_each Harmon._calculate_step_position
       Harmon.module_load Harmon.STORY_STEPS Harmon.CSS_TEMPLATE
       Harmon.number Harmon.name Harmon.color Harmon.default_radius
       List.app Str.join] in Hv.
  apply Ok_inj in Hv. rewrite <- Hv.
  cbv [Harmon.CSS_TEMPLATE Harmon.module_load].
  repeat split; count_marker Hfloat.
Qed.

End HarmonProperties.

(** ** The position of a step, in doubles *)

(** *** Rounding *)

Lemma nearest_even_error (m k : Z) :
  0 <= k -> 2 * Z.abs (Binary64.nearest_even m k * 2 ^ k - m) <= 2 ^ k.
Proof.
  intros Hk. unfold Binary64.nearest_even.
  assert (Hp : 0 < 2 ^ k) by (apply Z.pow_pos_nonneg; lia).
  pose proof (Z.div_mod m (2 ^ k) ltac:(lia)) as Hdm.
  pose proof (Z.mod_pos_bound m (2 ^ k) Hp) as Hr.
  set (p := 2 ^ k) in *. set (q := m / p) in *. set (r := m mod p) in *.
  clearbody p q r.
  destruct (Z.ltb_spec (2 * r) p); [nia |].
  destruct (Z.ltb_spec p (2 * r)); [nia |].
  destruct (Z.even q); nia.
Qed.

(** A mantissa of [53 + k] bits, rounded, is within its [2 ^ 53]rd part of
    the mantissa. *)
Lemma round_mantissa_error (m k : Z) :
  0 < k -> k = Z.log2 (Z.abs m) - 52 ->
  2 ^ 53
  * Z.abs (Z.sgn m * Binary64.nearest_even (Z.abs m) k * 2 ^ k - m)
  <= Z.abs m.
Proof.
  intros Hk Hlog.
  assert (Ha : 0 < Z.abs m).
  { destruct (Z.eq_dec m 0) as [-> | ]; [simpl in Hlog; lia | lia]. }
  pose proof (nearest_even_error (Z.abs m) k ltac:(lia)) as He.
  pose proof (Z.log2_spec (Z.abs m) Ha) as [Hl _].
  replace (Z.log2 (Z.abs m)) with (k + 52) in Hl by lia.
  rewrite Z.pow_add_r in Hl by lia.
  assert (Hp : 0 < 2 ^ k) by (apply Z.pow_pos_nonneg; lia).
  set (p := 2 ^ k) in *.
  set (n := Binary64.nearest_even (Z.abs m) k) in *.
  clearbody p n.
  assert (E : Z.abs (Z.sgn m * n * p - m) = Z.abs (n * p - Z.abs m)).
  { rewrite <- Z.mul_assoc. set (np := n * p). clearbody np.
    destruct (Z.sgn_spec m) as [[? ->] | [[? ->] | [? ->]]]; lia. }
  rewrite E. change (2 ^ 53) with (2 * 2 ^ 52). lia.
Qed.

Lemma value_shift (m e k : Z) :
  0 <= k ->
  (inject_Z m * Qpower 2 (e + k) == inject_Z (m * 2 ^ k) * Qpower 2 e)%Q.
Proof.
  intros Hk. rewrite Qpower_plus by discriminate.
  rewrite inject_Z_mult, (Zpower_Qpower 2 k Hk).
  change (inject_Z 2) with 2%Q. ring.
Qed.

Lemma abs_inject (n : Z) : Qabs (inject_Z n) = inject_Z (Z.abs n).
Proof. reflexivity. Qed.

Lemma power_positive (e : Z) : (0 < Qpower 2 e)%Q.
Proof. apply Qpower_0_lt. reflexivity. Qed.

(** Rounding moves a number by at most its [2 ^ 53]rd part. *)
Lemma round_error (d : Binary64.double) :
  (Qabs (Binary64.value (Binary64.round d) - Binary64.value d)
   <= Binary64.unit_roundoff * Qabs (Binary64.value d))%Q.
Proof.
  unfold Binary64.round. destruct d as [m e].
  cbn [Binary64.mantissa Binary64.exponent].
  destruct (Z.leb_spec (Z.log2 (Z.abs m) - 52) 0) as [Hk | Hk].
  - setoid_replace
      (Binary64.value {| Binary64.mantissa := m; Binary64.exponent := e |}
       - Binary64.value
           {| Binary64.mantissa := m; Binary64.exponent := e |})%Q
      with 0%Q by ring.
    change (Qabs 0) with 0%Q.
    apply Qmult_le_0_compat; [discriminate | apply Qabs_nonneg].
  - set (k := Z.log2 (Z.abs m) - 52) in *.
    pose proof (round_mantissa_error m k Hk eq_refl) as Herr.
    unfold Binary64.value. cbn [Binary64.mantissa Binary64.exponent].
    rewrite value_shift by lia.
    set (n := Z.sgn m * Binary64.nearest_even (Z.abs m) k * 2 ^ k) in *.
    setoid_replace (inject_Z n * Qpower 2 e - inject_Z m * Qpower 2 e)%Q
      with (inject_Z (n - m) * Qpower 2 e)%Q
      by (unfold Zminus; rewrite inject_Z_plus, inject_Z_opp; ring).
    pose proof (power_positive e) as Hpos.
    rewrite !Qabs_Qmult, (Qabs_pos (Qpower 2 e)) by lra.
    rewrite Qmult_assoc. apply Qmult_le_compat_r; [| lra].
    rewrite !abs_inject. unfold Binary64.unit_roundoff.
    unfold Qle, Qmult. cbn [Qnum Qden inject_Z].
    rewrite Z.mul_1_l, Z.mul_1_r, Pos.mul_1_r, Pos2Z.inj_pow.
    rewrite Z.mul_comm. exact Herr.
Qed.

Lemma of_int_error (n : Z) :
  (Qabs (Binary64.value (Binary64.of_int n) - inject_Z n)
   <= Binary64.unit_roundoff * Qabs (inject_Z n))%Q.
Proof.
  pose proof (round_error
                {| Binary64.mantissa := n; Binary64.exponent := 0 |}) as H.
  assert (E : (Binary64.value
                 {| Binary64.mantissa := n; Binary64.exponent := 0 |}
               == inject_Z n)%Q)
    by (unfold Binary64.value; simpl; ring).
  rewrite E in H. exact H.
Qed.

Lemma mul_error (a b : Binary64.double) :
  (Qabs (Binary64.value (Binary64.mul a b)
         - Binary64.value a * Binary64.value b)
   <= Binary64.unit_roundoff
      * Qabs (Binary64.value a * Binary64.value b))%Q.
Proof.
  pose proof (round_error
                {| Binary64.mantissa :=
                     Binary64.mantissa a * Binary64.mantissa b;
                   Binary64.exponent :=
                     Binary64.exponent a + Binary64.exponent b |}) as H.
  assert (E : (Binary64.value
                 {| Binary64.mantissa :=
                      Binary64.mantissa a * Binary64.mantissa b;
                    Binary64.exponent :=
                      Binary64.exponent a + Binary64.exponent b |}
               == Binary64.value a * Binary64.value b)%Q).
  { unfold Binary64.value. cbn [Binary64.mantissa Binary64.exponent].
    rewrite inject_Z_mult, Qpower_plus by discriminate. ring. }
  rewrite E in H. exact H.
Qed.

(** *** From the errors of the operations to the error of the point *)

Lemma abs_bound (a b : Q) : (Qabs a <= b <-> - b <= a <= b)%Q.
Proof. apply Qabs_Qle_condition. Qed.

(** A number within the relative error [u] of another has its square within
    [2u + u^2] of the square of the other. *)
Lemma square_close (u a b : Q) :
  (0 <= u -> Qabs (a - b) <= u * Qabs b ->
   Qabs (a * a - b * b) <= (2 * u + u * u) * (b * b))%Q.
Proof.
  intros Hu H. apply abs_bound in H. apply abs_bound.
  destruct (Qlt_le_dec b 0) as [Hb | Hb].
  - rewrite (Qabs_neg b) in H by lra. nra.
  - rewrite (Qabs_pos b) in H by lra. nra.
Qed.

Lemma circle_error (u d r R0 C S x y : Q) :
  (0 <= u -> u <= 1 -> 0 <= d -> d <= 1 ->
   Qabs (R0 - r) <= u * Qabs r ->
   Qabs (x - R0 * C) <= u * Qabs (R0 * C) ->
   Qabs (y - R0 * S) <= u * Qabs (R0 * S) ->
   Qabs (C * C + S * S - 1) <= d ->
   Qabs (x * x + y * y - r * r)
   <= ((1 + (2 * u + u * u)) * (1 + (2 * u + u * u)) * (1 + d) - 1)
      * (r * r))%Q.
Proof.
  intros Hu Hu1 Hd Hd1 HR Hx Hy HC.
  apply (square_close u) in HR; [| exact Hu].
  apply (square_close u) in Hx; [| exact Hu].
  apply (square_close u) in Hy; [| exact Hu].
  set (k := (2 * u + u * u)%Q) in *.
  assert (Hk : (0 <= k)%Q) by (unfold k; nra).
  apply abs_bound in HR, Hx, Hy, HC. apply abs_bound.
  set (X2 := (R0 * C * (R0 * C))%Q) in *.
  set (Y2 := (R0 * S * (R0 * S))%Q) in *.
  set (T := (C * C + S * S)%Q) in *.
  assert (HXY : (X2 + Y2 == R0 * R0 * T)%Q) by (unfold X2, Y2, T; ring).
  set (A := (x * x)%Q) in *. set (B := (y * y)%Q) in *.
  set (W := (R0 * R0)%Q) in *. set (rho := (r * r)%Q) in *.
  assert (Hrho : (0 <= rho)%Q) by (unfold rho; nra).
  assert (HX2 : (0 <= X2)%Q) by (unfold X2; nra).
  assert (HY2 : (0 <= Y2)%Q) by (unfold Y2; nra).
  assert (HW : (0 <= W)%Q) by (unfold W; nra).
  clearbody A B W rho X2 Y2 T k.
  assert (HWTu : (W * T <= (1 + k) * (1 + d) * rho)%Q) by nra.
  assert (HWTl : ((1 - k) * (1 - d) * rho <= W * T)%Q \/ (1 < k)%Q).
  { destruct (Qlt_le_dec 1 k); [now right | left; nra]. }
  split; [destruct HWTl; nra | nra].
Qed.

(** What the method computes in doubles, when its two [int]s convert. *)
Lemma step_position_converts {F : Float} (step_number radius : Z)
  (c : Harmon.Class) :
  convertible ((step_number - 1) * 45 - 90) = true ->
  convertible radius = true ->
  Harmon._calculate_step_position_converting step_number radius c
  = Harmon._calculate_step_position step_number radius c.
Proof.
  intros Hd Hr.
  unfold Harmon._calculate_step_position_converting,
    Harmon._calculate_step_position, float_of_int, bind.
  now rewrite Hd, Hr.
Qed.

(** The product of a radius with a cosine and a sine that lie on the unit
    circle up to [2 ^ -50] lies on the circle of the radius up to the
    [2 ^ 49]th part of its square. *)
Lemma position_error (cos_angle sin_angle : Binary64.double) (radius : Z) :
  (Qabs (Binary64.value cos_angle * Binary64.value cos_angle
         + Binary64.value sin_angle * Binary64.value sin_angle - 1)
   <= 1 # 2 ^ 50)%Q ->
  let x := Binary64.mul (Binary64.of_int radius) cos_angle in
  let y := Binary64.mul (Binary64.of_int radius) sin_angle in
  (Qabs (Binary64.value x * Binary64.value x
         + Binary64.value y * Binary64.value y
         - inject_Z (radius * radius))
   <= (1 # 2 ^ 49) * inject_Z (radius * radius))%Q.
Proof.
  intros Hunit x y.
  pose proof (of_int_error radius) as HR.
  pose proof (mul_error (Binary64.of_int radius) cos_angle) as Hx.
  pose proof (mul_error (Binary64.of_int radius) sin_angle) as Hy.
  assert (Hu : (0 <= Binary64.unit_roundoff)%Q) by discriminate.
  assert (Hu1 : (Binary64.unit_roundoff <= 1)%Q) by discriminate.
  pose proof (circle_error Binary64.unit_roundoff (1 # 2 ^ 50)
                (inject_Z radius) _ _ _ _ _ Hu Hu1
                ltac:(discriminate) ltac:(discriminate) HR Hx Hy Hunit)
    as H.
  rewrite inject_Z_mult. eapply Qle_trans; [exact H |].
  apply Qmult_le_compat_r.
  - vm_compute. discriminate.
  - rewrite <- inject_Z_mult, <- (Zle_Qle 0). nia.
Qed.

(** C5: the position of a step, computed in doubles with the cosine and the
    sine of the platform.  The angle is [(step_number - 1) * (360 / 8) - 90]
    degrees, [-90] for step 1, and the point is [(radius * cos angle,
    radius * sin angle)] whatever the state of the class.  The method
    raises [OverflowError] when the degrees or the radius are beyond the
    range of a double, and nothing else.  Otherwise, when the cosine and
    the sine of the angle lie on the unit circle up to [2 ^ -50], the point
    lies on the circle of the radius up to the [2 ^ 49]th part of its
    square. *)
Theorem harmon_step_position_on_circle
  (libm_cos libm_sin : Binary64.double -> Binary64.double)
  (step_number radius : Z) (c : Harmon.Class) :
  let degrees := (step_number - 1) * (360 / 8) - 90 in
  let angle := Binary64.radians (Binary64.of_int degrees) in
  let cos_angle := Binary64.value (libm_cos angle) in
  let sin_angle := Binary64.value (libm_sin angle) in
  (Qabs (cos_angle * cos_angle + sin_angle * sin_angle - 1) <= 1 # 2 ^ 50)%Q ->
  match
    Harmon._calculate_step_position_converting
      (F := Binary64.floats libm_cos libm_sin) step_number radius c
  with
  | (Ok (x, y), c') =>
      c' = c
      /\ convertible degrees = true
      /\ convertible radius = true
      /\ x = Binary64.mul (Binary64.of_int radius) (libm_cos angle)
      /\ y = Binary64.mul (Binary64.of_int radius) (libm_sin angle)
      /\ Harmon._calculate_step_position
           (F := Binary64.floats libm_cos libm_sin) step_number radius c
         = (Ok (x, y), c)
      /\ (Qabs (Binary64.value x * Binary64.value x
                + Binary64.value y * Binary64.value y
                - inject_Z (radius * radius))
          <= (1 # 2 ^ 49) * inject_Z (radius * radius))%Q
  | (Raise e, c') =>
      c' = c
      /\ e = OverflowError
      /\ (convertible degrees = false \/ convertible radius = false)
  end
  /\ (step_number = 1 -> degrees = -90).
Proof.
  intros degrees angle cos_angle sin_angle Hunit.
  split; [| intros ->; reflexivity].
  unfold Harmon._calculate_step_position_converting, float_of_int, bind.
  change ((step_number - 1) * 45 - 90) with degrees.
  destruct (convertible degrees) eqn:Hd; [| cbn; auto].
  cbn [ret]. destruct (convertible radius) eqn:Hr; [| cbn; auto].
  cbn [ret of_int fmul radians fcos fsin Binary64.floats]. fold angle.
  repeat (split; [reflexivity |]).
  exact (position_error (libm_cos angle) (libm_sin angle) radius Hunit).
Qed.

(** ** Vogler's Hero's Journey *)

Section VoglerProperties.

Context {F : Float} {P : Repr F}.
Variable display_name : string.

(** *** No method writes an attribute of the class *)

Lemma vogler_floordiv_preserves a b : preserves (Vogler.floordiv a b).
Proof. unfold Vogler.floordiv. preserving. Qed.

Lemma vogler_py_get_preserves v k d : preserves (Vogler.py_get v k d).
Proof. unfold Vogler.py_get. preserving. Qed.

Lemma vogler_getitem_preserves v k : preserves (Vogler.getitem v k).
Proof. unfold Vogler.getitem. preserving. Qed.

Lemma vogler_setitem_preserves v k x : preserves (Vogler.setitem v k x).
Proof. unfold Vogler.setitem. preserving. Qed.

Lemma vogler_as_number_preserves v : preserves (Vogler.as_number v).
Proof. unfold Vogler.as_number. preserving. Qed.

#[local] Hint Resolve vogler_floordiv_preserves vogler_py_get_preserves
  vogler_getitem_preserves vogler_setitem_preserves
  vogler_as_number_preserves : preserves.

Lemma vogler_split_preserves text : preserves (Vogler._split_into_stages text).
Proof. unfold Vogler._split_into_stages. preserving. Qed.

Lemma vogler_analyze_stage_preserves stage content :
  preserves (Vogler._analyze_stage stage content).
Proof. unfold Vogler._analyze_stage. preserving. Qed.

Lemma vogler_transitions_preserves w content :
  preserves (Vogler._analyze_transitions w content).
Proof. unfold Vogler._analyze_transitions. preserving. Qed.

#[local] Hint Resolve vogler_split_preserves vogler_analyze_stage_preserves
  vogler_transitions_preserves : preserves.

Lemma vogler_analyze_world_preserves w content :
  preserves (Vogler._analyze_world w content).
Proof. unfold Vogler._analyze_world. preserving. Qed.

Lemma vogler_get_stage_analyses_preserves content :
  preserves (Vogler._get_stage_analyses content).
Proof. unfold Vogler._get_stage_analyses. preserving. Qed.

#[local] Hint Resolve vogler_analyze_world_preserves
  vogler_get_stage_analyses_preserves : preserves.

Lemma vogler_world_balance_preserves content :
  preserves (Vogler._analyze_world_balance content).
Proof. unfold Vogler._analyze_world_balance. preserving. Qed.

Lemma vogler_narrative_flow_preserves content :
  preserves (Vogler._analyze_narrative_flow content).
Proof. unfold Vogler._analyze_narrative_flow. preserving. Qed.

#[local] Hint Resolve vogler_world_balance_preserves
  vogler_narrative_flow_preserves : preserves.

Lemma vogler_overall_preserves content :
  preserves (Vogler._analyze_overall_structure content).
Proof. unfold Vogler._analyze_overall_structure. preserving. Qed.

Lemma vogler_color_preserves score :
  preserves (Vogler._get_color_by_score score).
Proof. unfold Vogler._get_color_by_score. preserving. Qed.

#[local] Hint Resolve vogler_overall_preserves vogler_color_preserves
  : preserves.

Lemma vogler_visualize_preserves analysis_result :
  preserves (Vogler.visualize analysis_result).
Proof. unfold Vogler.visualize. preserving. Qed.

#[local] Hint Resolve vogler_visualize_preserves : preserves.

Lemma vogler_analyze_preserves text :
  preserves (Vogler.analyze display_name text).
Proof. unfold Vogler.analyze, Vogler.structure_type. preserving. Qed.

Lemma vogler_get_prompt_preserves : preserves Vogler.get_prompt.
Proof. unfold Vogler.get_prompt. preserving. Qed.

(** *** The keyword analysis of one stage *)

Lemma stage_step_unfold w e ep st wk :
  stage_step w e (ep, st, wk)
  = (Dict.set ep (Vogler.element_name e) (is_present w e),
     if is_present w e then List.app st [strength_note e] else st,
     if is_present w e then wk else List.app wk [weakness_note e]).
Proof. unfold stage_step. now destruct (is_present w e). Qed.

Lemma stage_step_fold (w : string) (es : list Vogler.StageElement) :
  forall ep st wk,
    fold_left (fun acc e => stage_step w e acc) es (ep, st, wk)
    = (marks w es ep,
       List.app st (map strength_note (filter (is_present w) es)),
       List.app wk
         (map weakness_note (filter (fun e => negb (is_present w e)) es))).
Proof.
  induction es as [| e es IH]; intros ep st wk.
  - simpl. now rewrite !app_nil_r.
  - cbn [fold_left]. rewrite (stage_step_unfold w e ep st wk), IH.
    unfold marks. cbn [fold_left filter].
    destruct (is_present w e); simpl; rewrite <- ?app_assoc; reflexivity.
Qed.

Lemma nonzero_length {A} (x : A) (xs : list A) :
  Qeq_bool (inject_Z (Z.of_nat (List.length (x :: xs)))) 0 = false.
Proof. reflexivity. Qed.

(** [_analyze_stage] raises on a stage without elements, and otherwise
    returns the analysis of the window of the stage. *)
Lemma vogler_analyze_stage_run stage content c :
  Vogler._analyze_stage stage content c
  = (match Vogler.elements stage with
     | [] => Raise ZeroDivisionError
     | _ :: _ =>
         Ok (stage_analysis_of
               (Dict.get_default content (Vogler.stage_key stage) "")
               (Vogler.elements stage))
     end, c).
Proof.
  unfold Vogler._analyze_stage, bind.
  set (w := Dict.get_default content (Vogler.stage_key stage) "").
  rewrite (for_each_pure _ (stage_step w)).
  2:{ intros x [[ep st] wk]. unfold stage_step. fold (is_present w x).
      destruct (is_present w x); reflexivity. }
  rewrite stage_step_fold. simpl List.app.
  destruct (Vogler.elements stage) as [| e es] eqn:He; [reflexivity |].
  unfold truediv. rewrite nonzero_length. reflexivity.
Qed.

(** With distinct names, the marks are those of the elements, in order. *)
Lemma marks_distinct (w : string) (es : list Vogler.StageElement) :
  forall d,
    (forall e, In e es -> Dict.get d (Vogler.element_name e) = None) ->
    NoDup (map Vogler.element_name es) ->
    marks w es d
    = List.app d
        (map (fun e => (Vogler.element_name e, is_present w e)) es).
Proof.
  unfold marks.
  induction es as [| e es IH]; intros d Hd Hnd; simpl.
  - now rewrite app_nil_r.
  - inversion Hnd as [| ? ? He Hes]; subst.
    rewrite dict_set_absent by (apply Hd; now left).
    rewrite IH; [now rewrite <- app_assoc | | exact Hes].
    intros e' He'. apply dict_get_app_absent; [apply Hd; now right |].
    intros E. apply He. rewrite <- E. now apply in_map.
Qed.

Lemma is_present_iff (w : string) (e : Vogler.StageElement) :
  is_present w e = true
  <-> exists keyword,
        In keyword (Vogler.keywords e)
        /\ written_small keyword = true
        /\ occurs_ignoring_case keyword w.
Proof.
  unfold is_present. rewrite existsb_exists.
  split; intros (kw & Hin & H); exists kw; (split; [exact Hin |]);
    now apply (contains_lower_iff kw w).
Qed.

(** The window that [content.get(key, "")] reads. *)
Lemma window_of_get_default (content : Dict.t string) (key window : string) :
  window_of content key window ->
  Dict.get_default content key "" = window.
Proof.
  unfold Dict.get_default.
  intros [before w rest -> Hnot | Hnot].
  - induction before as [| [k v] before IH]; simpl.
    + now rewrite String.eqb_refl.
    + destruct (String.eqb_spec key k) as [-> | _].
      * exfalso. apply Hnot. now left.
      * apply IH. intros H. apply Hnot. now right.
  - induction content as [| [k v] content IH]; simpl; [reflexivity |].
    destruct (String.eqb_spec key k) as [-> | _].
    + exfalso. apply Hnot. now left.
    + apply IH. intros H. apply Hnot. now right.
Qed.

(** What [_analyze_stage] returns for a stage with an element and distinct
    element names. *)
Lemma vogler_analyze_stage_spec stage content c :
  well_formed_stage stage ->
  let window := Dict.get_default content (Vogler.stage_key stage) "" in
  exists analysis,
    Vogler._analyze_stage stage content c = (Ok analysis, c)
    /\ Dict.keys (Vogler.elements_present analysis)
       = map Vogler.element_name (Vogler.elements stage)
    /\ (forall element, In element (Vogler.elements stage) ->
          Dict.get (Vogler.elements_present analysis)
            (Vogler.element_name element)
          = Some (marked analysis element)
          /\ marked analysis element = is_present window element)
    /\ Vogler.score analysis
       = Qred (inject_Z (Z.of_nat (List.length
                 (filter (marked analysis) (Vogler.elements stage))))
               / inject_Z (Z.of_nat (List.length (Vogler.elements stage))))
    /\ Vogler.strengths analysis
       = map strength_note
           (filter (marked analysis) (Vogler.elements stage))
    /\ Vogler.weaknesses analysis
       = map weakness_note
           (filter (fun e => negb (marked analysis e))
              (Vogler.elements stage)).
Proof.
  intros [Hnd Hne] window.
  rewrite vogler_analyze_stage_run. fold window.
  destruct (Vogler.elements stage) as [| e0 es0] eqn:He; [congruence |].
  rewrite <- He in *. clear Hne.
  set (es := Vogler.elements stage) in *.
  exists (stage_analysis_of window es).
  assert (Hmarks : marks window es []
                   = map (fun e => (Vogler.element_name e,
                                    is_present window e)) es)
    by (now rewrite marks_distinct).
  assert (Hmarked : forall e, In e es ->
            marked (stage_analysis_of window es) e = is_present window e).
  { intros e Hin. unfold marked, Dict.get_default. simpl. rewrite Hmarks.
    now rewrite (dict_get_map Vogler.element_name (is_present window)). }
  split; [reflexivity |]. split; [| split; [| split; [| split]]].
  - simpl. rewrite Hmarks. unfold Dict.keys. rewrite map_map. reflexivity.
  - intros e Hin. rewrite (Hmarked e Hin). split; [| reflexivity].
    simpl. rewrite Hmarks.
    now apply (dict_get_map Vogler.element_name (is_present window)).
  - simpl. rewrite Hmarks. unfold Dict.values.
    rewrite map_map, count_true_map. simpl.
    now rewrite (filter_ext_in _ _ _ Hmarked).
  - simpl. now rewrite (filter_ext_in _ _ _ Hmarked).
  - simpl. f_equal. apply filter_ext_in. intros e Hin.
    now rewrite (Hmarked e Hin).
Qed.

(** C3: for every stage that has an element and whose elements have distinct
    names, and for the window that the content holds for the stage,
    [_analyze_stage] marks an element present exactly when one of its
    keywords is written without capital letters and occurs in the window up
    to case: the window is lower-cased, the keywords are compared as they
    are written.  The score is the number of the elements marked present
    over the number of elements; there is one strength note for each element
    marked present and one weakness note for each other element.  The
    characters are code points below 256. *)
Theorem vogler_stage_keyword_marks (stage : Vogler.Stage)
  (content : Dict.t string) (window : string) (c : Vogler.Class) :
  well_formed_stage stage ->
  window_of content (Vogler.stage_key stage) window ->
  exists analysis,
    Vogler._analyze_stage stage content c = (Ok analysis, c)
    /\ Dict.keys (Vogler.elements_present analysis)
       = map Vogler.element_name (Vogler.elements stage)
    /\ (forall element, In element (Vogler.elements stage) ->
          Dict.get (Vogler.elements_present analysis)
            (Vogler.element_name element)
          = Some (marked analysis element)
          /\ (marked analysis element = true
              <-> exists keyword,
                    In keyword (Vogler.keywords element)
                    /\ written_small keyword = true
                    /\ occurs_ignoring_case keyword window))
    /\ (Vogler.score analysis
        == inject_Z (Z.of_nat (List.length
              (filter (marked analysis) (Vogler.elements stage))))
           / inject_Z (Z.of_nat (List.length (Vogler.elements stage))))%Q
    /\ Vogler.strengths analysis
       = map strength_note
           (filter (marked analysis) (Vogler.elements stage))
    /\ Vogler.weaknesses analysis
       = map weakness_note
           (filter (fun e => negb (marked analysis e))
              (Vogler.elements stage)).
Proof.
  intros Hwf Hwindow.
  destruct (vogler_analyze_stage_spec stage content c Hwf)
    as (analysis & Hrun & Hkeys & Hmarks & Hscore & Hst & Hwk).
  rewrite (window_of_get_default _ _ _ Hwindow) in Hmarks.
  exists analysis. split; [exact Hrun |]. split; [exact Hkeys |].
  split; [| split; [| split; assumption]].
  - intros element Hin. destruct (Hmarks element Hin) as [Hget Hmark].
    split; [exact Hget |]. rewrite Hmark. apply is_present_iff.
  - rewrite Hscore. apply Qred_correct.
Qed.

(** *** The score is a fraction *)

Lemma marks_length (w : string) (es : list Vogler.StageElement) :
  forall d,
    (List.length (marks w es d) <= List.length d + List.length es)%nat.
Proof.
  unfold marks. induction es as [| e es IH]; intros d; simpl; [lia |].
  etransitivity; [apply IH |].
  assert (H : forall (V : Type) (d : Dict.t V) k v,
             (List.length (Dict.set d k v) <= S (List.length d))%nat).
  { intros V d0 k v. induction d0 as [| [k' v'] d0 IHd]; simpl; [lia |].
    destruct (String.eqb k k'); simpl; lia. }
  specialize (H bool d (Vogler.element_name e) (is_present w e)). lia.
Qed.

Lemma fraction_in_unit (k n : nat) :
  (k <= n)%nat -> (0 < n)%nat ->
  (0 <= Qred (inject_Z (Z.of_nat k) / inject_Z (Z.of_nat n)) <= 1)%Q.
Proof.
  intros Hk Hn. rewrite Qred_correct.
  assert (Hpos : (0 < inject_Z (Z.of_nat n))%Q).
  { rewrite <- (Zlt_Qlt 0). lia. }
  split.
  - apply Qle_shift_div_l; [exact Hpos |]. rewrite Qmult_0_l.
    rewrite <- (Zle_Qle 0). lia.
  - apply Qle_shift_div_r; [exact Hpos |]. rewrite Qmult_1_l.
    rewrite <- Zle_Qle. lia.
Qed.

(** Whenever [_analyze_stage] returns, its score lies between 0 and 1. *)
Lemma stage_score_in_unit (w : string) (e : Vogler.StageElement)
  (es : list Vogler.StageElement) :
  (0 <= Vogler.score (stage_analysis_of w (e :: es)) <= 1)%Q.
Proof.
  unfold stage_analysis_of, Vogler.score. apply fraction_in_unit.
  - etransitivity; [apply filter_length_le |].
    unfold Dict.values. rewrite length_map.
    apply (marks_length w (e :: es) []).
  - simpl. lia.
Qed.


(** *** The loaded class, step by step *)

(** The partition of the loaded class: one window, the first twelfth. *)
Lemma vogler_split_load (text : string) :
  Vogler._split_into_stages text Vogler.module_load
  = (Ok [("ordinary_world", first_window text)], Vogler.module_load).
Proof.
  transitivity
    (@Ok (Dict.t string)
       [("ordinary_world",
         Str.slice text (0 * (Str.len text / 12))
           (1 * (Str.len text / 12)))],
     Vogler.module_load); [reflexivity |].
  unfold first_window. now rewrite Z.mul_0_l, Z.mul_1_l.
Qed.

Lemma vogler_world_ordinary_load (w : string) :
  Vogler._analyze_world Vogler.ORDINARY [("ordinary_world", w)]
    Vogler.module_load
  = (Ok (Vogler.VDict [
       ("strength",
        Vogler.VFloat (Qred (inject_Z (Str.len w) / inject_Z 1000)));
       ("balance", Vogler.VFloat 1);
       ("transitions", Vogler.VDict [
          ("clarity", Vogler.VFloat (4 # 5));
          ("impact", Vogler.VFloat (7 # 10));
          ("smoothness", Vogler.VFloat (9 # 10))])]),
     Vogler.module_load).
Proof. reflexivity. Qed.

Lemma vogler_world_special_load (w : string) :
  Vogler._analyze_world Vogler.SPECIAL [("ordinary_world", w)]
    Vogler.module_load
  = (Ok (Vogler.VDict [
       ("strength", Vogler.VFloat 0);
       ("balance", Vogler.VFloat 0);
       ("transitions", Vogler.VDict [
          ("clarity", Vogler.VFloat (4 # 5));
          ("impact", Vogler.VFloat (7 # 10));
          ("smoothness", Vogler.VFloat (9 # 10))])]),
     Vogler.module_load).
Proof. reflexivity. Qed.

(** The strength of a window: zero for the empty window only. *)
Lemma strength_zero (n : Z) :
  0 <= n ->
  let s := Qred (inject_Z n / inject_Z 1000) in
  (n = 0 /\ s = 0%Q)
  \/ (0 < n /\ Qle_bool s 0 = false /\ Qle_bool 0 s = true
      /\ Qeq_bool s 0 = false).
Proof.
  intros Hn s. destruct (Z.eq_dec n 0) as [-> | Hne]; [now left |].
  right. assert (Hpos : (0 < s)%Q).
  { subst s. rewrite Qred_correct. apply Qlt_shift_div_l; [reflexivity |].
    rewrite Qmult_0_l, <- (Zlt_Qlt 0). lia. }
  split; [lia |]. repeat split.
  - destruct (Qle_bool s 0) eqn:E; [| reflexivity].
    apply Qle_bool_iff in E. exfalso. apply (Qlt_not_le _ _ Hpos E).
  - apply Qle_bool_iff. now apply Qlt_le_weak.
  - destruct (Qeq_bool s 0) eqn:E; [| reflexivity].
    apply Qeq_bool_iff in E. rewrite E in Hpos. discriminate.
Qed.

(** The balance of the loaded class: no quotient for an empty first window,
    and zero otherwise, the special world being empty. *)
Lemma vogler_world_balance_load (w : string) :
  Vogler._analyze_world_balance [("ordinary_world", w)] Vogler.module_load
  = (if Str.len w =? 0 then Raise ZeroDivisionError else Ok 0%Q,
     Vogler.module_load).
Proof.
  unfold Vogler._analyze_world_balance, bind.
  rewrite vogler_world_ordinary_load, vogler_world_special_load.
  cbn [Vogler.getitem Vogler.as_number Dict.get String.eqb Ascii.eqb
       Bool.eqb ret].
  set (s := Qred (inject_Z (Str.len w) / inject_Z 1000)).
  destruct (strength_zero (Str.len w) (len_nonneg w))
    as [[Hn Hs] | (Hn & Hle & Hge & Hne)];
    fold s in Hs || fold s in Hle, Hge, Hne.
  - rewrite Hs, Hn. reflexivity.
  - unfold Vogler.py_min, Vogler.py_max, truediv.
    rewrite Hle, Hge. cbn [negb]. rewrite Hne.
    destruct (Z.eqb_spec (Str.len w) 0) as [E | _]; [lia |].
    reflexivity.
Qed.

Lemma vogler_overall_load (w : string) :
  exists overall,
    Vogler._analyze_overall_structure [("ordinary_world", w)]
      Vogler.module_load
    = (if Str.len w =? 0 then Raise ZeroDivisionError else Ok overall,
       Vogler.module_load).
Proof.
  unfold Vogler._analyze_overall_structure, Vogler._get_stage_analyses,
    comprehension, bind, attr.
  cbn [Vogler.STAGES Vogler.module_load for_each].
  unfold bind. rewrite vogler_analyze_stage_run.
  cbn [Vogler.elements ret List.app map].
  unfold truediv at 1. change (Qeq_bool _ 0) with false. cbn [ret].
  rewrite vogler_world_balance_load.
  eexists. destruct (Str.len w =? 0); reflexivity.
Qed.

(** On the loaded class [analyze] returns for no text: the balance has no
    quotient when the text has fewer than twelve characters, and otherwise
    [visualize] asks a [StageAnalysis] for a method it does not have. *)
Lemma vogler_analyze_load (text : string) :
  Vogler.analyze display_name text Vogler.module_load
  = (Raise (if Str.len text <? 12 then ZeroDivisionError
            else AttributeError),
     Vogler.module_load).
Proof.
  unfold Vogler.analyze, bind.
  rewrite vogler_split_load.
  rewrite vogler_world_ordinary_load, vogler_world_special_load.
  cbn [attr Vogler.STAGES Vogler.module_load for_each].
  unfold bind. rewrite vogler_analyze_stage_run.
  cbn [Vogler.elements Vogler.getitem Vogler.setitem Dict.get Dict.set
       String.eqb Ascii.eqb Bool.eqb ret Vogler.name].
  destruct (vogler_overall_load (first_window text)) as [overall ->].
  rewrite len_first_window.
  pose proof (len_nonneg text) as Hn.
  destruct (Z.eqb_spec (Str.len text / 12) 0) as [E | E];
    destruct (Z.ltb_spec (Str.len text) 12) as [L | L].
  - reflexivity.
  - exfalso. assert (1 <= Str.len text / 12)
      by (apply Z.div_le_lower_bound; lia). lia.
  - exfalso. apply E. apply Z.div_small. lia.
  - reflexivity.
Qed.

(** C1, on the code: the quotient of the balance is not guarded.  For a
    text of fewer than twelve characters both strengths are zero, the
    balance raises [ZeroDivisionError], and so does [analyze]. *)
Theorem vogler_world_balance_unguarded (text : string) :
  Str.len text < 12 ->
  exists content,
    Vogler._split_into_stages text Vogler.module_load
      = (Ok content, Vogler.module_load)
    /\ Vogler._analyze_world_balance content Vogler.module_load
       = (Raise ZeroDivisionError, Vogler.module_load)
    /\ Vogler.analyze display_name text Vogler.module_load
       = (Raise ZeroDivisionError, Vogler.module_load).
Proof.
  intros Hlen. exists [("ordinary_world", first_window text)].
  split; [apply vogler_split_load |]. split.
  - rewrite vogler_world_balance_load, len_first_window.
    rewrite Z.div_small by (pose proof (len_nonneg text); lia).
    reflexivity.
  - rewrite vogler_analyze_load.
    destruct (Z.ltb_spec (Str.len text) 12); [reflexivity | lia].
Qed.

(** C2, on the code: the loaded catalog has one stage of the twelve, so the
    partition has one window, the first twelfth of the text, and the
    windows do not make up the text again. *)
Theorem vogler_split_single_window :
  (forall text,
     exists content,
       Vogler._split_into_stages text Vogler.module_load
         = (Ok content, Vogler.module_load)
       /\ windows content = [first_window text]
       /\ Str.len (Str.join "" (windows content)) = Str.len text / 12)
  /\ (let text := "abcdefghijklmnopqrstuvwxyz" in
      exists content,
        Vogler._split_into_stages text Vogler.module_load
          = (Ok content, Vogler.module_load)
        /\ content = [("ordinary_world", "ab")]
        /\ Z.of_nat (List.length (windows content))
           <> Vogler.TOTAL_STAGES Vogler.module_load
        /\ Str.join "" (windows content) <> text).
Proof.
  split.
  - intros text. exists [("ordinary_world", first_window text)].
    split; [apply vogler_split_load |]. split; [reflexivity |].
    apply len_first_window.
  - eexists. split; [reflexivity |]. split; [reflexivity |].
    split; discriminate.
Qed.

(** *** The partition on a catalog of the declared size

    The loaded catalog apart, the loop of [_split_into_stages] does cut the
    text into consecutive windows that make it up again, whenever the
    catalog has [TOTAL_STAGES] stages with distinct keys. *)

Lemma vogler_split_run (text : string) (c : Vogler.Class) :
  Vogler.TOTAL_STAGES c <> 0 ->
  Vogler._split_into_stages text c
  = (Ok (fst (fold_left (fun acc stage => split_step c text stage acc)
                (Vogler.STAGES c) ([], 0))), c).
Proof.
  intros HT. unfold Vogler._split_into_stages, bind, attr, Vogler.floordiv.
  destruct (Z.eqb_spec (Vogler.TOTAL_STAGES c) 0) as [E | _]; [contradiction |].
  cbn [ret]. rewrite (for_each_pure _ (split_step c text)).
  - now destruct (fold_left _ _ _).
  - intros stage [d i]. reflexivity.
Qed.

Lemma combine_keys {V} (ks : list string) :
  forall vs : list V,
    List.length ks = List.length vs ->
    Dict.keys (combine ks vs) = ks /\ Dict.values (combine ks vs) = vs.
Proof.
  unfold Dict.keys, Dict.values.
  induction ks as [| k ks IH]; intros [| v vs] H; simpl in *;
    try discriminate; [now split |].
  destruct (IH vs) as [-> ->]; [lia | now split].
Qed.

Lemma length_count_from (n : nat) :
  forall k, List.length (count_from k n) = n.
Proof. induction n as [| n IH]; intros k; simpl; [| rewrite IH]; reflexivity. Qed.

Lemma split_step_fold (c : Vogler.Class) (text : string)
  (stages : list Vogler.Stage) :
  forall d k,
    (forall stage, In stage stages ->
       Dict.get d (Vogler.stage_key stage) = None) ->
    NoDup (map Vogler.stage_key stages) ->
    fst (fold_left (fun acc stage => split_step c text stage acc) stages (d, k))
    = List.app d
        (combine (map Vogler.stage_key stages)
           (map (window_at c text) (count_from k (List.length stages)))).
Proof.
  induction stages as [| stage stages IH]; intros d k Hd Hnd; simpl.
  - now rewrite app_nil_r.
  - inversion Hnd as [| ? ? Hs Hss]; subst.
    rewrite dict_set_absent by (apply Hd; now left).
    rewrite IH; [now rewrite <- app_assoc | | exact Hss].
    intros stage' Hin. apply dict_get_app_absent; [apply Hd; now right |].
    intros E. apply Hs. rewrite <- E. now apply in_map.
Qed.

Lemma windows_make_text (c : Vogler.Class) (text : string) (m : nat) :
  forall k,
    0 <= k -> k + Z.of_nat (S m) = Vogler.TOTAL_STAGES c ->
    Str.join "" (map (window_at c text) (count_from k (S m)))
    = string_of_list_ascii
        (skipn (Z.to_nat (k * (Str.len text / Vogler.TOTAL_STAGES c)))
           (list_ascii_of_string text)).
Proof.
  pose proof (len_nonneg text) as HL.
  induction m as [| m IH]; intros k Hk HT.
  - assert (HTpos : 0 < Vogler.TOTAL_STAGES c) by lia.
    pose proof (Z.mul_div_le (Str.len text) _ HTpos) as Hq.
    pose proof (Z.div_pos (Str.len text) _ HL HTpos) as Hq0.
    simpl. unfold window_at.
    destruct (Z.ltb_spec k (Vogler.TOTAL_STAGES c - 1)); [lia |].
    apply slice_to_end. nia.
  - assert (HTpos : 0 < Vogler.TOTAL_STAGES c) by lia.
    pose proof (Z.mul_div_le (Str.len text) _ HTpos) as Hq.
    pose proof (Z.div_pos (Str.len text) _ HL HTpos) as Hq0.
    change (count_from k (S (S m))) with (k :: count_from (k + 1) (S m)).
    cbn [map]. rewrite join_empty_cons, IH by lia.
    unfold window_at.
    destruct (Z.ltb_spec k (Vogler.TOTAL_STAGES c - 1)); [| lia].
    apply slice_then_rest; nia.
Qed.

Lemma vogler_split_complete_catalog (text : string) (c : Vogler.Class) :
  Vogler.TOTAL_STAGES c = Z.of_nat (List.length (Vogler.STAGES c)) ->
  Vogler.STAGES c <> [] ->
  NoDup (map Vogler.stage_key (Vogler.STAGES c)) ->
  exists content,
    Vogler._split_into_stages text c = (Ok content, c)
    /\ Dict.keys content = map Vogler.stage_key (Vogler.STAGES c)
    /\ windows content
       = map (window_at c text)
           (count_from 0 (List.length (Vogler.STAGES c)))
    /\ List.length (windows content) = List.length (Vogler.STAGES c)
    /\ Str.join "" (windows content) = text.
Proof.
  intros HT Hne Hnd.
  destruct (Vogler.STAGES c) as [| stage stages] eqn:Hst; [congruence |].
  rewrite <- Hst in *. clear Hne.
  assert (Hlen : List.length (Vogler.STAGES c) = S (List.length stages))
    by now rewrite Hst.
  rewrite vogler_split_run by lia.
  rewrite split_step_fold; [| reflexivity | exact Hnd]. simpl List.app.
  eexists. split; [reflexivity |].
  destruct (combine_keys (map Vogler.stage_key (Vogler.STAGES c))
              (map (window_at c text)
                 (count_from 0 (List.length (Vogler.STAGES c)))))
    as [Hk Hv].
  { now rewrite !length_map, length_count_from. }
  unfold windows. rewrite Hk, Hv. repeat split.
  - now rewrite length_map, length_count_from.
  - rewrite Hlen, windows_make_text by lia.
    simpl. apply string_of_list_ascii_of_string.
Qed.

(** *** [analyze] on any catalog

    That [analyze] returns no result does not come from the catalog that is
    loaded: on a class without stages a quotient by their number raises, and
    on any other [visualize] meets the [StageAnalysis] of its first stage. *)

Lemma holds_stage_analyses_set analysis names stage sa stages_analysis :
  Dict.get analysis "stages" = Some (Vogler.VDict stages_analysis) ->
  holds_stage_analyses analysis names ->
  holds_stage_analyses
    (Dict.set analysis "stages"
       (Vogler.VDict
          (Dict.set stages_analysis (Vogler.name stage)
             (Vogler.VStageAnalysis sa))))
    (Vogler.name stage :: names).
Proof.
  intros Hget (sd & Hsd & Hvalues & Hnames).
  rewrite Hget in Hsd. injection Hsd as <-.
  eexists. split; [apply dict_get_set_same |]. split.
  - intros k v. destruct (string_dec k (Vogler.name stage)) as [-> | Hk].
    + rewrite dict_get_set_same. intros [= <-]. now exists sa.
    + rewrite dict_get_set_other by exact Hk. apply Hvalues.
  - intros n [<- | Hin].
    + now rewrite dict_get_set_same.
    + destruct (string_dec n (Vogler.name stage)) as [-> | Hn].
      * now rewrite dict_get_set_same.
      * rewrite dict_get_set_other by exact Hn. now apply Hnames.
Qed.

(** The loop of [analyze] over the stages keeps the shape of the
    dictionary and enters every stage it passes. *)
Lemma analyze_loop_holds (formatted_structure : Dict.t string)
  (c : Vogler.Class) (stages : list Vogler.Stage) :
  forall analysis names,
    holds_stage_analyses analysis names ->
    match
      for_each stages
        (fun stage analysis =>
           bind (Vogler._analyze_stage stage formatted_structure)
             (fun stage_analysis =>
                bind (Vogler.getitem (Vogler.VDict analysis) "stages")
                  (fun stages_analysis =>
                     bind (Vogler.setitem stages_analysis (Vogler.name stage)
                             (Vogler.VStageAnalysis stage_analysis))
                       (fun stages_analysis =>
                          ret (Dict.set analysis "stages" stages_analysis)))))
        analysis c
    with
    | (Ok analysis', c') =>
        c' = c
        /\ holds_stage_analyses analysis'
             (List.app (rev (map Vogler.name stages)) names)
    | (Raise _, c') => c' = c
    end.
Proof.
  induction stages as [| stage stages IH]; intros analysis names Hinv.
  - simpl. now split.
  - cbn [for_each]. unfold bind at 1. unfold bind at 1.
    rewrite vogler_analyze_stage_run.
    destruct (Vogler.elements stage) as [| e es]; [reflexivity |].
    destruct Hinv as (sd & Hsd & Hrest).
    unfold bind at 1. cbn [Vogler.getitem]. rewrite Hsd. cbn [ret].
    unfold bind at 1. cbn [Vogler.setitem ret].
    match goal with
    | |- context [Vogler.VStageAnalysis ?sa] =>
        specialize (IH _ (Vogler.name stage :: names)
                      (holds_stage_analyses_set analysis names stage sa sd Hsd
                         (ex_intro _ sd (conj Hsd Hrest))))
    end.
    destruct (for_each stages _ _ c) as [[analysis' | e'] c']; [| exact IH].
    destruct IH as [-> IH]. split; [reflexivity |].
    cbn [map rev]. now rewrite <- app_assoc.
Qed.

Lemma vogler_visualize_stage_analysis (analysis : Dict.t Vogler.pyval)
  (c : Vogler.Class) (stage : Vogler.Stage) (stages : list Vogler.Stage) :
  Vogler.STAGES c = stage :: stages ->
  holds_stage_analyses analysis (map Vogler.name (Vogler.STAGES c)) ->
  Vogler.visualize (Vogler.VDict analysis) c = (Raise AttributeError, c).
Proof.
  intros Hst (sd & Hsd & Hvalues & Hnames).
  specialize (Hnames (Vogler.name stage)). rewrite Hst in Hnames.
  destruct (Dict.get sd (Vogler.name stage)) as [v |] eqn:Hv;
    [| exfalso; apply Hnames; [now left | reflexivity]].
  destruct (Hvalues _ _ Hv) as [sa ->].
  unfold Vogler.visualize, bind, attr. rewrite Hst. cbn [for_each].
  unfold bind.
  repeat (progress (unfold Dict.get_default; cbn [Vogler.py_get ret];
                    rewrite ?Hsd, ?Hv)).
  reflexivity.
Qed.

Lemma vogler_analyze_world_no_stages world content (c : Vogler.Class) :
  Vogler.STAGES c = [] ->
  Vogler._analyze_world world content c = (Raise ZeroDivisionError, c).
Proof.
  intros Hst. unfold Vogler._analyze_world, bind, attr. rewrite Hst.
  unfold truediv at 1. change (Qeq_bool (inject_Z 1000) 0) with false.
  cbn [ret]. rewrite Hst. reflexivity.
Qed.

(** Whatever the catalog of the class, [analyze] raises. *)
Lemma vogler_analyze_never_returns (text : string) (c : Vogler.Class) :
  exists e, Vogler.analyze display_name text c = (Raise e, c).
Proof.
  unfold Vogler.analyze. unfold bind at 1.
  rewrite (preserves_run _ (vogler_split_preserves text) c).
  destruct (value (Vogler._split_into_stages text c)) as [content | e];
    [| now exists e].
  destruct (Vogler.STAGES c) as [| stage stages] eqn:Hst.
  { unfold bind. rewrite vogler_analyze_world_no_stages by exact Hst.
    now eexists. }
  unfold bind at 1.
  rewrite (preserves_run _ (vogler_analyze_world_preserves _ content) c).
  destruct (value (Vogler._analyze_world Vogler.ORDINARY content c))
    as [ordinary | e]; [| now exists e].
  unfold bind at 1.
  rewrite (preserves_run _ (vogler_analyze_world_preserves _ content) c).
  destruct (value (Vogler._analyze_world Vogler.SPECIAL content c))
    as [special | e]; [| now exists e].
  unfold bind at 1. unfold attr at 1. unfold bind at 1.
  match goal with
  | |- context [for_each ?l _ ?analysis c] =>
      assert (Hinit : holds_stage_analyses analysis [])
        by (exists []; split; [reflexivity |]; split;
            [intros k v H; discriminate H | intros n []]);
      pose proof (analyze_loop_holds content c l analysis [] Hinit) as Hloop
  end.
  cbv zeta in Hloop.
  destruct (for_each _ _ _ c) as [[analysis | e] c'].
  2:{ exists e. now rewrite Hloop. }
  destruct Hloop as [-> Hloop].
  unfold bind at 1.
  rewrite (preserves_run _ (vogler_overall_preserves content) c).
  destruct (value (Vogler._analyze_overall_structure content c))
    as [overall | e]; [| now exists e].
  unfold bind at 1. unfold Vogler.structure_type at 1, ret at 1.
  unfold bind at 1.
  rewrite (vogler_visualize_stage_analysis _ c stage stages Hst).
  - now eexists.
  - destruct Hloop as (sd & Hsd & Hvalues & Hnames).
    exists sd. split; [| split].
    + rewrite dict_get_set_other by discriminate. exact Hsd.
    + exact Hvalues.
    + intros n Hn. apply Hnames. now rewrite app_nil_r, <- in_rev.
Qed.

End VoglerProperties.

(** ** Both structures *)

Section Structures.

Context {F : Float} {P : Repr F}.
Variable display_name : string.

Lemma harmon_after_same (k : harmon_call) (c : Harmon.Class) :
  harmon_after display_name k c = c.
Proof.
  destruct k; unfold harmon_after.
  - reflexivity.
  - apply harmon_analyze_preserves.
  - apply harmon_analyze_step_preserves.
  - apply harmon_evaluate_preserves.
  - apply harmon_position_preserves.
  - apply harmon_visualize_preserves.
  - apply harmon_get_prompt_preserves.
Qed.

Lemma vogler_after_same (k : vogler_call) (c : Vogler.Class) :
  vogler_after display_name k c = c.
Proof.
  destruct k; unfold vogler_after.
  - reflexivity.
  - apply vogler_analyze_preserves.
  - apply vogler_split_preserves.
  - apply vogler_analyze_stage_preserves.
  - apply vogler_analyze_world_preserves.
  - apply vogler_transitions_preserves.
  - apply vogler_overall_preserves.
  - apply vogler_visualize_preserves.
  - apply vogler_color_preserves.
  - apply vogler_get_prompt_preserves.
  - apply vogler_get_stage_analyses_preserves.
  - apply vogler_world_balance_preserves.
  - apply vogler_narrative_flow_preserves.
Qed.

(** C8: in each catalog the numbers of the stages are 1, 2, ... up to the
    number of stages; and after any sequence of calls of the methods of a
    class its attributes, the catalog among them, are what they were. *)
Theorem catalogs_contiguous_and_unchanged :
  map Harmon.number (Harmon.STORY_STEPS Harmon.module_load)
    = map Z.of_nat
        (seq 1 (List.length (Harmon.STORY_STEPS Harmon.module_load)))
  /\ map Vogler.number (Vogler.STAGES Vogler.module_load)
     = map Z.of_nat (seq 1 (List.length (Vogler.STAGES Vogler.module_load)))
  /\ (forall (calls : list harmon_call) (c : Harmon.Class),
        fold_left (fun c k => harmon_after display_name k c) calls c = c)
  /\ (forall (calls : list vogler_call) (c : Vogler.Class),
        fold_left (fun c k => vogler_after display_name k c) calls c = c).
Proof.
  split; [reflexivity |]. split; [reflexivity |]. split.
  - induction calls as [| k calls IH]; intros c; simpl; [reflexivity |].
    now rewrite harmon_after_same.
  - induction calls as [| k calls IH]; intros c; simpl; [reflexivity |].
    now rewrite vogler_after_same.
Qed.

(** C9: a second call of [visualize] with the same argument, in the state
    the first call leaves, has the outcome of the first: the same string
    when the first returned one.  Harmon's always returns one; Vogler's does
    on a dictionary that gives the score of a stage in a dictionary. *)
Theorem visualize_twice_same :
  (forall a c,
     exists html,
       Harmon.visualize a c = (Ok html, c)
       /\ Harmon.visualize a (state (Harmon.visualize a c)) = (Ok html, c))
  /\ (forall a c,
        Vogler.visualize a (state (Vogler.visualize a c))
        = Vogler.visualize a c)
  /\ (exists html,
        Vogler.visualize
          (Vogler.VDict [
             ("stages", Vogler.VDict [
                ("Ordinary World",
                 Vogler.VDict [("score", Vogler.VFloat (1 # 2))])])])
          Vogler.module_load
        = (Ok html, Vogler.module_load)).
Proof.
  split; [| split].
  - intros a c. destruct (harmon_visualize_total a c) as [html H].
    exists html. now rewrite H.
  - intros a c. now rewrite (vogler_visualize_preserves a c).
  - eexists. reflexivity.
Qed.

(** C10, on the code: the result of Harmon's [analyze] carries the
    visualization of its own structure, whereas Vogler's [analyze] returns
    no result, for any text: it raises [ZeroDivisionError] on a text of fewer
    than twelve characters and [AttributeError] on any other; nor would it
    return on another catalog. *)
Theorem analyze_visualization_of_structure :
  (forall text c,
     exists r,
       Harmon.analyze display_name text c = (Ok r, c)
       /\ Harmon.visualize (structure r) c = (Ok (visualization r), c))
  /\ (forall text,
        Vogler.analyze display_name text Vogler.module_load
        = (Raise (if Str.len text <? 12 then ZeroDivisionError
                  else AttributeError),
           Vogler.module_load))
  /\ (forall text c,
        exists e, Vogler.analyze display_name text c = (Raise e, c)).
Proof.
  split; [| split].
  - intros text c.
    destruct (harmon_analyze_run display_name text c) as (r & Hr & Hv & _).
    now exists r.
  - apply vogler_analyze_load.
  - apply vogler_analyze_never_returns.
Qed.

End Structures.

(** ** Instances on concrete inputs *)

(** Every text of the table is the text of a float. *)
Lemma printed_float_text (t : Printed.term) :
  float_text (Printed.print t) = true.
Proof.
  assert (Hrow : forall radius degrees,
            match Printed.lookup radius degrees Printed.table with
            | Some row => float_text (fst row) = true
                          /\ float_text (snd row) = true
            | None => True
            end).
  { intros radius degrees. unfold Printed.table, Printed.lookup.
    repeat match goal with
           | |- context [if ?b then _ else _] =>
               destruct b; [split; reflexivity |]
           end.
    exact I. }
  destruct t as [z | a b | a | a | a]; try reflexivity.
  destruct a as [radius | | | |]; try reflexivity.
  destruct b as [| | | a | a]; try reflexivity;
    (destruct a as [| | a | |]; try reflexivity;
     destruct a as [degrees | | | |]; try reflexivity;
     specialize (Hrow radius degrees)).
  - change (float_text
              match Printed.lookup radius degrees Printed.table with
              | Some row => fst row
              | None => "nan"
              end = true).
    destruct (Printed.lookup radius degrees Printed.table);
      [apply Hrow | reflexivity].
  - change (float_text
              match Printed.lookup radius degrees Printed.table with
              | Some row => snd row
              | None => "nan"
              end = true).
    destruct (Printed.lookup radius degrees Printed.table);
      [apply Hrow | reflexivity].
Qed.

(** The text [""] reaches the unguarded quotient. *)
Lemma vogler_world_balance_unguarded_witness :
  Str.len "" < 12
  /\ exists content,
       Vogler._split_into_stages "" Vogler.module_load
         = (Ok content, Vogler.module_load)
       /\ Vogler._analyze_world_balance content Vogler.module_load
          = (Raise ZeroDivisionError, Vogler.module_load)
       /\ Vogler.analyze (F := Printed.floats) (P := Printed.printer)
            "Hero's Journey" "" Vogler.module_load
          = (Raise ZeroDivisionError, Vogler.module_load).
Proof.
  split; [reflexivity |].
  apply (@vogler_world_balance_unguarded Printed.floats Printed.printer
           "Hero's Journey" "").
  reflexivity.
Defined.

(** A stage of two elements on a content that holds its window second: the
    keyword of the first element is there in capital letters, the second
    element has no keyword there. *)
Lemma vogler_stage_keyword_marks_witness :
  let mentor := plain_element "Mentor" ["guide"; "mentor"] in
  let gift := plain_element "Gift" ["gift"] in
  let stage :=
    plain_stage 4 "Meeting the Mentor" Vogler.SPECIAL [mentor; gift] in
  let content := [("ordinary_world", "A gift");
                  ("meeting_the_mentor", "The MENTOR arrives")] in
  well_formed_stage stage
  /\ window_of content (Vogler.stage_key stage) "The MENTOR arrives"
  /\ exists analysis,
       Vogler._analyze_stage stage content Vogler.module_load
       = (Ok analysis, Vogler.module_load)
       /\ Dict.keys (Vogler.elements_present analysis)
          = map Vogler.element_name (Vogler.elements stage)
       /\ (forall element, In element (Vogler.elements stage) ->
             Dict.get (Vogler.elements_present analysis)
               (Vogler.element_name element)
             = Some (marked analysis element)
             /\ (marked analysis element = true
                 <-> exists keyword,
                       In keyword (Vogler.keywords element)
                       /\ written_small keyword = true
                       /\ occurs_ignoring_case keyword "The MENTOR arrives"))
       /\ (Vogler.score analysis
           == inject_Z (Z.of_nat (List.length
                 (filter (marked analysis) (Vogler.elements stage))))
              / inject_Z (Z.of_nat (List.length (Vogler.elements stage))))%Q
       /\ Vogler.strengths analysis
          = map strength_note
              (filter (marked analysis) (Vogler.elements stage))
       /\ Vogler.weaknesses analysis
          = map weakness_note
              (filter (fun e => negb (marked analysis e))
                 (Vogler.elements stage)).
Proof.
  intros mentor gift stage content.
  assert (Hwf : well_formed_stage stage).
  { split; [repeat constructor; simpl; intuition discriminate
           | discriminate]. }
  assert (Hwindow : window_of content (Vogler.stage_key stage)
                      "The MENTOR arrives").
  { apply (window_held content (Vogler.stage_key stage)
             [("ordinary_world", "A gift")] "The MENTOR arrives" []);
      [reflexivity | simpl; intuition discriminate]. }
  split; [exact Hwf |]. split; [exact Hwindow |].
  exact (vogler_stage_keyword_marks stage content "The MENTOR arrives"
           Vogler.module_load Hwf Hwindow).
Defined.

(** What the analysis of that stage is: the keyword in capital letters is
    found, and the window of another stage is not searched. *)
Example vogler_stage_marks_computed :
  let mentor := plain_element "Mentor" ["guide"; "mentor"] in
  let gift := plain_element "Gift" ["gift"] in
  let stage :=
    plain_stage 4 "Meeting the Mentor" Vogler.SPECIAL [mentor; gift] in
  let content := [("ordinary_world", "A gift");
                  ("meeting_the_mentor", "The MENTOR arrives")] in
  Vogler._analyze_stage stage content Vogler.module_load
  = (Ok {| Vogler.elements_present := [("Mentor", true); ("Gift", false)];
           Vogler.strengths := ["Mentor is well established"];
           Vogler.weaknesses := ["Gift needs more development"];
           Vogler.score := 1 # 2 |},
     Vogler.module_load).
Proof. vm_compute. reflexivity. Qed.

(** C3, as stated, fails: a keyword written with a capital letter occurs in
    the window, and as it is written, yet its element is marked absent and
    gets a weakness note. *)
Lemma vogler_capital_keyword_not_marked :
  let mentor := plain_element "Mentor" ["Mentor"] in
  let stage := plain_stage 4 "Meeting the Mentor" Vogler.SPECIAL [mentor] in
  let content := [("meeting_the_mentor", "The Mentor arrives")] in
  window_of content (Vogler.stage_key stage) "The Mentor arrives"
  /\ In "Mentor" (Vogler.keywords mentor)
  /\ occurs_ignoring_case "Mentor" "The Mentor arrives"
  /\ Vogler._analyze_stage stage content Vogler.module_load
     = (Ok {| Vogler.elements_present := [("Mentor", false)];
              Vogler.strengths := [];
              Vogler.weaknesses := ["Mentor needs more development"];
              Vogler.score := 0 |},
        Vogler.module_load).
Proof.
  intros mentor stage content. split; [| split; [| split]].
  - apply (window_held content (Vogler.stage_key stage) []
             "The Mentor arrives" []);
      [reflexivity | simpl; tauto].
  - now left.
  - exists "The ", "Mentor", " arrives". split; reflexivity.
  - vm_compute. reflexivity.
Qed.


(** The layout as CPython prints it. *)
Lemma harmon_analyze_steps_and_markers_witness :
  (forall f : @float Printed.floats,
     float_text (@repr Printed.floats Printed.printer f) = true)
  /\ exists r,
       Harmon.analyze (F := Printed.floats) (P := Printed.printer)
         "Story Circle" "Once upon a time" Harmon.module_load
       = (Ok r, Harmon.module_load)
       /\ Dict.keys (Harmon.steps (structure r))
          = map Harmon.name (Harmon.STORY_STEPS Harmon.module_load)
       /\ List.length (Dict.keys (Harmon.steps (structure r))) = 8%nat
       /\ Str.count "<div class='step-number'>" (visualization r) = 8%nat
       /\ Str.count "step-number" (visualization r) = 9%nat
       /\ Str.count (Harmon.CSS_TEMPLATE Harmon.module_load)
            (visualization r)
          = 1%nat.
Proof.
  split; [exact printed_float_text |].
  apply (@harmon_analyze_steps_and_markers Printed.floats Printed.printer
           "Story Circle" "Once upon a time").
  exact printed_float_text.
Defined.

(** C7, as stated, fails: the token [step-number] is in the visualization
    nine times, not eight. *)
Lemma harmon_step_number_token_nine_times :
  exists r,
    Harmon.analyze (F := Printed.floats) (P := Printed.printer)
      "Story Circle" "Once upon a time" Harmon.module_load
    = (Ok r, Harmon.module_load)
    /\ Str.count "step-number" (visualization r) = 9%nat
    /\ Str.count "step-number" (visualization r) <> 8%nat.
Proof.
  eexists. split; [vm_compute; reflexivity |].
  split; [vm_compute; reflexivity | vm_compute; discriminate].
Qed.

(** The doubles of the model are those of CPython: the angles of the eight
    steps in radians are the angles of the table of the C library. *)
Example binary64_angles_of_the_steps :
  map (fun step_number =>
         Binary64.tabled
           (Binary64.radians (Binary64.of_int ((step_number - 1) * 45 - 90))))
    [1; 2; 3; 4; 5; 6; 7; 8]
  = map (fun row => Some (snd row)) Binary64.glibc.
Proof. vm_compute. reflexivity. Qed.

(** The positions of the eight steps at the default radius are the doubles
    that CPython prints as [9.184850993605149e-15, -150.0], and so on round
    the circle: step 1 is not at [0, -150] exactly. *)
Example binary64_positions_of_the_steps :
  let position step_number :=
    match
      value
        (Harmon._calculate_step_position_converting
           (F := Binary64.floats Binary64.glibc_cos Binary64.glibc_sin)
           step_number Harmon.default_radius Harmon.module_load)
    with
    | Ok (x, y) => Some (Qred (Binary64.value x), Qred (Binary64.value y))
    | Raise _ => None
    end in
  let d m e :=
    Qred (Binary64.value
            {| Binary64.mantissa := m; Binary64.exponent := e |}) in
  map position [1; 2; 3; 4; 5; 6; 7; 8]
  = [ Some (d 727698867190651 (-96), d (-75) 1);
      Some (d 1865933107185285 (-44), d (-7463732428741139) (-46));
      Some (d 75 1, d 0 0);
      Some (d 1865933107185285 (-44), d 7463732428741139 (-46));
      Some (d 727698867190651 (-96), d 75 1);
      Some (d (-7463732428741139) (-46), d 1865933107185285 (-44));
      Some (d (-75) 1, d 727698867190651 (-95));
      Some (d (-7463732428741141) (-46), d (-7463732428741139) (-46)) ].
Proof. vm_compute. reflexivity. Qed.

(** Step 1 at the default radius, with the cosine and the sine of the C
    library. *)
Lemma harmon_step_position_on_circle_witness :
  let degrees := (1 - 1) * (360 / 8) - 90 in
  let angle := Binary64.radians (Binary64.of_int degrees) in
  let cos_angle := Binary64.value (Binary64.glibc_cos angle) in
  let sin_angle := Binary64.value (Binary64.glibc_sin angle) in
  (Qabs (cos_angle * cos_angle + sin_angle * sin_angle - 1) <= 1 # 2 ^ 50)%Q
  /\ match
       Harmon._calculate_step_position_converting
         (F := Binary64.floats Binary64.glibc_cos Binary64.glibc_sin)
         1 150 Harmon.module_load
     with
     | (Ok (x, y), c') =>
         c' = Harmon.module_load
         /\ convertible degrees = true
         /\ convertible 150 = true
         /\ x = Binary64.mul (Binary64.of_int 150) (Binary64.glibc_cos angle)
         /\ y = Binary64.mul (Binary64.of_int 150) (Binary64.glibc_sin angle)
         /\ Harmon._calculate_step_position
              (F := Binary64.floats Binary64.glibc_cos Binary64.glibc_sin)
              1 150 Harmon.module_load
            = (Ok (x, y), Harmon.module_load)
         /\ (Qabs (Binary64.value x * Binary64.value x
                   + Binary64.value y * Binary64.value y
                   - inject_Z (150 * 150))
             <= (1 # 2 ^ 49) * inject_Z (150 * 150))%Q
     | (Raise e, c') =>
         c' = Harmon.module_load
         /\ e = OverflowError
         /\ (convertible degrees = false \/ convertible 150 = false)
     end
  /\ (1 = 1 -> degrees = -90).
Proof.
  intros degrees angle cos_angle sin_angle.
  assert (Hunit : (Qabs (cos_angle * cos_angle + sin_angle * sin_angle - 1)
                   <= 1 # 2 ^ 50)%Q)
    by (vm_compute; discriminate).
  split; [exact Hunit |].
  exact (harmon_step_position_on_circle Binary64.glibc_cos Binary64.glibc_sin
           1 150 Harmon.module_load Hunit).
Defined.

(** C5, as stated, fails: not every radius has a point.  The radius
    [10 ** 400] is beyond the range of a double, and the product of the
    radius and the cosine raises [OverflowError]. *)
Lemma harmon_step_position_radius_overflows :
  convertible (10 ^ 400) = false
  /\ Harmon._calculate_step_position_converting
       (F := Binary64.floats Binary64.glibc_cos Binary64.glibc_sin)
       1 (10 ^ 400) Harmon.module_load
     = (Raise OverflowError, Harmon.module_load).
Proof. split; vm_compute; reflexivity. Qed.

(** * Further properties *)

(** ** The partition of [_split_into_stages] on any class *)

Lemma dict_set_length {V} (d : Dict.t V) (k : string) (v : V) :
  (List.length (Dict.set d k v) <= S (List.length d))%nat.
Proof.
  induction d as [| [k' v'] d IH]; simpl; [lia |].
  destruct (String.eqb k k'); simpl; lia.
Qed.

Lemma dict_set_keys {V} (d : Dict.t V) (k : string) (v : V) :
  incl (Dict.keys (Dict.set d k v)) (k :: Dict.keys d).
Proof.
  unfold Dict.keys. induction d as [| [k' v'] d IH]; simpl.
  - apply incl_refl.
  - destruct (String.eqb k k') eqn:E; simpl.
    + apply incl_tl, incl_refl.
    + intros x [<- | Hx]; [right; now left |].
      destruct (IH x Hx) as [<- | Hin]; [now left | right; now right].
Qed.

Lemma split_fold_bounds (c : Vogler.Class) (text : string)
  (stages : list Vogler.Stage) :
  forall d k,
    let d' :=
      fst (fold_left (fun acc stage => split_step c text stage acc)
             stages (d, k)) in
    (List.length d' <= List.length d + List.length stages)%nat
    /\ incl (Dict.keys d')
         (List.app (Dict.keys d) (map Vogler.stage_key stages)).
Proof.
  induction stages as [| stage stages IH]; intros d k; simpl.
  - split; [lia | rewrite app_nil_r; apply incl_refl].
  - destruct (IH (Dict.set d (Vogler.stage_key stage) (window_at c text k))
                (k + 1)) as [Hlen Hkeys].
    split.
    + etransitivity; [exact Hlen |].
      pose proof (dict_set_length d (Vogler.stage_key stage)
                    (window_at c text k)). lia.
    + intros x Hx. apply Hkeys in Hx. apply in_app_or in Hx.
      apply in_or_app. destruct Hx as [Hx | Hx].
      * apply dict_set_keys in Hx. destruct Hx as [<- | Hx];
          [right; now left | now left].
      * right. now right.
Qed.

(** X1: [_split_into_stages] raises [ZeroDivisionError] exactly when
    [TOTAL_STAGES] is zero, whatever the text and the catalog; otherwise it
    returns a dictionary of at most as many entries as the catalog has
    stages, each under the key of a stage. *)
Theorem split_returns_unless_zero_total (text : string) (c : Vogler.Class) :
  match Vogler._split_into_stages text c with
  | (Ok content, c') =>
      c' = c
      /\ Vogler.TOTAL_STAGES c <> 0
      /\ (List.length content <= List.length (Vogler.STAGES c))%nat
      /\ incl (Dict.keys content) (map Vogler.stage_key (Vogler.STAGES c))
  | (Raise e, c') =>
      c' = c /\ e = ZeroDivisionError /\ Vogler.TOTAL_STAGES c = 0
  end.
Proof.
  destruct (Z.eq_dec (Vogler.TOTAL_STAGES c) 0) as [E | E].
  - unfold Vogler._split_into_stages, bind, attr, Vogler.floordiv.
    rewrite E. simpl. auto.
  - rewrite vogler_split_run by exact E.
    destruct (split_fold_bounds c text (Vogler.STAGES c) [] 0) as [Hl Hk].
    repeat split; assumption.
Qed.

(** *** A catalog of the declared size *)

Lemma len_window_inner (c : Vogler.Class) (text : string) (i : Z) :
  0 < Vogler.TOTAL_STAGES c ->
  0 <= i < Vogler.TOTAL_STAGES c - 1 ->
  Str.len (window_at c text i) = Str.len text / Vogler.TOTAL_STAGES c.
Proof.
  intros HT Hi. pose proof (len_nonneg text) as HL.
  pose proof (Z.mul_div_le (Str.len text) _ HT) as Hq.
  pose proof (Z.div_pos (Str.len text) _ HL HT) as Hq0.
  unfold window_at.
  destruct (Z.ltb_spec i (Vogler.TOTAL_STAGES c - 1)); [| lia].
  rewrite len_slice_inside; nia.
Qed.

Lemma len_window_last (c : Vogler.Class) (text : string) :
  0 < Vogler.TOTAL_STAGES c ->
  Str.len (window_at c text (Vogler.TOTAL_STAGES c - 1))
  = Str.len text
    - (Vogler.TOTAL_STAGES c - 1) * (Str.len text / Vogler.TOTAL_STAGES c).
Proof.
  intros HT. pose proof (len_nonneg text) as HL.
  pose proof (Z.mul_div_le (Str.len text) _ HT) as Hq.
  pose proof (Z.div_pos (Str.len text) _ HL HT) as Hq0.
  unfold window_at.
  destruct (Z.ltb_spec (Vogler.TOTAL_STAGES c - 1)
              (Vogler.TOTAL_STAGES c - 1)); [lia |].
  rewrite len_slice_inside; nia.
Qed.

Lemma window_lengths_from (c : Vogler.Class) (text : string) (m : nat) :
  forall k,
    0 <= k -> k + Z.of_nat (S m) = Vogler.TOTAL_STAGES c ->
    map Str.len (map (window_at c text) (count_from k (S m)))
    = List.app
        (repeat (Str.len text / Vogler.TOTAL_STAGES c) m)
        [Str.len text
         - (Vogler.TOTAL_STAGES c - 1)
           * (Str.len text / Vogler.TOTAL_STAGES c)].
Proof.
  induction m as [| m IH]; intros k Hk HT.
  - simpl. replace k with (Vogler.TOTAL_STAGES c - 1) by lia.
    now rewrite len_window_last by lia.
  - change (count_from k (S (S m))) with (k :: count_from (k + 1) (S m)).
    cbn [map repeat List.app]. rewrite IH by lia.
    now rewrite len_window_inner by lia.
Qed.

(** The conclusion shared by the properties of a catalog of the declared
    size: the run of the method and the windows it yields. *)
Lemma split_complete_windows (text : string) (c : Vogler.Class) :
  Vogler.TOTAL_STAGES c = Z.of_nat (List.length (Vogler.STAGES c)) ->
  Vogler.STAGES c <> [] ->
  NoDup (map Vogler.stage_key (Vogler.STAGES c)) ->
  exists content,
    Vogler._split_into_stages text c = (Ok content, c)
    /\ Dict.keys content = map Vogler.stage_key (Vogler.STAGES c)
    /\ windows content
       = map (window_at c text)
           (count_from 0 (List.length (Vogler.STAGES c))).
Proof.
  intros HT Hne Hnd.
  destruct (vogler_split_complete_catalog text c HT Hne Hnd)
    as (content & Hrun & Hkeys & Hwin & _).
  now exists content.
Qed.

(** X2: on a class whose catalog has [TOTAL_STAGES] stages with distinct
    keys, [_split_into_stages] returns one window per stage, under the keys
    of the stages in their order, and the windows put end to end are the
    text: nothing is lost and nothing is repeated. *)
Theorem split_complete_catalog_partitions (text : string)
  (c : Vogler.Class) :
  Vogler.TOTAL_STAGES c = Z.of_nat (List.length (Vogler.STAGES c)) ->
  Vogler.STAGES c <> [] ->
  NoDup (map Vogler.stage_key (Vogler.STAGES c)) ->
  exists content,
    Vogler._split_into_stages text c = (Ok content, c)
    /\ Dict.keys content = map Vogler.stage_key (Vogler.STAGES c)
    /\ List.length (windows content) = List.length (Vogler.STAGES c)
    /\ Str.join "" (windows content) = text.
Proof.
  intros HT Hne Hnd.
  destruct (vogler_split_complete_catalog text c HT Hne Hnd)
    as (content & Hrun & Hkeys & _ & Hlen & Hjoin).
  now exists content.
Qed.

(** X3: on such a class every window but the last has
    [len(text) // TOTAL_STAGES] characters and the last has the rest, that
    many and the remainder of the division. *)
Theorem split_complete_catalog_lengths (text : string) (c : Vogler.Class) :
  Vogler.TOTAL_STAGES c = Z.of_nat (List.length (Vogler.STAGES c)) ->
  Vogler.STAGES c <> [] ->
  NoDup (map Vogler.stage_key (Vogler.STAGES c)) ->
  exists content,
    Vogler._split_into_stages text c = (Ok content, c)
    /\ window_lengths content
       = List.app
           (repeat (Str.len text / Vogler.TOTAL_STAGES c)
              (List.length (Vogler.STAGES c) - 1))
           [Str.len text / Vogler.TOTAL_STAGES c
            + Str.len text mod Vogler.TOTAL_STAGES c].
Proof.
  intros HT Hne Hnd.
  destruct (split_complete_windows text c HT Hne Hnd)
    as (content & Hrun & _ & Hwin).
  exists content. split; [exact Hrun |].
  unfold window_lengths. rewrite Hwin.
  destruct (Vogler.STAGES c) as [| stage stages]; [congruence |].
  cbn [List.length] in *. rewrite window_lengths_from by lia.
  replace (S (List.length stages) - 1)%nat with (List.length stages) by lia.
  do 2 f_equal.
  pose proof (Z.div_mod (Str.len text) (Vogler.TOTAL_STAGES c)). nia.
Qed.

(** X4: on such a class a text of fewer characters than there are stages
    goes whole into the last window, and every other window is empty. *)
Theorem split_short_text_in_last_window (text : string) (c : Vogler.Class) :
  Vogler.TOTAL_STAGES c = Z.of_nat (List.length (Vogler.STAGES c)) ->
  Vogler.STAGES c <> [] ->
  NoDup (map Vogler.stage_key (Vogler.STAGES c)) ->
  Str.len text < Vogler.TOTAL_STAGES c ->
  exists content,
    Vogler._split_into_stages text c = (Ok content, c)
    /\ windows content
       = List.app (repeat "" (List.length (Vogler.STAGES c) - 1)) [text].
Proof.
  intros HT Hne Hnd Hshort.
  destruct (split_complete_windows text c HT Hne Hnd)
    as (content & Hrun & _ & Hwin).
  exists content. split; [exact Hrun |]. rewrite Hwin.
  pose proof (len_nonneg text) as HL.
  assert (Hq : Str.len text / Vogler.TOTAL_STAGES c = 0)
    by (apply Z.div_small; lia).
  assert (Hinner : forall i, 0 <= i < Vogler.TOTAL_STAGES c - 1 ->
                     window_at c text i = "").
  { intros i Hi. unfold window_at. rewrite Hq.
    destruct (Z.ltb_spec i (Vogler.TOTAL_STAGES c - 1)); [| lia].
    rewrite !Z.mul_0_r, slice_inside by lia. reflexivity. }
  assert (Hlast : window_at c text (Vogler.TOTAL_STAGES c - 1) = text).
  { unfold window_at. rewrite Hq.
    destruct (Z.ltb_spec (Vogler.TOTAL_STAGES c - 1)
                (Vogler.TOTAL_STAGES c - 1)); [lia |].
    rewrite Z.mul_0_r, slice_to_end by lia.
    apply string_of_list_ascii_of_string. }
  destruct (Vogler.STAGES c) as [| stage stages]; [congruence |].
  cbn [List.length] in *.
  replace (S (List.length stages) - 1)%nat with (List.length stages) by lia.
  assert (Hgen : forall m k,
            0 <= k -> k + Z.of_nat (S m) = Vogler.TOTAL_STAGES c ->
            map (window_at c text) (count_from k (S m))
            = List.app (repeat "" m) [text]).
  { induction m as [| m IH]; intros k Hk Hsum.
    - simpl. replace k with (Vogler.TOTAL_STAGES c - 1) by lia.
      now rewrite Hlast.
    - change (count_from k (S (S m))) with (k :: count_from (k + 1) (S m)).
      cbn [map repeat List.app]. rewrite IH by lia.
      now rewrite Hinner by lia. }
  apply Hgen; lia.
Qed.

(** *** A catalog shorter than declared *)

Lemma firstn_plus {A} (n m : nat) :
  forall l : list A,
    firstn (n + m) l = List.app (firstn n l) (firstn m (skipn n l)).
Proof.
  induction n as [| n IH]; intros l; [reflexivity |].
  destruct l as [| x l]; simpl.
  - now rewrite firstn_nil.
  - now rewrite IH.
Qed.

(** Two slices that meet make one. *)
Lemma slice_concat (s : string) (a b c : Z) :
  0 <= a <= b -> b <= c -> c <= Str.len s ->
  Str.slice s a b ++ Str.slice s b c = Str.slice s a c.
Proof.
  intros Ha Hb Hc. rewrite !slice_inside by lia.
  rewrite <- string_of_list_app. f_equal.
  replace (Z.to_nat (c - a)) with (Z.to_nat (b - a) + Z.to_nat (c - b))%nat
    by lia.
  rewrite firstn_plus, skipn_skipn. do 3 f_equal. lia.
Qed.

Lemma windows_make_prefix (c : Vogler.Class) (text : string) (m : nat) :
  forall k,
    0 <= k -> k + Z.of_nat m <= Vogler.TOTAL_STAGES c - 1 ->
    Str.join "" (map (window_at c text) (count_from k m))
    = Str.slice text (k * (Str.len text / Vogler.TOTAL_STAGES c))
        ((k + Z.of_nat m) * (Str.len text / Vogler.TOTAL_STAGES c)).
Proof.
  pose proof (len_nonneg text) as HL.
  induction m as [| m IH]; intros k Hk Hsum;
    assert (HT : 0 < Vogler.TOTAL_STAGES c) by lia;
    pose proof (Z.mul_div_le (Str.len text) _ HT) as Hq;
    pose proof (Z.div_pos (Str.len text) _ HL HT) as Hq0.
  - simpl. rewrite Z.add_0_r, slice_inside by nia.
    now rewrite Z.sub_diag.
  - change (count_from k (S m)) with (k :: count_from (k + 1) m).
    cbn [map]. rewrite join_empty_cons, IH by lia.
    unfold window_at.
    destruct (Z.ltb_spec k (Vogler.TOTAL_STAGES c - 1)); [| lia].
    rewrite slice_concat by nia. f_equal. lia.
Qed.

(** X5: on a class whose catalog has fewer stages than [TOTAL_STAGES], with
    distinct keys, the windows put end to end are only the beginning of the
    text, [len(STAGES) * (len(text) // TOTAL_STAGES)] characters of it: the
    end of every non-empty text is in no window. *)
Theorem split_short_catalog_loses_tail (text : string) (c : Vogler.Class) :
  Z.of_nat (List.length (Vogler.STAGES c)) < Vogler.TOTAL_STAGES c ->
  NoDup (map Vogler.stage_key (Vogler.STAGES c)) ->
  let kept :=
    Z.of_nat (List.length (Vogler.STAGES c))
    * (Str.len text / Vogler.TOTAL_STAGES c) in
  exists content,
    Vogler._split_into_stages text c = (Ok content, c)
    /\ Str.join "" (windows content) = Str.slice text 0 kept
    /\ Str.len (Str.join "" (windows content)) = kept
    /\ (text = "" \/ kept < Str.len text).
Proof.
  intros Hshort Hnd kept.
  pose proof (len_nonneg text) as HL.
  assert (HT : 0 < Vogler.TOTAL_STAGES c) by lia.
  pose proof (Z.mul_div_le (Str.len text) _ HT) as Hq.
  pose proof (Z.div_pos (Str.len text) _ HL HT) as Hq0.
  rewrite vogler_split_run by lia.
  rewrite split_step_fold; [| reflexivity | exact Hnd]. simpl List.app.
  eexists. split; [reflexivity |].
  destruct (combine_keys (map Vogler.stage_key (Vogler.STAGES c))
              (map (window_at c text)
                 (count_from 0 (List.length (Vogler.STAGES c)))))
    as [_ Hv].
  { now rewrite !length_map, length_count_from. }
  unfold windows. rewrite Hv, windows_make_prefix by lia.
  rewrite Z.mul_0_l, Z.add_0_l. fold kept.
  split; [reflexivity |]. split.
  - rewrite len_slice_inside; subst kept; nia.
  - destruct text as [| ch text]; [now left | right].
    unfold Str.len in *. cbn [String.length] in *.
    subst kept.
    destruct (Z.eq_dec (Z.of_nat (S (String.length text))
                        / Vogler.TOTAL_STAGES c) 0) as [E | E];
      [rewrite E; lia | nia].
Qed.

(** ** The keyword analysis on any stage *)

Section StageProperties.

(** X6: [_analyze_stage] raises [ZeroDivisionError] exactly on a stage
    without elements, whatever the content.  On any other stage it returns:
    every element has one note, a strength or a weakness, the dictionary of
    marks has at most one entry per element, and the score lies between 0
    and 1. *)
Theorem analyze_stage_notes_cover_elements (stage : Vogler.Stage)
  (content : Dict.t string) (c : Vogler.Class) :
  match Vogler._analyze_stage stage content c with
  | (Ok analysis, c') =>
      c' = c
      /\ Vogler.elements stage <> []
      /\ (List.length (Vogler.strengths analysis)
          + List.length (Vogler.weaknesses analysis)
          = List.length (Vogler.elements stage))%nat
      /\ (List.length (Vogler.elements_present analysis)
          <= List.length (Vogler.elements stage))%nat
      /\ (0 <= Vogler.score analysis <= 1)%Q
  | (Raise e, c') =>
      c' = c /\ e = ZeroDivisionError /\ Vogler.elements stage = []
  end.
Proof.
  rewrite vogler_analyze_stage_run.
  destruct (Vogler.elements stage) as [| e es]; [auto |].
  split; [reflexivity |]. split; [discriminate |]. split; [| split].
  - unfold stage_analysis_of. cbn [Vogler.strengths Vogler.weaknesses].
    rewrite !length_map. apply filter_length.
  - unfold stage_analysis_of. cbn [Vogler.elements_present].
    apply (marks_length _ (e :: es) []).
  - apply stage_score_in_unit.
Qed.

(** With distinct names the mark of an element is the outcome of its own
    keyword test. *)
Lemma marked_is_present (w : string) (es : list Vogler.StageElement)
  (e : Vogler.StageElement) :
  NoDup (map Vogler.element_name es) -> In e es ->
  Dict.get (Vogler.elements_present (stage_analysis_of w es))
    (Vogler.element_name e)
  = Some (is_present w e).
Proof.
  intros Hnd Hin. cbn [stage_analysis_of Vogler.elements_present].
  rewrite marks_distinct by (trivial || reflexivity). simpl List.app.
  now apply (dict_get_map Vogler.element_name (is_present w)).
Qed.

Lemma analyze_stage_well_formed stage content c :
  well_formed_stage stage ->
  Vogler._analyze_stage stage content c
  = (Ok (stage_analysis_of
           (Dict.get_default content (Vogler.stage_key stage) "")
           (Vogler.elements stage)), c).
Proof.
  intros [_ Hne]. rewrite vogler_analyze_stage_run.
  now destruct (Vogler.elements stage).
Qed.

(** *** Keywords with capital letters *)

(** X7: the keywords are compared as they are written with the lower-cased
    window, so an element all of whose keywords hold a capital letter is
    marked absent for every content, and gets a weakness note. *)
Theorem analyze_stage_capital_keywords_never_found
  (stage : Vogler.Stage) (element : Vogler.StageElement)
  (content : Dict.t string) (c : Vogler.Class) :
  well_formed_stage stage ->
  In element (Vogler.elements stage) ->
  Forall (fun kw => Str.lower kw <> kw) (Vogler.keywords element) ->
  exists analysis,
    Vogler._analyze_stage stage content c = (Ok analysis, c)
    /\ Dict.get (Vogler.elements_present analysis)
         (Vogler.element_name element)
       = Some false
    /\ In (weakness_note element) (Vogler.weaknesses analysis).
Proof.
  intros Hwf Hin Hcap. rewrite analyze_stage_well_formed by exact Hwf.
  set (w := Dict.get_default content (Vogler.stage_key stage) "").
  assert (Habsent : is_present w element = false).
  { unfold is_present. rewrite Forall_forall in Hcap.
    destruct (existsb _ (Vogler.keywords element)) eqn:E; [| reflexivity].
    apply existsb_exists in E as (kw & Hkw & E).
    now rewrite (capital_keyword_not_contained kw w (Hcap kw Hkw)) in E. }
  eexists. split; [reflexivity |]. split.
  - rewrite marked_is_present by (apply Hwf || exact Hin). now rewrite Habsent.
  - cbn [stage_analysis_of Vogler.weaknesses]. apply in_map.
    apply filter_In. split; [exact Hin | now rewrite Habsent].
Qed.

(** *** The empty keyword *)

Lemma contains_empty (s : string) : Str.contains "" s = true.
Proof.
  destruct s; [reflexivity |]. rewrite contains_cons. now rewrite prefix_nil.
Qed.

(** X8: an element that has the empty string among its keywords is marked
    present for every content, the missing and the empty window as well. *)
Theorem analyze_stage_empty_keyword_always_found
  (stage : Vogler.Stage) (element : Vogler.StageElement)
  (content : Dict.t string) (c : Vogler.Class) :
  well_formed_stage stage ->
  In element (Vogler.elements stage) ->
  In "" (Vogler.keywords element) ->
  exists analysis,
    Vogler._analyze_stage stage content c = (Ok analysis, c)
    /\ Dict.get (Vogler.elements_present analysis)
         (Vogler.element_name element)
       = Some true
    /\ In (strength_note element) (Vogler.strengths analysis).
Proof.
  intros Hwf Hin Hempty. rewrite analyze_stage_well_formed by exact Hwf.
  set (w := Dict.get_default content (Vogler.stage_key stage) "").
  assert (Hpresent : is_present w element = true).
  { unfold is_present. apply existsb_exists. exists "".
    split; [exact Hempty | apply contains_empty]. }
  eexists. split; [reflexivity |]. split.
  - rewrite marked_is_present by (apply Hwf || exact Hin).
    now rewrite Hpresent.
  - cbn [stage_analysis_of Vogler.strengths]. apply in_map.
    apply filter_In. now split.
Qed.

(** *** More text *)

Lemma is_present_extends (w before rest : string)
  (e : Vogler.StageElement) :
  is_present w e = true -> is_present (before ++ w ++ rest) e = true.
Proof.
  unfold is_present. rewrite !existsb_exists.
  intros (kw & Hkw & H). exists kw. split; [exact Hkw |].
  apply contains_iff in H as (p & q & H). apply contains_iff.
  exists (Str.lower before ++ p), (q ++ Str.lower rest).
  now rewrite !lower_append, H, !append_assoc.
Qed.

Lemma filter_length_mono {A} (p q : A -> bool) (l : list A) :
  (forall x, In x l -> p x = true -> q x = true) ->
  (List.length (filter p l) <= List.length (filter q l))%nat.
Proof.
  induction l as [| x l IH]; intros H; simpl; [lia |].
  assert (IH' := IH (fun y Hy => H y (or_intror Hy))).
  destruct (p x) eqn:Hp.
  - rewrite (H x (or_introl eq_refl) Hp). simpl. lia.
  - destruct (q x); simpl; lia.
Qed.

Lemma score_of_distinct (w : string) (es : list Vogler.StageElement) :
  NoDup (map Vogler.element_name es) ->
  Vogler.score (stage_analysis_of w es)
  = Qred (inject_Z (Z.of_nat (List.length (filter (is_present w) es)))
          / inject_Z (Z.of_nat (List.length es))).
Proof.
  intros Hnd. cbn [stage_analysis_of Vogler.score].
  rewrite marks_distinct by (trivial || reflexivity). simpl List.app.
  unfold Dict.values. now rewrite map_map, count_true_map.
Qed.

(** X9: text added before or after the window of a stage takes no mark
    away: on a stage with distinct element names every element marked
    present stays so, and the score does not go down.  The characters are
    code points below 256, whose lower-case form does not depend on their
    neighbours. *)
Theorem analyze_stage_more_text_keeps_marks
  (stage : Vogler.Stage) (content content' : Dict.t string)
  (before rest : string) (c : Vogler.Class) :
  well_formed_stage stage ->
  Dict.get_default content' (Vogler.stage_key stage) ""
  = before ++ Dict.get_default content (Vogler.stage_key stage) "" ++ rest ->
  exists analysis analysis',
    Vogler._analyze_stage stage content c = (Ok analysis, c)
    /\ Vogler._analyze_stage stage content' c = (Ok analysis', c)
    /\ (forall element, In element (Vogler.elements stage) ->
          Dict.get (Vogler.elements_present analysis)
            (Vogler.element_name element) = Some true ->
          Dict.get (Vogler.elements_present analysis')
            (Vogler.element_name element) = Some true)
    /\ (Vogler.score analysis <= Vogler.score analysis')%Q.
Proof.
  intros Hwf Hwin. rewrite !analyze_stage_well_formed by exact Hwf.
  rewrite Hwin.
  set (w := Dict.get_default content (Vogler.stage_key stage) "").
  destruct Hwf as [Hnd Hne].
  eexists. eexists. split; [reflexivity |]. split; [reflexivity |]. split.
  - intros e Hin. rewrite !marked_is_present by assumption.
    intros [= H]. now rewrite is_present_extends.
  - rewrite !score_of_distinct by exact Hnd. rewrite !Qred_correct.
    assert (Hpos : (0 < inject_Z (Z.of_nat
                                    (List.length (Vogler.elements stage))))%Q).
    { rewrite <- (Zlt_Qlt 0).
      destruct (Vogler.elements stage); [congruence | simpl; lia]. }
    unfold Qdiv. apply Qmult_le_compat_r.
    + rewrite <- Zle_Qle. apply inj_le. apply filter_length_mono.
      intros e _. apply is_present_extends.
    + apply Qlt_le_weak, Qinv_lt_0_compat, Hpos.
Qed.

(** *** All the stages *)

Lemma comprehension_analyses (content : Dict.t string) (c : Vogler.Class)
  (stages : list Vogler.Stage) :
  forall acc,
    for_each stages
      (fun stage acc =>
         bind (Vogler._analyze_stage stage content)
           (fun y => ret (List.app acc [y])))
      acc c
    = (if forallb (fun stage =>
                     negb (Nat.eqb (List.length (Vogler.elements stage)) 0))
            stages
       then Ok (List.app acc
                  (map (fun stage =>
                          stage_analysis_of
                            (Dict.get_default content
                               (Vogler.stage_key stage) "")
                            (Vogler.elements stage))
                     stages))
       else Raise ZeroDivisionError, c).
Proof.
  induction stages as [| stage stages IH]; intros acc.
  - simpl. now rewrite app_nil_r.
  - cbn [for_each forallb map]. unfold bind at 1. unfold bind at 1.
    rewrite vogler_analyze_stage_run.
    destruct (Vogler.elements stage) as [| e es] eqn:He; [reflexivity |].
    cbn [ret List.length Nat.eqb negb andb]. rewrite IH.
    destruct (forallb _ stages); [| reflexivity].
    now rewrite <- app_assoc.
Qed.

(** X10: [_get_stage_analyses] returns one analysis per stage of the
    catalog, in its order, when every stage has an element; one stage
    without elements makes it raise [ZeroDivisionError]. *)
Theorem get_stage_analyses_one_per_stage (content : Dict.t string)
  (c : Vogler.Class) :
  match Vogler._get_stage_analyses content c with
  | (Ok analyses, c') =>
      c' = c
      /\ Forall (fun stage => Vogler.elements stage <> []) (Vogler.STAGES c)
      /\ List.length analyses = List.length (Vogler.STAGES c)
      /\ Forall2
           (fun stage analysis =>
              Vogler._analyze_stage stage content c = (Ok analysis, c))
           (Vogler.STAGES c) analyses
  | (Raise e, c') =>
      c' = c /\ e = ZeroDivisionError
      /\ Exists (fun stage => Vogler.elements stage = []) (Vogler.STAGES c)
  end.
Proof.
  unfold Vogler._get_stage_analyses, bind, attr, comprehension.
  rewrite comprehension_analyses. simpl List.app.
  destruct (forallb _ (Vogler.STAGES c)) eqn:E.
  - rewrite forallb_forall in E.
    assert (Hall : Forall (fun stage => Vogler.elements stage <> [])
                     (Vogler.STAGES c)).
    { apply Forall_forall. intros stage Hin. specialize (E stage Hin).
      intros Hnil. rewrite Hnil in E. discriminate. }
    split; [reflexivity |]. split; [exact Hall |].
    split; [apply length_map |].
    induction Hall as [| stage stages Hne _ IH]; simpl; constructor.
    + rewrite vogler_analyze_stage_run.
      now destruct (Vogler.elements stage).
    + apply IH. intros x Hx. apply E. now right.
  - split; [reflexivity |]. split; [reflexivity |].
    apply Exists_exists.
    assert (Hex : exists stage,
               In stage (Vogler.STAGES c)
               /\ negb (Nat.eqb (List.length (Vogler.elements stage)) 0)
                  = false).
    { induction (Vogler.STAGES c) as [| s l IH]; [discriminate |].
      simpl in E. apply andb_false_iff in E as [E | E].
      - exists s. split; [now left | exact E].
      - destruct (IH E) as (s' & Hs' & H). exists s'. split; [now right | exact H]. }
    destruct Hex as (stage & Hin & H). exists stage. split; [exact Hin |].
    destruct (Vogler.elements stage); [reflexivity | discriminate].
Qed.

End StageProperties.

(** ** The worlds and their balance on any class *)

Section WorldProperties.

Lemma analyze_world_run world_type content (c : Vogler.Class) :
  Vogler.STAGES c <> [] ->
  Vogler._analyze_world world_type content c
  = (Ok (Vogler.VDict [
       ("strength",
        Vogler.VFloat (per_thousand (world_chars world_type content c)));
       ("balance",
        Vogler.VFloat
          (Qred (inject_Z (Z.of_nat
                   (List.length (world_stages world_type c)))
                 / inject_Z (Z.of_nat (List.length (Vogler.STAGES c))))));
       ("transitions", Vogler.VDict [
          ("clarity", Vogler.VFloat (4 # 5));
          ("impact", Vogler.VFloat (7 # 10));
          ("smoothness", Vogler.VFloat (9 # 10))])]), c).
Proof.
  intros Hne. unfold Vogler._analyze_world, bind, attr.
  unfold truediv at 1. change (Qeq_bool (inject_Z 1000) 0) with false.
  cbn [ret]. unfold truediv.
  destruct (Vogler.STAGES c) as [| s l] eqn:Hst; [congruence |].
  rewrite nonzero_length. unfold world_chars, world_windows, world_stages.
  rewrite Hst. reflexivity.
Qed.

Lemma len_append (a b : string) : Str.len (a ++ b) = Str.len a + Str.len b.
Proof. unfold Str.len. rewrite length_append. lia. Qed.

(** The separators of [" ".join] are counted with the windows. *)
Lemma len_join_space (w : string) (ws : list string) :
  Str.len (Str.join " " (w :: ws))
  = total_len (w :: ws) + Z.of_nat (List.length ws).
Proof.
  revert w. induction ws as [| w' ws IH]; intros w.
  - simpl. lia.
  - change (Str.join " " (w :: w' :: ws))
      with (w ++ " " ++ Str.join " " (w' :: ws)).
    rewrite !len_append, IH.
    change (Str.len " ") with 1. cbn [total_len fold_right List.length].
    unfold total_len. lia.
Qed.

Lemma total_len_nonneg (ws : list string) : 0 <= total_len ws.
Proof.
  induction ws as [| w ws IH]; simpl; [lia |].
  pose proof (len_nonneg w). unfold total_len in *. lia.
Qed.

(** X11: [_analyze_world] raises [ZeroDivisionError] exactly on a class
    without stages.  Otherwise its strength is a thousandth of the
    characters of the windows of the world and of the spaces that join them,
    one less than there are windows, and its balance is the share of the
    stages of the catalog that are of the world. *)
Theorem analyze_world_counts_separators (world_type : Vogler.WorldType)
  (content : Dict.t string) (c : Vogler.Class) :
  let ws := world_windows world_type content c in
  match Vogler._analyze_world world_type content c with
  | (Ok v, c') =>
      c' = c
      /\ Vogler.STAGES c <> []
      /\ float_field v "strength"
         = Some (per_thousand
                   (total_len ws
                    + Z.max 0 (Z.of_nat (List.length ws) - 1)))
      /\ float_field v "balance"
         = Some (Qred (inject_Z (Z.of_nat (List.length ws))
                       / inject_Z (Z.of_nat (List.length (Vogler.STAGES c)))))
  | (Raise e, c') =>
      c' = c /\ e = ZeroDivisionError /\ Vogler.STAGES c = []
  end.
Proof.
  intros ws. destruct (Vogler.STAGES c) as [| s l] eqn:Hst.
  - rewrite vogler_analyze_world_no_stages by exact Hst. auto.
  - assert (Hne : Vogler.STAGES c <> []) by (rewrite Hst; discriminate).
    rewrite <- Hst. clear Hst s l.
    rewrite analyze_world_run by exact Hne.
    split; [reflexivity |]. split; [exact Hne |].
    cbn [float_field Dict.get String.eqb Ascii.eqb Bool.eqb].
    split.
    + do 2 f_equal. unfold world_chars. fold ws.
      destruct ws as [| w ws']; [reflexivity |].
      rewrite len_join_space. cbn [List.length]. lia.
    + unfold ws, world_windows. now rewrite length_map.
Qed.

Lemma world_eqb_special (w : Vogler.WorldType) :
  Vogler.world_eqb w Vogler.SPECIAL
  = negb (Vogler.world_eqb w Vogler.ORDINARY).
Proof. now destruct w. Qed.

Lemma world_stages_split (c : Vogler.Class) :
  (List.length (world_stages Vogler.ORDINARY c)
   + List.length (world_stages Vogler.SPECIAL c)
   = List.length (Vogler.STAGES c))%nat.
Proof.
  unfold world_stages.
  rewrite (filter_ext _ _ (fun s => world_eqb_special (Vogler.world s))).
  apply filter_length.
Qed.

(** X12: every stage is of one of the two worlds, so on a class with a
    stage the balances that [_analyze_world] reports for the ordinary and
    for the special world add up to 1, whatever the contents. *)
Theorem analyze_world_balances_add_up (content content' : Dict.t string)
  (c : Vogler.Class) :
  Vogler.STAGES c <> [] ->
  exists ordinary special share share',
    Vogler._analyze_world Vogler.ORDINARY content c = (Ok ordinary, c)
    /\ Vogler._analyze_world Vogler.SPECIAL content' c = (Ok special, c)
    /\ float_field ordinary "balance" = Some share
    /\ float_field special "balance" = Some share'
    /\ (share + share' == 1)%Q.
Proof.
  intros Hne. rewrite !analyze_world_run by exact Hne.
  do 4 eexists. split; [reflexivity |]. split; [reflexivity |].
  split; [reflexivity |]. split; [reflexivity |].
  rewrite !Qred_correct.
  assert (Hpos : ~ (inject_Z (Z.of_nat (List.length (Vogler.STAGES c)))
                    == 0)%Q).
  { intros H. assert (H' := H). unfold Qeq in H'. simpl in H'.
    destruct (Vogler.STAGES c); [congruence | simpl in H'; lia]. }
  unfold Qdiv. rewrite <- Qmult_plus_distr_l, <- inject_Z_plus,
    <- Nat2Z.inj_add, world_stages_split.
  now apply Qmult_inv_r.
Qed.

(** *** The balance *)

Lemma per_thousand_le (a b : Z) :
  Qle_bool (per_thousand a) (per_thousand b) = (a <=? b).
Proof.
  unfold per_thousand.
  destruct (Z.leb_spec a b) as [H | H].
  - apply Qle_bool_iff. rewrite !Qred_correct. unfold Qdiv.
    apply Qmult_le_compat_r; [now rewrite <- Zle_Qle | discriminate].
  - destruct (Qle_bool _ _) eqn:E; [| reflexivity].
    apply Qle_bool_iff in E. rewrite !Qred_correct in E.
    unfold Qle in E. simpl in E. lia.
Qed.

Lemma per_thousand_zero (a : Z) :
  Qeq_bool (per_thousand a) 0 = (a =? 0).
Proof.
  unfold per_thousand.
  destruct (Z.eqb_spec a 0) as [-> | H]; [reflexivity |].
  destruct (Qeq_bool _ _) eqn:E; [| reflexivity].
  apply Qeq_bool_iff in E. rewrite Qred_correct in E.
  unfold Qeq in E. simpl in E. lia.
Qed.

Lemma py_min_per_thousand (a b : Z) :
  Vogler.py_min (per_thousand a) (per_thousand b) = per_thousand (Z.min a b).
Proof.
  unfold Vogler.py_min. rewrite per_thousand_le.
  destruct (Z.leb_spec a b); cbn [negb]; f_equal; lia.
Qed.

Lemma py_max_per_thousand (a b : Z) :
  Vogler.py_max (per_thousand a) (per_thousand b) = per_thousand (Z.max a b).
Proof.
  unfold Vogler.py_max. rewrite per_thousand_le.
  destruct (Z.leb_spec b a); cbn [negb]; f_equal; lia.
Qed.

Lemma per_thousand_ratio (m M : Z) :
  M <> 0 ->
  (Qred (per_thousand m / per_thousand M) == inject_Z m / inject_Z M)%Q.
Proof.
  intros HM. unfold per_thousand. rewrite !Qred_correct.
  assert (HM' : ~ (inject_Z M == 0)%Q).
  { unfold Qeq. simpl. lia. }
  field; repeat split; (exact HM' || discriminate).
Qed.

Lemma world_chars_nonneg world_type content c :
  0 <= world_chars world_type content c.
Proof. apply len_nonneg. Qed.

(** What [_analyze_world_balance] does on any class and content. *)
Lemma world_balance_cases (content : Dict.t string) (c : Vogler.Class) :
  let lo := world_chars Vogler.ORDINARY content c in
  let ls := world_chars Vogler.SPECIAL content c in
  match Vogler._analyze_world_balance content c with
  | (Ok r, c') =>
      c' = c
      /\ Vogler.STAGES c <> []
      /\ Z.max lo ls <> 0
      /\ (r == inject_Z (Z.min lo ls) / inject_Z (Z.max lo ls))%Q
      /\ (0 <= r <= 1)%Q
  | (Raise e, c') =>
      c' = c /\ e = ZeroDivisionError
      /\ (Vogler.STAGES c = [] \/ (lo = 0 /\ ls = 0))
  end.
Proof.
  intros lo ls. unfold Vogler._analyze_world_balance.
  destruct (Vogler.STAGES c) as [| s l] eqn:Hst.
  - unfold bind. rewrite vogler_analyze_world_no_stages by exact Hst. auto.
  - assert (Hne : Vogler.STAGES c <> []) by congruence.
    unfold bind. rewrite !analyze_world_run by exact Hne.
    cbn [Vogler.getitem Vogler.as_number Dict.get String.eqb Ascii.eqb
         Bool.eqb ret].
    fold lo ls. rewrite py_min_per_thousand, py_max_per_thousand.
    unfold truediv. rewrite per_thousand_zero.
    pose proof (world_chars_nonneg Vogler.ORDINARY content c) as Ho.
    pose proof (world_chars_nonneg Vogler.SPECIAL content c) as Hs.
    fold lo in Ho. fold ls in Hs.
    destruct (Z.eqb_spec (Z.max lo ls) 0) as [E | E].
    + split; [reflexivity |]. split; [reflexivity |]. right. lia.
    + cbn [ret]. split; [reflexivity |]. split; [rewrite <- Hst; exact Hne |].
      split; [exact E |].
      pose proof (per_thousand_ratio (Z.min lo ls) (Z.max lo ls) E) as Hr.
      split; [exact Hr |]. rewrite Hr.
      assert (Hpos : (0 < inject_Z (Z.max lo ls))%Q)
        by (rewrite <- (Zlt_Qlt 0); lia).
      split.
      * apply Qle_shift_div_l; [exact Hpos |]. rewrite Qmult_0_l.
        rewrite <- (Zle_Qle 0). lia.
      * apply Qle_shift_div_r; [exact Hpos |]. rewrite Qmult_1_l.
        rewrite <- Zle_Qle. lia.
Qed.

(** X13: [_analyze_world_balance] can raise nothing but
    [ZeroDivisionError], and does so exactly when the class has no stage or
    both joined world contents are empty.  Otherwise it returns a balance
    between 0 and 1: it is 1 when the two contents are equally long, and it
    is 0 exactly when one of them is empty. *)
Theorem world_balance_raises_or_in_unit (content : Dict.t string)
  (c : Vogler.Class) :
  let lo := world_chars Vogler.ORDINARY content c in
  let ls := world_chars Vogler.SPECIAL content c in
  match Vogler._analyze_world_balance content c with
  | (Ok r, c') =>
      c' = c
      /\ Vogler.STAGES c <> []
      /\ Z.max lo ls <> 0
      /\ (0 <= r <= 1)%Q
      /\ (lo = ls -> (r == 1)%Q)
      /\ ((r == 0)%Q <-> Z.min lo ls = 0)
  | (Raise e, c') =>
      c' = c /\ e = ZeroDivisionError
      /\ (Vogler.STAGES c = [] \/ (lo = 0 /\ ls = 0))
  end.
Proof.
  intros lo ls. pose proof (world_balance_cases content c) as H.
  cbv zeta in H. fold lo ls in H.
  destruct (Vogler._analyze_world_balance content c) as [[r | e] c'];
    [| exact H].
  destruct H as (Hc & Hst & Hmax & Hr & Hunit).
  split; [exact Hc |]. split; [exact Hst |]. split; [exact Hmax |].
  split; [exact Hunit |].
  assert (Hnz : ~ (inject_Z (Z.max lo ls) == 0)%Q).
  { intros E. apply Hmax. now apply (inject_Z_injective _ 0). }
  split; [| split].
  - intros E. rewrite Hr, <- E, Z.min_id, Z.max_id.
    rewrite <- E, Z.max_id in Hnz. now apply Qmult_inv_r.
  - intros E. rewrite Hr in E.
    apply (inject_Z_injective _ 0).
    rewrite <- (Qmult_div_r (inject_Z (Z.min lo ls)) _ Hnz).
    fold (Qdiv (inject_Z (Z.min lo ls)) (inject_Z (Z.max lo ls))).
    rewrite E. now rewrite Qmult_0_r.
  - intros E. rewrite Hr, E. unfold Qdiv. now rewrite Qmult_0_l.
Qed.

(** X14: the spaces that join the windows of a world are characters of its
    content, so on a class that has two stages of one world the quotient of
    the balance has a divisor, and [_analyze_world_balance] returns for
    every content, the empty one as well. *)
Theorem world_balance_returns_with_two_stages (content : Dict.t string)
  (c : Vogler.Class) (world_type : Vogler.WorldType) :
  (2 <= List.length (world_stages world_type c))%nat ->
  exists r,
    Vogler._analyze_world_balance content c = (Ok r, c)
    /\ (0 <= r <= 1)%Q.
Proof.
  intros Htwo. pose proof (world_balance_cases content c) as H.
  cbv zeta in H.
  assert (Hchars : 1 <= world_chars world_type content c).
  { unfold world_chars, world_windows.
    destruct (world_stages world_type c) as [| s [| s' l]];
      simpl in Htwo; try lia.
    cbn [map]. rewrite len_join_space.
    pose proof (total_len_nonneg
                  (map (fun s => Dict.get_default content
                                   (Vogler.stage_key s) "")
                     (s :: s' :: l))) as Hn.
    cbn [map] in Hn. cbn [List.length]. lia. }
  assert (Hst : Vogler.STAGES c <> []).
  { intros E. unfold world_stages in Htwo. rewrite E in Htwo.
    simpl in Htwo. lia. }
  destruct (Vogler._analyze_world_balance content c) as [[r | e] c'].
  - destruct H as (-> & _ & _ & _ & Hr). now exists r.
  - exfalso. destruct H as (_ & _ & [H | [Ho Hs]]); [contradiction |].
    destruct world_type; lia.
Qed.

End WorldProperties.

(** ** The overall evaluation, the colours and the page on any class *)

Section OverallProperties.

Context {F : Float} {P : Repr F}.

Lemma sum_from_bounds (qs : list Q) :
  Forall (fun q => 0 <= q <= 1)%Q qs ->
  forall acc,
    (acc <= fold_left Qplus qs acc
     <= acc + inject_Z (Z.of_nat (List.length qs)))%Q.
Proof.
  induction 1 as [| q qs [Hq0 Hq1] _ IH]; intros acc.
  - simpl. change (inject_Z 0) with 0%Q. split; lra.
  - cbn [fold_left List.length]. destruct (IH (acc + q)%Q) as [Hl Hu].
    rewrite Nat2Z.inj_succ. unfold Z.succ. rewrite inject_Z_plus.
    change (inject_Z 1) with 1%Q. split; lra.
Qed.

Lemma mean_in_unit (qs : list Q) :
  Forall (fun q => 0 <= q <= 1)%Q qs -> qs <> [] ->
  (0 <= Qred (Vogler.py_sum qs / inject_Z (Z.of_nat (List.length qs)))
   <= 1)%Q.
Proof.
  intros Hqs Hne. unfold Vogler.py_sum. rewrite !Qred_correct.
  destruct (sum_from_bounds qs Hqs 0) as [Hl Hu].
  assert (Hpos : (0 < inject_Z (Z.of_nat (List.length qs)))%Q).
  { rewrite <- (Zlt_Qlt 0). destruct qs; [congruence | simpl; lia]. }
  split.
  - apply Qle_shift_div_l; [exact Hpos | lra].
  - apply Qle_shift_div_r; [exact Hpos | lra].
Qed.

(** X15: [_analyze_overall_structure] can raise nothing but
    [ZeroDivisionError].  When it returns, every stage of the catalog has
    an element, the completeness and the balance lie between 0 and 1, and
    the flow is the constant 0.85. *)
Theorem overall_structure_within_bounds (content : Dict.t string)
  (c : Vogler.Class) :
  match Vogler._analyze_overall_structure content c with
  | (Ok v, c') =>
      c' = c
      /\ Forall (fun stage => Vogler.elements stage <> []) (Vogler.STAGES c)
      /\ exists completeness balance,
           v = Vogler.VDict [
                 ("completeness", Vogler.VFloat completeness);
                 ("balance", Vogler.VFloat balance);
                 ("flow", Vogler.VFloat (17 # 20))]
           /\ (0 <= completeness <= 1)%Q
           /\ (0 <= balance <= 1)%Q
  | (Raise e, c') => c' = c /\ e = ZeroDivisionError
  end.
Proof.
  unfold Vogler._analyze_overall_structure, Vogler._get_stage_analyses,
    bind, attr, comprehension.
  rewrite comprehension_analyses. simpl List.app.
  destruct (forallb _ (Vogler.STAGES c)) eqn:E; [| auto].
  rewrite forallb_forall in E.
  assert (Hall : Forall (fun stage => Vogler.elements stage <> [])
                   (Vogler.STAGES c)).
  { apply Forall_forall. intros stage Hin. specialize (E stage Hin).
    intros Hnil. rewrite Hnil in E. discriminate. }
  unfold truediv at 1.
  destruct (Vogler.STAGES c) as [| s l] eqn:Hst; [simpl; auto |].
  rewrite nonzero_length. rewrite <- Hst in *. cbn [ret].
  pose proof (world_balance_cases content c) as Hb. cbv zeta in Hb.
  destruct (Vogler._analyze_world_balance content c) as [[r | e] c'].
  2:{ destruct Hb as (-> & -> & _). auto. }
  destruct Hb as (-> & _ & _ & _ & Hr).
  unfold Vogler._analyze_narrative_flow, ret.
  split; [reflexivity |]. split; [exact Hall |].
  eexists. eexists. split; [reflexivity |]. split; [| exact Hr].
  match goal with
  | |- (0 <= Qred (Vogler.py_sum ?qs / _) <= 1)%Q =>
      replace (List.length (Vogler.STAGES c)) with (List.length qs)
        by (now rewrite !length_map);
      apply mean_in_unit
  end.
  - rewrite Forall_map, Forall_map. apply Forall_forall.
    intros stage Hin. rewrite Forall_forall in Hall.
    specialize (Hall stage Hin).
    destruct (Vogler.elements stage) as [| e es]; [congruence |].
    apply stage_score_in_unit.
  - rewrite Hst. discriminate.
Qed.

(** *** Colours *)

Lemma py_int_floor (q : Q) :
  (0 <= q)%Q ->
  Vogler.py_int q = Qnum q / Zpos (Qden q).
Proof.
  intros Hq. unfold Vogler.py_int. apply Z.quot_div_nonneg; [| lia].
  unfold Qle in Hq. simpl in Hq. lia.
Qed.

Lemma channel_of (q : Q) (c : Vogler.Class) :
  Vogler._get_color_by_score (Vogler.VFloat q) c
  = (Ok ("rgb(200, "
         ++ Str.of_int (Vogler.py_int (q * inject_Z 255)) ++ ", 200)"), c).
Proof. reflexivity. Qed.

Lemma channel_floor (q : Q) :
  (0 <= q)%Q ->
  Vogler.py_int (q * inject_Z 255) = (Qnum q * 255) / Zpos (Qden q).
Proof.
  intros Hq. rewrite py_int_floor.
  - destruct q as [n d]. simpl. now rewrite Pos.mul_1_r.
  - apply Qmult_le_0_compat; [exact Hq | discriminate].
Qed.

(** X16: for a score between 0 and 1 [_get_color_by_score] returns
    [rgb(200, g, 200)] with a green channel [g] between 0 and 255; a higher
    score gives a channel at least as high, the score 0 gives 0 and the
    score 1 gives 255. *)
Theorem color_channel_in_range (score score' : Q) (c : Vogler.Class) :
  (0 <= score)%Q -> (score <= score')%Q -> (score' <= 1)%Q ->
  exists green green',
    Vogler._get_color_by_score (Vogler.VFloat score) c
      = (Ok ("rgb(200, " ++ Str.of_int green ++ ", 200)"), c)
    /\ Vogler._get_color_by_score (Vogler.VFloat score') c
       = (Ok ("rgb(200, " ++ Str.of_int green' ++ ", 200)"), c)
    /\ 0 <= green <= green' /\ green' <= 255
    /\ ((score == 0)%Q -> green = 0)
    /\ ((score' == 1)%Q -> green' = 255).
Proof.
  intros H0 Hle H1. rewrite !channel_of. do 2 eexists.
  split; [reflexivity |]. split; [reflexivity |].
  assert (H0' : (0 <= score')%Q) by lra.
  rewrite !channel_floor by assumption.
  destruct score as [n d], score' as [n' d'].
  unfold Qle, Qlt, Qeq in *. simpl in *.
  assert (Hd : 0 < Z.pos d) by lia. assert (Hd' : 0 < Z.pos d') by lia.
  pose proof (Z.mul_div_le (n * 255) (Z.pos d) Hd) as Hfl.
  pose proof (Z.mul_succ_div_gt (n * 255) (Z.pos d) Hd) as Hfu.
  pose proof (Z.mul_div_le (n' * 255) (Z.pos d') Hd') as Hfl'.
  pose proof (Z.mul_succ_div_gt (n' * 255) (Z.pos d') Hd') as Hfu'.
  repeat split.
  - apply Z.div_pos; lia.
  - apply Z.div_le_lower_bound; [lia |].
    apply Z.mul_le_mono_pos_l with (p := Z.pos d); [lia |]. nia.
  - apply Z.div_le_upper_bound; lia.
  - intros E. assert (n = 0) as -> by lia. reflexivity.
  - intros E. assert (n' = Z.pos d') as -> by lia.
    rewrite Z.mul_comm. apply Z.div_mul. lia.
Qed.

(** X17: the channel is not clamped: a score above 1 by a 255th or more
    gives a channel above 255, and a score below 0 by as much gives a
    negative one.  The scores are those of magnitude at most [2 ^ 1000],
    whose product with 255 is within the range of a double. *)
Theorem color_channel_not_clamped (score : Q) (c : Vogler.Class) :
  (256 # 255 <= score <= inject_Z (2 ^ 1000))%Q
  \/ (- inject_Z (2 ^ 1000) <= score <= - (1 # 255))%Q ->
  exists green,
    Vogler._get_color_by_score (Vogler.VFloat score) c
      = (Ok ("rgb(200, " ++ Str.of_int green ++ ", 200)"), c)
    /\ (255 < green \/ green < 0).
Proof.
  intros H. rewrite channel_of. eexists. split; [reflexivity |].
  unfold Vogler.py_int. destruct score as [n d].
  assert (H' : (256 # 255 <= n # d)%Q \/ (n # d <= - (1 # 255))%Q)
    by (destruct H as [[H _] | [_ H]]; [now left | now right]).
  clear H. unfold Qle in H'. simpl in *. rewrite Pos.mul_1_r.
  destruct H' as [H | H].
  - left. assert (Hq : 256 <= (n * 255) ÷ Z.pos d).
    { rewrite Z.quot_div_nonneg by lia.
      apply Z.div_le_lower_bound; lia. }
    lia.
  - right. assert (Hq : - ((n * 255) ÷ Z.pos d) >= 1).
    { rewrite <- Z.quot_opp_l by lia.
      rewrite Z.quot_div_nonneg by lia.
      apply Z.le_ge, Z.div_le_lower_bound; lia. }
    lia.
Qed.

(** *** The page *)

Lemma for_each_ext {S A B} (body body' : A -> B -> M S B) (xs : list A) :
  (forall x, In x xs -> forall acc s, body x acc s = body' x acc s) ->
  forall acc s, for_each xs body acc s = for_each xs body' acc s.
Proof.
  induction xs as [| x xs IH]; intros H acc s; [reflexivity |].
  cbn [for_each]. unfold bind. rewrite (H x (or_introl eq_refl)).
  destruct (body' x acc s) as [[acc' | e] s']; [| reflexivity].
  apply IH. intros y Hy. apply H. now right.
Qed.

(** Names the bodies of the two loops of an equation between runs. *)
Ltac two_loops B B' :=
  match goal with
  | |- context [for_each _ ?b _ _] => set (B := b)
  end;
  match goal with
  | |- context [for_each _ ?b _ _] =>
      tryif constr_eq b B then fail else set (B' := b)
  end.

(** X18: [visualize] reads nothing of its argument but the entry
    ["stages"]: two dictionaries with the same entry, whatever else they
    hold, give the same page or the same exception. *)
Theorem visualize_reads_stages_only (d d' : Dict.t Vogler.pyval)
  (c : Vogler.Class) :
  Dict.get d "stages" = Dict.get d' "stages" ->
  Vogler.visualize (Vogler.VDict d) c = Vogler.visualize (Vogler.VDict d') c.
Proof.
  intros H. unfold Vogler.visualize, bind, attr. two_loops B B'.
  rewrite (for_each_ext B B'); [reflexivity |].
  intros stage _ acc s. subst B B'. cbv beta.
  cbn [Vogler.py_get ret]. unfold Dict.get_default. now rewrite H.
Qed.




End OverallProperties.

(** ** Harmon's Story Circle on any class *)

Lemma contains_refl (m : string) : Str.contains m m = true.
Proof.
  apply contains_iff. exists "", "". now rewrite append_nil_r.
Qed.

Lemma contains_append_l (m a b : string) :
  Str.contains m a = true -> Str.contains m (a ++ b) = true.
Proof.
  rewrite !contains_iff. intros (p & q & ->).
  exists p, (q ++ b). now rewrite !append_assoc.
Qed.

Lemma contains_append_r (m a b : string) :
  Str.contains m b = true -> Str.contains m (a ++ b) = true.
Proof.
  rewrite !contains_iff. intros (p & q & ->).
  exists (a ++ p), q. now rewrite !append_assoc.
Qed.

(** An entry of a joined list is in the joined text. *)
Lemma contains_join (m sep : string) (parts : list string) :
  forall p, In p parts -> Str.contains m p = true ->
  Str.contains m (Str.join sep parts) = true.
Proof.
  induction parts as [| q parts IH]; intros p Hin Hm; [contradiction |].
  destruct parts as [| q' parts].
  - destruct Hin as [-> | []]. exact Hm.
  - change (Str.join sep (q :: q' :: parts))
      with (q ++ sep ++ Str.join sep (q' :: parts)).
    destruct Hin as [-> | Hin].
    + now apply contains_append_l.
    + apply contains_append_r, contains_append_r. now apply (IH p).
Qed.

(** A loop that only appends: what it appends is the concatenation of what
    each turn appends. *)
Lemma fold_left_appends {A B} (g : A -> list B) (xs : list A) :
  forall acc,
    fold_left (fun acc x => List.app acc (g x)) xs acc
    = List.app acc (flat_map g xs).
Proof.
  induction xs as [| x xs IH]; intros acc; simpl.
  - now rewrite app_nil_r.
  - now rewrite IH, app_assoc.
Qed.

(** A loop keeps what holds at its start and is kept by each turn. *)
Lemma fold_left_invariant {A B} (f : B -> A -> B) (I : list A -> B -> Prop)
  (xs : list A) (acc : B) :
  I [] acc ->
  (forall seen x acc, In x xs -> I seen acc ->
     I (List.app seen [x]) (f acc x)) ->
  I xs (fold_left f xs acc).
Proof.
  intros H0 Hstep.
  assert (Hgen : forall rest seen acc,
            (forall x, In x rest -> In x xs) ->
            I seen acc ->
            I (List.app seen rest) (fold_left f rest acc)).
  { induction rest as [| x rest IH]; intros seen acc' Hsub Hseen.
    - now rewrite app_nil_r.
    - cbn [fold_left].
      replace (List.app seen (x :: rest))
        with (List.app (List.app seen [x]) rest)
        by (now rewrite <- app_assoc).
      apply IH.
      + intros y Hy. apply Hsub. now right.
      + apply Hstep; [apply Hsub; now left | exact Hseen]. }
  apply (Hgen xs [] acc); auto.
Qed.

Section HarmonMore.

Context {F : Float} {P : Repr F}.
Variable display_name : string.

(** *** The page *)



(** *** The prompt *)

(** X23: for every catalog [get_prompt] returns a prompt that holds, for
    each step, its line [number. name (description)], the line of its
    criteria joined by commas, and a header of its act. *)
Theorem harmon_prompt_lists_every_step (c : Harmon.Class)
  (step : Harmon.StoryStep) :
  In step (Harmon.STORY_STEPS c) ->
  exists prompt,
    Harmon.get_prompt c = (Ok prompt, c)
    /\ Str.contains (step_line step) prompt = true
    /\ Str.contains (criteria_line step) prompt = true
    /\ Str.contains (act_header (Harmon.act step)) prompt = true.
Proof.
  intros Hin. unfold Harmon.get_prompt, bind, attr.
  rewrite (for_each_pure _ harmon_prompt_step).
  2:{ intros x [parts [a |]]; unfold harmon_prompt_step;
        [destruct (String.eqb (Harmon.act x) a) |]; reflexivity. }
  match goal with
  | |- context [fold_left ?f ?xs ?start] =>
      pose proof
        (fold_left_invariant f
           (fun seen acc =>
              (forall s, In s seen ->
                 In (step_line s) (fst acc)
                 /\ In (criteria_line s) (fst acc)
                 /\ In (act_header (Harmon.act s)) (fst acc))
              /\ (forall a, snd acc = Some a -> In (act_header a) (fst acc)))
           xs start) as Hinv
  end.
  cbv beta in Hinv.
  destruct Hinv as [Hseen _].
  - split; [intros s [] | intros a [=]].
  - intros seen x [parts cur] _ [Hs Hcur]. unfold harmon_prompt_step.
    destruct cur as [a |]; cbn [negb fst snd].
    + destruct (String.eqb_spec (Harmon.act x) a) as [E | E]; cbn [negb fst snd].
      * split.
        -- intros s Hs'. apply in_app_or in Hs' as [Hs' | [<- | []]].
           ++ destruct (Hs s Hs') as (H1 & H2 & H3).
              repeat split; apply in_or_app; now left.
           ++ repeat split.
              ** apply in_or_app. right. now left.
              ** apply in_or_app. right. right. now left.
              ** apply in_or_app. left. rewrite E. now apply Hcur.
        -- intros a' Ha'. apply in_or_app. left. now apply Hcur.
      * split.
        -- intros s Hs'. apply in_app_or in Hs' as [Hs' | [<- | []]].
           ++ destruct (Hs s Hs') as (H1 & H2 & H3).
              repeat split; apply in_or_app; left; apply in_or_app; now left.
           ++ repeat split.
              ** apply in_or_app. right. now left.
              ** apply in_or_app. right. right. now left.
              ** apply in_or_app. left. apply in_or_app. right. now left.
        -- intros a' [= <-]. apply in_or_app. left. apply in_or_app.
           right. now left.
    + split.
      * intros s Hs'. apply in_app_or in Hs' as [Hs' | [<- | []]].
        -- destruct (Hs s Hs') as (H1 & H2 & H3).
           repeat split; apply in_or_app; left; apply in_or_app; now left.
        -- repeat split.
           ++ apply in_or_app. right. now left.
           ++ apply in_or_app. right. right. now left.
           ++ apply in_or_app. left. apply in_or_app. right. now left.
      * intros a' [= <-]. apply in_or_app. left. apply in_or_app.
        right. now left.
  - destruct (fold_left _ _ _) as [parts cur]. cbn [fst snd] in Hseen.
    eexists. split; [reflexivity |].
    destruct (Hseen step Hin) as (H1 & H2 & H3).
    split; [| split].
    + apply (contains_join _ _ _ _ H1), contains_refl.
    + apply (contains_join _ _ _ _ H2), contains_refl.
    + apply (contains_join _ _ _ _ H3), contains_refl.
Qed.

End HarmonMore.

(** ** Vogler's prompt *)

Lemma flat_map_singleton {A B} (f : A -> B) (l : list A) :
  flat_map (fun x => [f x]) l = map f l.
Proof. induction l as [| x l IH]; simpl; [| rewrite IH]; reflexivity. Qed.

(** A turn of the loop appends headers, if any, then the lines of the
    stage and of its elements. *)
Lemma vogler_prompt_step_appends (stage : Vogler.Stage)
  (parts : list string) (ca : option Vogler.ActType)
  (cw : option Vogler.WorldType) :
  exists headers,
    fst (fst (vogler_prompt_step stage (parts, ca, cw)))
    = List.app parts
        (List.app headers
           (stage_line stage :: description_line stage
            :: map element_line (Vogler.elements stage))).
Proof.
  unfold vogler_prompt_step.
  destruct (negb match ca with
                 | Some a => Vogler.act_eqb (Vogler.act stage) a
                 | None => false
                 end);
    destruct (negb match cw with
                   | Some w => Vogler.world_eqb (Vogler.world stage) w
                   | None => false
                   end);
    cbn [fst snd]; rewrite fold_left_appends, flat_map_singleton.
  - exists [act_header (Vogler.act_value (Vogler.act stage));
            world_header (Vogler.world stage)].
    now rewrite <- !app_assoc.
  - exists [act_header (Vogler.act_value (Vogler.act stage))].
    now rewrite <- !app_assoc.
  - exists [world_header (Vogler.world stage)]. now rewrite <- !app_assoc.
  - exists []. now rewrite <- !app_assoc.
Qed.

(** X24: for every catalog Vogler's [get_prompt] returns a prompt that
    holds, for each stage, its line [number. name], the line of its
    description and, for each of its elements, the line of the element with
    its importance out of 10. *)
Theorem vogler_prompt_lists_every_stage (c : Vogler.Class)
  (stage : Vogler.Stage) :
  In stage (Vogler.STAGES c) ->
  exists prompt,
    Vogler.get_prompt c = (Ok prompt, c)
    /\ Str.contains (stage_line stage) prompt = true
    /\ Str.contains (description_line stage) prompt = true
    /\ Forall (fun element =>
                 Str.contains (element_line element) prompt = true)
         (Vogler.elements stage).
Proof.
  intros Hin. unfold Vogler.get_prompt, bind, attr.
  rewrite (for_each_pure _ vogler_prompt_step).
  2:{ intros x [[parts ca] cw]. unfold vogler_prompt_step.
      destruct (negb _); destruct (negb _); reflexivity. }
  match goal with
  | |- context [fold_left ?f ?xs ?start] =>
      pose proof
        (fold_left_invariant f
           (fun seen acc =>
              forall s, In s seen ->
                In (stage_line s) (fst (fst acc))
                /\ In (description_line s) (fst (fst acc))
                /\ forall e, In e (Vogler.elements s) ->
                     In (element_line e) (fst (fst acc)))
           xs start) as Hinv
  end.
  cbv beta in Hinv.
  assert (Hseen := Hinv (fun s (H : In s []) => match H with end)).
  clear Hinv.
  assert (Hall := Hseen
    ltac:(intros seen x [[parts ca] cw] _ Hs;
          destruct (vogler_prompt_step_appends x parts ca cw)
            as [headers ->];
          intros s Hs'; apply in_app_or in Hs' as [Hs' | [<- | []]];
          [ destruct (Hs s Hs') as (H1 & H2 & H3);
            split; [| split];
            [ apply in_or_app; now left
            | apply in_or_app; now left
            | intros e He; apply in_or_app; left; now apply H3 ]
          | split; [| split];
            [ apply in_or_app; right; apply in_or_app; right; now left
            | apply in_or_app; right; apply in_or_app; right; right;
              now left
            | intros e He; apply in_or_app; right; apply in_or_app; right;
              right; right; now apply in_map ] ])).
  clear Hseen.
  destruct (fold_left _ _ _) as [[parts ca] cw]. cbn [fst] in Hall.
  eexists. split; [reflexivity |].
  destruct (Hall stage Hin) as (H1 & H2 & H3).
  split; [| split].
  - apply (contains_join _ _ _ _ H1), contains_refl.
  - apply (contains_join _ _ _ _ H2), contains_refl.
  - apply Forall_forall. intros e He.
    apply (contains_join _ _ _ _ (H3 e He)), contains_refl.
Qed.

(** ** Harmon's [analyze] on any catalog *)





Section HarmonAnalyze.

Context {F : Float} {P : Repr F}.
Variable display_name : string.



End HarmonAnalyze.

(** ** The positions of the steps of the catalog, in doubles *)

(** X27: with the cosine and the sine that the C library returns at the
    angles of the eight steps, the position of every step of the loaded
    catalog lies on the circle of the radius up to the [2 ^ 49]th part of
    its square, for every radius that converts to a double. *)
Theorem harmon_catalog_positions_on_circle (radius : Z) :
  convertible radius = true ->
  Forall
    (fun step =>
       exists x y,
         Harmon._calculate_step_position_converting
           (F := Binary64.floats Binary64.glibc_cos Binary64.glibc_sin)
           (Harmon.number step) radius Harmon.module_load
         = (Ok (x, y), Harmon.module_load)
         /\ (Qabs (Binary64.value x * Binary64.value x
                   + Binary64.value y * Binary64.value y
                   - inject_Z (radius * radius))
             <= (1 # 2 ^ 49) * inject_Z (radius * radius))%Q)
    (Harmon.STORY_STEPS Harmon.module_load).
Proof.
  intros Hr.
  assert (Hstep : forall n, In n [1; 2; 3; 4; 5; 6; 7; 8] ->
            exists x y,
              Harmon._calculate_step_position_converting
                (F := Binary64.floats Binary64.glibc_cos Binary64.glibc_sin)
                n radius Harmon.module_load
              = (Ok (x, y), Harmon.module_load)
              /\ (Qabs (Binary64.value x * Binary64.value x
                        + Binary64.value y * Binary64.value y
                        - inject_Z (radius * radius))
                  <= (1 # 2 ^ 49) * inject_Z (radius * radius))%Q).
  { intros n Hn.
    unfold Harmon._calculate_step_position_converting, float_of_int, bind.
    rewrite Hr.
    simpl in Hn.
    repeat (destruct Hn as [<- | Hn];
            [ do 2 eexists; split;
              [ reflexivity
              | apply position_error; vm_compute; discriminate ]
            | ]).
    contradiction. }
  repeat constructor; cbn [Harmon.number]; apply Hstep; simpl; tauto.
Qed.

(** ** Instances of the further properties *)

Lemma three_stage_keys_distinct :
  NoDup (map Vogler.stage_key (Vogler.STAGES three_stage_class)).
Proof. repeat constructor; simpl; intuition discriminate. Qed.

Lemma split_complete_catalog_partitions_witness :
  Vogler.TOTAL_STAGES three_stage_class
    = Z.of_nat (List.length (Vogler.STAGES three_stage_class))
  /\ Vogler.STAGES three_stage_class <> []
  /\ NoDup (map Vogler.stage_key (Vogler.STAGES three_stage_class))
  /\ exists content,
       Vogler._split_into_stages "Once upon a time" three_stage_class
         = (Ok content, three_stage_class)
       /\ Dict.keys content
          = map Vogler.stage_key (Vogler.STAGES three_stage_class)
       /\ List.length (windows content)
          = List.length (Vogler.STAGES three_stage_class)
       /\ Str.join "" (windows content) = "Once upon a time".
Proof.
  split; [reflexivity |]. split; [discriminate |].
  split; [exact three_stage_keys_distinct |].
  apply (split_complete_catalog_partitions "Once upon a time"
           three_stage_class);
    [reflexivity | discriminate | exact three_stage_keys_distinct].
Defined.

Lemma split_complete_catalog_lengths_witness :
  Vogler.TOTAL_STAGES three_stage_class
    = Z.of_nat (List.length (Vogler.STAGES three_stage_class))
  /\ Vogler.STAGES three_stage_class <> []
  /\ NoDup (map Vogler.stage_key (Vogler.STAGES three_stage_class))
  /\ exists content,
       Vogler._split_into_stages "Once upon a time" three_stage_class
         = (Ok content, three_stage_class)
       /\ window_lengths content = [5; 5; 6].
Proof.
  split; [reflexivity |]. split; [discriminate |].
  split; [exact three_stage_keys_distinct |].
  apply (split_complete_catalog_lengths "Once upon a time"
           three_stage_class);
    [reflexivity | discriminate | exact three_stage_keys_distinct].
Defined.

Lemma split_short_text_in_last_window_witness :
  Vogler.TOTAL_STAGES three_stage_class
    = Z.of_nat (List.length (Vogler.STAGES three_stage_class))
  /\ Vogler.STAGES three_stage_class <> []
  /\ NoDup (map Vogler.stage_key (Vogler.STAGES three_stage_class))
  /\ Str.len "ab" < Vogler.TOTAL_STAGES three_stage_class
  /\ exists content,
       Vogler._split_into_stages "ab" three_stage_class
         = (Ok content, three_stage_class)
       /\ windows content = [""; ""; "ab"].
Proof.
  split; [reflexivity |]. split; [discriminate |].
  split; [exact three_stage_keys_distinct |]. split; [reflexivity |].
  apply (split_short_text_in_last_window "ab" three_stage_class);
    [reflexivity | discriminate | exact three_stage_keys_distinct
    | reflexivity].
Defined.

Lemma split_short_catalog_loses_tail_witness :
  Z.of_nat (List.length (Vogler.STAGES Vogler.module_load))
    < Vogler.TOTAL_STAGES Vogler.module_load
  /\ NoDup (map Vogler.stage_key (Vogler.STAGES Vogler.module_load))
  /\ exists content,
       Vogler._split_into_stages "abcdefghijklmnopqrstuvwxyz"
         Vogler.module_load
         = (Ok content, Vogler.module_load)
       /\ Str.join "" (windows content)
          = Str.slice "abcdefghijklmnopqrstuvwxyz" 0 2
       /\ Str.len (Str.join "" (windows content)) = 2
       /\ ("abcdefghijklmnopqrstuvwxyz" = ""
           \/ 2 < Str.len "abcdefghijklmnopqrstuvwxyz").
Proof.
  assert (Hnd : NoDup (map Vogler.stage_key
                         (Vogler.STAGES Vogler.module_load)))
    by (repeat constructor; simpl; tauto).
  split; [reflexivity |]. split; [exact Hnd |].
  apply (split_short_catalog_loses_tail "abcdefghijklmnopqrstuvwxyz"
           Vogler.module_load); [reflexivity | exact Hnd].
Defined.

(** A stage whose keyword is written with a capital letter. *)
Lemma analyze_stage_capital_keywords_never_found_witness :
  let element := plain_element "Mentor" ["Mentor"] in
  let stage := plain_stage 4 "Meeting the Mentor" Vogler.ORDINARY [element] in
  let content := [("meeting_the_mentor", "The Mentor and the mentor")] in
  well_formed_stage stage
  /\ In element (Vogler.elements stage)
  /\ Forall (fun kw => Str.lower kw <> kw) (Vogler.keywords element)
  /\ exists analysis,
       Vogler._analyze_stage stage content Vogler.module_load
         = (Ok analysis, Vogler.module_load)
       /\ Dict.get (Vogler.elements_present analysis)
            (Vogler.element_name element)
          = Some false
       /\ In (weakness_note element) (Vogler.weaknesses analysis).
Proof.
  intros element stage content.
  assert (Hwf : well_formed_stage stage).
  { split; [repeat constructor; simpl; tauto | discriminate]. }
  assert (Hcap : Forall (fun kw => Str.lower kw <> kw)
                   (Vogler.keywords element))
    by (repeat constructor; discriminate).
  split; [exact Hwf |]. split; [now left |]. split; [exact Hcap |].
  apply (analyze_stage_capital_keywords_never_found stage element content
           Vogler.module_load Hwf); [now left | exact Hcap].
Defined.

(** A stage with the empty keyword, on a content without its key. *)
Lemma analyze_stage_empty_keyword_always_found_witness :
  let element := plain_element "Anything" [""; "something"] in
  let stage := plain_stage 1 "Ordinary World" Vogler.ORDINARY [element] in
  well_formed_stage stage
  /\ In element (Vogler.elements stage)
  /\ In "" (Vogler.keywords element)
  /\ exists analysis,
       Vogler._analyze_stage stage [] Vogler.module_load
         = (Ok analysis, Vogler.module_load)
       /\ Dict.get (Vogler.elements_present analysis)
            (Vogler.element_name element)
          = Some true
       /\ In (strength_note element) (Vogler.strengths analysis).
Proof.
  intros element stage.
  assert (Hwf : well_formed_stage stage).
  { split; [repeat constructor; simpl; tauto | discriminate]. }
  split; [exact Hwf |]. split; [now left |]. split; [now left |].
  apply (analyze_stage_empty_keyword_always_found stage element []
           Vogler.module_load Hwf); now left.
Defined.

(** The second stage of the three, on a window and on the window within
    more text. *)
Lemma analyze_stage_more_text_keeps_marks_witness :
  let stage :=
    plain_stage 2 "Initiation" Vogler.SPECIAL
      [plain_element "Trial" ["trial"; "ordeal"];
       plain_element "Helper" ["mentor"]] in
  let content := [("initiation", "a trial")] in
  let content' := [("initiation", "Then a trial, and a mentor")] in
  well_formed_stage stage
  /\ Dict.get_default content' (Vogler.stage_key stage) ""
     = "Then " ++ Dict.get_default content (Vogler.stage_key stage) ""
         ++ ", and a mentor"
  /\ exists analysis analysis',
       Vogler._analyze_stage stage content Vogler.module_load
         = (Ok analysis, Vogler.module_load)
       /\ Vogler._analyze_stage stage content' Vogler.module_load
          = (Ok analysis', Vogler.module_load)
       /\ (forall element, In element (Vogler.elements stage) ->
             Dict.get (Vogler.elements_present analysis)
               (Vogler.element_name element) = Some true ->
             Dict.get (Vogler.elements_present analysis')
               (Vogler.element_name element) = Some true)
       /\ (Vogler.score analysis <= Vogler.score analysis')%Q.
Proof.
  intros stage content content'.
  assert (Hwf : well_formed_stage stage).
  { split; [repeat constructor; simpl; intuition discriminate
           | discriminate]. }
  split; [exact Hwf |]. split; [reflexivity |].
  apply (analyze_stage_more_text_keeps_marks stage content content'
           "Then " ", and a mentor" Vogler.module_load Hwf).
  reflexivity.
Defined.

Lemma analyze_world_balances_add_up_witness :
  Vogler.STAGES three_stage_class <> []
  /\ exists ordinary special share share',
       Vogler._analyze_world Vogler.ORDINARY [] three_stage_class
         = (Ok ordinary, three_stage_class)
       /\ Vogler._analyze_world Vogler.SPECIAL [] three_stage_class
          = (Ok special, three_stage_class)
       /\ float_field ordinary "balance" = Some share
       /\ float_field special "balance" = Some share'
       /\ (share + share' == 1)%Q.
Proof.
  split; [discriminate |].
  apply (analyze_world_balances_add_up [] [] three_stage_class).
  discriminate.
Defined.

(** Two stages of the ordinary world, and no text at all. *)
Lemma world_balance_returns_with_two_stages_witness :
  (2 <= List.length (world_stages Vogler.ORDINARY three_stage_class))%nat
  /\ exists r,
       Vogler._analyze_world_balance [] three_stage_class
         = (Ok r, three_stage_class)
       /\ (0 <= r <= 1)%Q.
Proof.
  assert (H : (2 <= List.length
                     (world_stages Vogler.ORDINARY three_stage_class))%nat)
    by (simpl; lia).
  split; [exact H |].
  exact (world_balance_returns_with_two_stages [] three_stage_class
           Vogler.ORDINARY H).
Defined.

Lemma color_channel_in_range_witness :
  (0 <= 1 # 4)%Q /\ (1 # 4 <= 1 # 2)%Q /\ (1 # 2 <= 1)%Q
  /\ exists green green',
       Vogler._get_color_by_score (Vogler.VFloat (1 # 4)) Vogler.module_load
         = (Ok ("rgb(200, " ++ Str.of_int green ++ ", 200)"),
            Vogler.module_load)
       /\ Vogler._get_color_by_score (Vogler.VFloat (1 # 2))
            Vogler.module_load
          = (Ok ("rgb(200, " ++ Str.of_int green' ++ ", 200)"),
             Vogler.module_load)
       /\ 0 <= green <= green' /\ green' <= 255
       /\ ((1 # 4 == 0)%Q -> green = 0)
       /\ ((1 # 2 == 1)%Q -> green' = 255).
Proof.
  assert (H0 : (0 <= 1 # 4)%Q) by discriminate.
  assert (H1 : (1 # 4 <= 1 # 2)%Q) by discriminate.
  assert (H2 : (1 # 2 <= 1)%Q) by discriminate.
  split; [exact H0 |]. split; [exact H1 |]. split; [exact H2 |].
  exact (color_channel_in_range (1 # 4) (1 # 2) Vogler.module_load H0 H1 H2).
Defined.

Lemma color_channel_not_clamped_witness :
  ((256 # 255 <= 2 <= inject_Z (2 ^ 1000))%Q
   \/ (- inject_Z (2 ^ 1000) <= 2 <= - (1 # 255))%Q)
  /\ exists green,
       Vogler._get_color_by_score (Vogler.VFloat 2) Vogler.module_load
         = (Ok ("rgb(200, " ++ Str.of_int green ++ ", 200)"),
            Vogler.module_load)
       /\ (255 < green \/ green < 0).
Proof.
  assert (H : (256 # 255 <= 2 <= inject_Z (2 ^ 1000))%Q
              \/ (- inject_Z (2 ^ 1000) <= 2 <= - (1 # 255))%Q)
    by (left; split; vm_compute; discriminate).
  split; [exact H |].
  exact (color_channel_not_clamped 2 Vogler.module_load H).
Defined.

(** Two results with the same scores and different other entries. *)
Lemma visualize_reads_stages_only_witness :
  let stages :=
    Vogler.VDict [
      ("Ordinary World", Vogler.VDict [("score", Vogler.VFloat (1 # 2))])] in
  let d := [("stages", stages); ("overall", Vogler.VInt 1)] in
  let d' := [("worlds", Vogler.VDict []); ("stages", stages)] in
  Dict.get d "stages" = Dict.get d' "stages"
  /\ Vogler.visualize (F := Printed.floats) (P := Printed.printer)
       (Vogler.VDict d) Vogler.module_load
     = Vogler.visualize (F := Printed.floats) (P := Printed.printer)
         (Vogler.VDict d') Vogler.module_load.
Proof.
  intros stages d d'. split; [reflexivity |].
  apply (@visualize_reads_stages_only Printed.floats Printed.printer d d'
           Vogler.module_load).
  reflexivity.
Defined.





(** The third step of the loaded catalog, the first of its act. *)
Lemma harmon_prompt_lists_every_step_witness :
  let step :=
    Harmon.Build_StoryStep 3 "Незнакомая ситуация" "Unfamiliar Situation"
      "#2ecc71" "Middle"
      ["comfort zone departure"; "new challenges"; "initial adaptation"] in
  In step (Harmon.STORY_STEPS Harmon.module_load)
  /\ exists prompt,
       Harmon.get_prompt Harmon.module_load
       = (Ok prompt, Harmon.module_load)
       /\ Str.contains (step_line step) prompt = true
       /\ Str.contains (criteria_line step) prompt = true
       /\ Str.contains (act_header (Harmon.act step)) prompt = true.
Proof.
  intros step.
  assert (Hin : In step (Harmon.STORY_STEPS Harmon.module_load))
    by (right; right; left; reflexivity).
  split; [exact Hin |].
  exact (harmon_prompt_lists_every_step Harmon.module_load step Hin).
Defined.

(** The second of the three stages. *)
Lemma vogler_prompt_lists_every_stage_witness :
  let stage :=
    plain_stage 2 "Initiation" Vogler.SPECIAL
      [plain_element "Trial" ["trial"; "ordeal"];
       plain_element "Helper" ["mentor"]] in
  In stage (Vogler.STAGES three_stage_class)
  /\ exists prompt,
       Vogler.get_prompt three_stage_class = (Ok prompt, three_stage_class)
       /\ Str.contains (stage_line stage) prompt = true
       /\ Str.contains (description_line stage) prompt = true
       /\ Forall (fun element =>
                    Str.contains (element_line element) prompt = true)
            (Vogler.elements stage).
Proof.
  intros stage.
  assert (Hin : In stage (Vogler.STAGES three_stage_class))
    by (right; left; reflexivity).
  split; [exact Hin |].
  exact (vogler_prompt_lists_every_stage three_stage_class stage Hin).
Defined.



(** The default radius. *)
Lemma harmon_catalog_positions_on_circle_witness :
  convertible 150 = true
  /\ Forall
       (fun step =>
          exists x y,
            Harmon._calculate_step_position_converting
              (F := Binary64.floats Binary64.glibc_cos Binary64.glibc_sin)
              (Harmon.number step) 150 Harmon.module_load
            = (Ok (x, y), Harmon.module_load)
            /\ (Qabs (Binary64.value x * Binary64.value x
                      + Binary64.value y * Binary64.value y
                      - inject_Z (150 * 150))
                <= (1 # 2 ^ 49) * inject_Z (150 * 150))%Q)
       (Harmon.STORY_STEPS Harmon.module_load).
Proof.
  split; [reflexivity |].
  exact (harmon_catalog_positions_on_circle 150 eq_refl).
Defined.
